(** * Domain controller (domain-server/src/DomainServer.cpp)

    A shallow embedding of the control-plane routines of the domain server:
    the node registry with its pairwise session secrets and interest-set
    fan-out, the static-assignment queue, the ICE heartbeat engine, the
    metaverse heartbeat error handler, the replacement-entities swap and the
    authentication gate of the HTTP surface.

    Conventions.
    - A [QUuid] is its 128-bit value as a [Z]; the null UUID is [0].
    - [QUuid::createUuid()], [std::uniform_int_distribution] and the outcome
      of file-system calls are inputs of the model: the state carries the
      stream of values the library calls return, and how many were consumed.
    - A [SharedNodePointer] held by [LimitedNodeList] is represented by the
      key of the node in the hash; dereferencing is a lookup in the current
      state, so a mutation of the node's linked data is seen by every holder.
    - Outbound packets, HTTP responses and signals are appended to a log.
    - Logging ([qDebug], [qWarning], ...) has no effect on state and is
      dropped. *)

From stdpp Require Import gmap strings list fin_maps.
From Stdlib Require Import ZArith Lia.

Local Open Scope Z_scope.

(** ** Basic Qt and networking types *)

Abbreviation QUuid := Z (only parsing).

Definition isNull (u : QUuid) : bool := u =? 0.

(** [NodeType_t]: the closed set of node types. *)
Inductive NodeType_t :=
  | Agent | AudioMixer | AvatarMixer | EntityServer | AssetServer
  | MessagesMixer | EntityScriptServer
  | UpstreamAudioMixer | UpstreamAvatarMixer
  | DownstreamAudioMixer | DownstreamAvatarMixer
  | Unassigned.

#[global] Instance NodeType_eq_dec : EqDecision NodeType_t.
Proof. solve_decision. Defined.

Definition NodeType_to_nat (t : NodeType_t) : nat :=
  match t with
  | Agent => 0 | AudioMixer => 1 | AvatarMixer => 2 | EntityServer => 3
  | AssetServer => 4 | MessagesMixer => 5 | EntityScriptServer => 6
  | UpstreamAudioMixer => 7 | UpstreamAvatarMixer => 8
  | DownstreamAudioMixer => 9 | DownstreamAvatarMixer => 10
  | Unassigned => 11
  end%nat.

Definition NodeType_of_nat (n : nat) : NodeType_t :=
  match n with
  | 0 => Agent | 1 => AudioMixer | 2 => AvatarMixer | 3 => EntityServer
  | 4 => AssetServer | 5 => MessagesMixer | 6 => EntityScriptServer
  | 7 => UpstreamAudioMixer | 8 => UpstreamAvatarMixer
  | 9 => DownstreamAudioMixer | 10 => DownstreamAvatarMixer
  | _ => Unassigned
  end%nat.

#[global] Instance NodeType_countable : Countable NodeType_t.
Proof.
  apply (inj_countable' NodeType_to_nat NodeType_of_nat).
  by intros [].
Defined.

(** [Assignment::Type]; [AllTypes] is the requester's wildcard. *)
Inductive AssignmentType :=
  | AudioMixerType | AvatarMixerType | AgentType | AssetServerType
  | MessagesMixerType | EntityScriptServerType | EntityServerType
  | AllTypes.

#[global] Instance AssignmentType_eq_dec : EqDecision AssignmentType.
Proof. solve_decision. Defined.

(** An address as [QHostAddress] holds it: [None] is the null address. *)
Abbreviation QHostAddress := (option Z) (only parsing).

(** ** The node registry and the assignment queue *)

Module Registry.

(** [DomainServerNodeData], the record linked to every admitted node. *)
Record DomainServerNodeData := mkNodeData {
  _nodeInterestSet : gset NodeType_t;
  _sessionSecretHash : gmap Z Z;
  _assignmentUUID : QUuid;
  _wasAssigned : bool;
  _isAuthenticated : bool;
}.

(** [DomainServerNodeData()] as [nodeAdded] constructs it.  The class is
    declared outside the sources at hand; a new record is taken to hold no
    interest, no secret and no assignment, and to be authenticated. *)
Definition newNodeData : DomainServerNodeData :=
  mkNodeData ∅ ∅ 0 false true.

(** A node of the hash.  Its UUID is the key it is stored under. *)
Record Node := mkNode {
  getType : NodeType_t;
  getLinkedData : option DomainServerNodeData;
  getActiveSocket : bool;
}.

Record Assignment := mkAssignment {
  a_uuid : QUuid;
  a_type : AssignmentType;
  a_pool : string;
  a_payload : string;
  a_isStatic : bool;
  a_walletUUID : QUuid;
  a_nodeVersion : string;
}.

(** A [SharedAssignmentPointer]: the address of a shared [Assignment]
    object.  The queue and the index hold pointers to the same objects, so
    [resetUUID] on one is seen through the other. *)
Abbreviation AssignmentPtr := nat (only parsing).

(** What the gatekeeper remembers for a handed-out deployment. *)
Record PendingAssignedNodeData := mkPending {
  p_assignmentUUID : QUuid;
  p_walletUUID : QUuid;
  p_nodeVersion : string;
}.

Record Subnet := mkSubnet { subnetAddress : Z; subnetPrefix : Z }.

Inductive Event :=
  | DomainList (dest : QUuid) (entries : list (QUuid * QUuid))
  | DomainServerAddedNode (dest added secret : QUuid)
  | DomainServerRemovedNode (dest removed : QUuid)
  | CreateAssignment (destAddr : Z) (clone : Assignment)
  | userConnected
  | userDisconnected.

Record DomainServer := mkDomainServer {
  _nodeHash : gmap Z Node;
  _allAssignments : gmap Z nat;
  _unfulfilledAssignments : list nat;
  assignmentObjects : nat → Assignment;
  pendingAssignedNodes : gmap Z PendingAssignedNodeData;
  scriptsDirectory : gmap Z string;
  _acSubnetWhitelist : list Subnet;
  uuidSource : nat → QUuid;
  uuidsDrawn : nat;
  outbox : list Event;
}.

(** Field updates. *)
Definition set_nodeHash (h : gmap Z Node) (ds : DomainServer) : DomainServer :=
  mkDomainServer h (_allAssignments ds) (_unfulfilledAssignments ds)
    (assignmentObjects ds) (pendingAssignedNodes ds) (scriptsDirectory ds)
    (_acSubnetWhitelist ds) (uuidSource ds) (uuidsDrawn ds) (outbox ds).

Definition set_allAssignments (m : gmap Z nat) (ds : DomainServer) : DomainServer :=
  mkDomainServer (_nodeHash ds) m (_unfulfilledAssignments ds)
    (assignmentObjects ds) (pendingAssignedNodes ds) (scriptsDirectory ds)
    (_acSubnetWhitelist ds) (uuidSource ds) (uuidsDrawn ds) (outbox ds).

Definition set_unfulfilledAssignments (q : list nat) (ds : DomainServer) : DomainServer :=
  mkDomainServer (_nodeHash ds) (_allAssignments ds) q
    (assignmentObjects ds) (pendingAssignedNodes ds) (scriptsDirectory ds)
    (_acSubnetWhitelist ds) (uuidSource ds) (uuidsDrawn ds) (outbox ds).

Definition set_assignmentObjects (o : nat → Assignment) (ds : DomainServer) : DomainServer :=
  mkDomainServer (_nodeHash ds) (_allAssignments ds) (_unfulfilledAssignments ds)
    o (pendingAssignedNodes ds) (scriptsDirectory ds)
    (_acSubnetWhitelist ds) (uuidSource ds) (uuidsDrawn ds) (outbox ds).

Definition set_pendingAssignedNodes (p : gmap Z PendingAssignedNodeData)
    (ds : DomainServer) : DomainServer :=
  mkDomainServer (_nodeHash ds) (_allAssignments ds) (_unfulfilledAssignments ds)
    (assignmentObjects ds) p (scriptsDirectory ds)
    (_acSubnetWhitelist ds) (uuidSource ds) (uuidsDrawn ds) (outbox ds).

Definition set_scriptsDirectory (d : gmap Z string) (ds : DomainServer) : DomainServer :=
  mkDomainServer (_nodeHash ds) (_allAssignments ds) (_unfulfilledAssignments ds)
    (assignmentObjects ds) (pendingAssignedNodes ds) d
    (_acSubnetWhitelist ds) (uuidSource ds) (uuidsDrawn ds) (outbox ds).

Definition set_uuidsDrawn (n : nat) (ds : DomainServer) : DomainServer :=
  mkDomainServer (_nodeHash ds) (_allAssignments ds) (_unfulfilledAssignments ds)
    (assignmentObjects ds) (pendingAssignedNodes ds) (scriptsDirectory ds)
    (_acSubnetWhitelist ds) (uuidSource ds) n (outbox ds).

Definition emit (e : Event) (ds : DomainServer) : DomainServer :=
  mkDomainServer (_nodeHash ds) (_allAssignments ds) (_unfulfilledAssignments ds)
    (assignmentObjects ds) (pendingAssignedNodes ds) (scriptsDirectory ds)
    (_acSubnetWhitelist ds) (uuidSource ds) (uuidsDrawn ds) (outbox ds ++ [e]).

(** [QUuid::createUuid()]: the next value of the stream. *)
Definition createUuid (ds : DomainServer) : QUuid * DomainServer :=
  (uuidSource ds (uuidsDrawn ds), set_uuidsDrawn (S (uuidsDrawn ds)) ds).

(** [eachNode] visits the nodes of the hash; the visiting order is the
    order of [map_to_list]. *)
Definition liveNodes (ds : DomainServer) : list Node :=
  (map_to_list (_nodeHash ds)).*2.

Definition liveUUIDs (ds : DomainServer) : list QUuid :=
  (map_to_list (_nodeHash ds)).*1.

Definition linkedDataOf (u : QUuid) (ds : DomainServer) : option DomainServerNodeData :=
  n ← _nodeHash ds !! u; getLinkedData n.

(** *** countConnectedUsers *)

Definition UINT_MAX_PLUS_1 : Z := 2 ^ 32.

(** A user is an unassigned agent. *)
Definition isUser (node : Node) : bool :=
  if decide (getType node = Agent) then
    match getLinkedData node with
    | Some nodeData => negb (_wasAssigned nodeData)
    | None => false
    end
  else false.

(** The lambda [countConnectedUsers] hands to [eachNode]; [result] is an
    [unsigned int]. *)
Definition countStep (result : Z) (node : Node) : Z :=
  if decide (getType node = Agent) then
    match getLinkedData node with
    | Some nodeData =>
        if negb (_wasAssigned nodeData)
        then (result + 1) mod UINT_MAX_PLUS_1
        else result
    | None => result
    end
  else result.

(** [unsigned int result = 0; eachNode(...); return result;] *)
Definition countConnectedUsers (ds : DomainServer) : Z :=
  foldl countStep 0 (liveNodes ds).

(** *** Linked data and session secrets *)

Definition setLinkedData (d : option DomainServerNodeData) (n : Node) : Node :=
  mkNode (getType n) d (getActiveSocket n).

Definition alterLinkedData (f : DomainServerNodeData → DomainServerNodeData)
    (u : QUuid) (ds : DomainServer) : DomainServer :=
  set_nodeHash
    (alter (λ n, setLinkedData (f <$> getLinkedData n) n) u (_nodeHash ds)) ds.

Definition setNodeInterestSet (s : gset NodeType_t)
    (d : DomainServerNodeData) : DomainServerNodeData :=
  mkNodeData s (_sessionSecretHash d) (_assignmentUUID d) (_wasAssigned d)
    (_isAuthenticated d).

Definition setSessionSecretHash (h : gmap Z Z)
    (d : DomainServerNodeData) : DomainServerNodeData :=
  mkNodeData (_nodeInterestSet d) h (_assignmentUUID d) (_wasAssigned d)
    (_isAuthenticated d).

(** [getSessionSecretHash().insert(peer, secret)] *)
Definition insertSessionSecret (peer secret : QUuid)
    (d : DomainServerNodeData) : DomainServerNodeData :=
  setSessionSecretHash (<[peer := secret]> (_sessionSecretHash d)) d.

(** [getSessionSecretHash().remove(peer)] *)
Definition removeSessionSecret (peer : QUuid)
    (d : DomainServerNodeData) : DomainServerNodeData :=
  setSessionSecretHash (delete peer (_sessionSecretHash d)) d.

(** The secret node [a] holds for peer [b], if any. *)
Definition secretFor (a b : QUuid) (ds : DomainServer) : option QUuid :=
  d ← linkedDataOf a ds; _sessionSecretHash d !! b.

(** [connectionSecretForNodes(nodeA, nodeB)].  [operator[]] on A's hash
    yields the stored secret or a default-constructed (null) one; a null
    one is replaced by a new UUID, which is also inserted in B's hash. *)
Definition connectionSecretForNodes (nodeA nodeB : QUuid)
    (ds : DomainServer) : QUuid * DomainServer :=
  match linkedDataOf nodeA ds, linkedDataOf nodeB ds with
  | Some nodeAData, Some nodeBData =>
      let secretUUID := default 0 (_sessionSecretHash nodeAData !! nodeB) in
      if isNull secretUUID then
        let '(secretUUID, ds) := createUuid ds in
        let ds := alterLinkedData (insertSessionSecret nodeB secretUUID) nodeA ds in
        let ds := alterLinkedData (insertSessionSecret nodeA secretUUID) nodeB ds in
        (secretUUID, ds)
      else (secretUUID, ds)
  | _, _ => (0, ds)
  end.

(** [isInInterestSet(nodeA, nodeB)] on the dereferenced nodes. *)
Definition isInInterestSet (nodeA nodeB : Node) : bool :=
  match getLinkedData nodeA with
  | Some nodeAData => bool_decide (getType nodeB ∈ _nodeInterestSet nodeAData)
  | None => false
  end.

(** One visit of the [eachNode] lambda of [sendDomainListToNode]: the
    segment for [otherNode] is the node followed by the pairwise secret. *)
Definition domainListVisit (node : QUuid)
    (acc : list (QUuid * QUuid) * DomainServer) (otherNode : QUuid)
    : list (QUuid * QUuid) * DomainServer :=
  let '(entries, ds) := acc in
  match _nodeHash ds !! node, _nodeHash ds !! otherNode with
  | Some n, Some other =>
      if bool_decide (otherNode ≠ node) && isInInterestSet n other then
        let '(secret, ds) := connectionSecretForNodes node otherNode ds in
        (entries ++ [(otherNode, secret)], ds)
      else (entries, ds)
  | _, _ => (entries, ds)
  end.

(** [sendDomainListToNode(node, senderSockAddr)].  The extended header
    (session and node ids, permissions) carries no membership entry and is
    not part of the logged packet. *)
Definition sendDomainListToNode (node : QUuid) (ds : DomainServer) : DomainServer :=
  match linkedDataOf node ds with
  | Some nodeData =>
      let '(entries, ds) :=
        if bool_decide (0 < size (_nodeInterestSet nodeData))%nat
           && _isAuthenticated nodeData
        then foldl (domainListVisit node) ([], ds) (liveUUIDs ds)
        else ([], ds) in
      emit (DomainList node entries) ds
  | None => ds
  end.

(** One visit of [eachMatchingNode] in [broadcastNewNode]: predicate, then
    functor. *)
Definition broadcastVisit (addedNode : QUuid) (ds : DomainServer)
    (node : QUuid) : DomainServer :=
  match _nodeHash ds !! node, _nodeHash ds !! addedNode with
  | Some n, Some added =>
      if bool_decide (is_Some (getLinkedData n)) && getActiveSocket n
         && bool_decide (node ≠ addedNode) && isInInterestSet n added
      then
        let '(secret, ds) := connectionSecretForNodes node addedNode ds in
        emit (DomainServerAddedNode node addedNode secret) ds
      else ds
  | _, _ => ds
  end.

Definition broadcastNewNode (addedNode : QUuid) (ds : DomainServer) : DomainServer :=
  foldl (broadcastVisit addedNode) ds (liveUUIDs ds).

(** [handleConnectedNode(newNode)].  The replication flag set here is not
    read by any routine of this model. *)
Definition handleConnectedNode (newNode : QUuid) (ds : DomainServer) : DomainServer :=
  match _nodeHash ds !! newNode with
  | Some n =>
      match getLinkedData n with
      | Some nodeData =>
          let ds := sendDomainListToNode newNode ds in
          let ds :=
            if bool_decide (getType n = Agent) && negb (_wasAssigned nodeData)
            then emit userConnected ds else ds in
          broadcastNewNode newNode ds
      | None => ds
      end
  | None => ds
  end.

(** [processListRequestPacket(message, sendingNode)]: [interestList] is the
    interest list read from the packet.  The socket and place-name updates
    touch fields no routine of this model reads. *)
Definition processListRequestPacket (interestList : list NodeType_t)
    (sendingNode : QUuid) (ds : DomainServer) : DomainServer :=
  match _nodeHash ds !! sendingNode with
  | Some n =>
      let safeInterestSet : gset NodeType_t := list_to_set interestList in
      let safeInterestSet :=
        if bool_decide (getType n = Agent)
        then safeInterestSet ∖ {[Agent]} else safeInterestSet in
      let ds := alterLinkedData (setNodeInterestSet safeInterestSet) sendingNode ds in
      sendDomainListToNode sendingNode ds
  | None => ds
  end.

(** [nodeAdded(node)]: a new [DomainServerNodeData] is linked. *)
Definition nodeAdded (node : QUuid) (ds : DomainServer) : DomainServer :=
  set_nodeHash (alter (setLinkedData (Some newNodeData)) node (_nodeHash ds)) ds.

(** *** The assignment queue *)

Definition setUUID (u : QUuid) (a : Assignment) : Assignment :=
  mkAssignment u (a_type a) (a_pool a) (a_payload a) (a_isStatic a)
    (a_walletUUID a) (a_nodeVersion a).

(** Writing through a shared pointer. *)
Definition store (p : AssignmentPtr) (a : Assignment)
    (objs : nat → Assignment) : nat → Assignment :=
  λ q, if decide (q = p) then a else objs q.

Definition isEmpty (s : string) : bool := bool_decide (s = "").

(** The test of the loop body of [deployableAssignmentForRequest]. *)
Definition matchesRequest (requestAssignment assignment : Assignment) : bool :=
  let requestIsAllTypes := bool_decide (a_type requestAssignment = AllTypes) in
  let assignmentTypesMatch :=
    bool_decide (a_type assignment = a_type requestAssignment) in
  let neitherHasPool :=
    isEmpty (a_pool assignment) && isEmpty (a_pool requestAssignment) in
  let assignmentPoolsMatch :=
    bool_decide (a_pool assignment = a_pool requestAssignment) in
  (requestIsAllTypes || assignmentTypesMatch)
  && (neitherHasPool || assignmentPoolsMatch).

(** The [while] loop over the queue: [pos] is the iterator's offset from
    [begin()], [rest] what lies from the iterator to [end()]. *)
Fixpoint walkQueue (deref : nat → Assignment) (requestAssignment : Assignment)
    (rest : list nat) (pos : nat) : option (nat * nat) :=
  match rest with
  | [] => None
  | sharedAssignment :: rest' =>
      if matchesRequest requestAssignment (deref sharedAssignment)
      then Some (pos, sharedAssignment)
      else walkQueue deref requestAssignment rest' (S pos)
  end.

(** [deployableAssignmentForRequest]: [takeAt] then [enqueue]. *)
Definition deployableAssignmentForRequest (requestAssignment : Assignment)
    (ds : DomainServer) : option AssignmentPtr * DomainServer :=
  match walkQueue (assignmentObjects ds) requestAssignment
          (_unfulfilledAssignments ds) 0 with
  | Some (i, deployableAssignment) =>
      let taken := delete i (_unfulfilledAssignments ds) in
      (Some deployableAssignment,
       set_unfulfilledAssignments (taken ++ [deployableAssignment]) ds)
  | None => (None, ds)
  end.

(** [QHostAddress::isInSubnet] for IPv4: the leading [subnetPrefix] bits
    agree. *)
Definition isInSubnet (senderAddr : Z) (mask : Subnet) : bool :=
  bool_decide (0 ≤ subnetPrefix mask ≤ 32)
  && (Z.shiftr senderAddr (32 - subnetPrefix mask)
      =? Z.shiftr (subnetAddress mask) (32 - subnetPrefix mask)).

(** Modelled from the spec: [DomainGatekeeper::addPendingAssignedNode] is
    not part of the sources at hand; the spec has it record
    [pending_assigned_nodes[clone.uuid] = original], the original being
    named by its UUID together with the requester's wallet and version. *)
Definition addPendingAssignedNode (nodeUUID assignmentUUID walletUUID : QUuid)
    (nodeVersion : string) (ds : DomainServer) : DomainServer :=
  set_pendingAssignedNodes
    (<[nodeUUID := mkPending assignmentUUID walletUUID nodeVersion]>
       (pendingAssignedNodes ds)) ds.

(** [processRequestAssignmentPacket]: [requestAssignment] is the
    assignment read from the packet, [senderAddr] the sender's address. *)
Definition processRequestAssignmentPacket (requestAssignment : Assignment)
    (senderAddr : Z) (ds : DomainServer) : DomainServer :=
  if existsb (isInSubnet senderAddr) (_acSubnetWhitelist ds) then
    let '(assignmentToDeploy, ds) :=
      deployableAssignmentForRequest requestAssignment ds in
    match assignmentToDeploy with
    | Some p =>
        let '(u, ds) := createUuid ds in
        let uniqueAssignment := setUUID u (assignmentObjects ds p) in
        let ds := emit (CreateAssignment senderAddr uniqueAssignment) ds in
        addPendingAssignedNode (a_uuid uniqueAssignment)
          (a_uuid (assignmentObjects ds p))
          (a_walletUUID requestAssignment) (a_nodeVersion requestAssignment) ds
    | None => ds
    end
  else ds.

(** [QFile::rename(old, new)] inside the scripts directory, whose files
    are named by UUID: nothing happens when the source is missing or the
    target exists. *)
Definition rename (oldUUID newUUID : QUuid) (dir : gmap Z string) : gmap Z string :=
  match dir !! oldUUID, dir !! newUUID with
  | Some script, None => <[newUUID := script]> (delete oldUUID dir)
  | _, _ => dir
  end.

(** Modelled from the spec: [Assignment::resetUUID] is not part of the
    sources at hand; the spec has it regenerate the assignment UUID.  The
    write goes through the shared pointer. *)
Definition resetUUID (assignment : AssignmentPtr) (ds : DomainServer) : DomainServer :=
  let '(newUUID, ds) := createUuid ds in
  set_assignmentObjects
    (store assignment (setUUID newUUID (assignmentObjects ds assignment))
       (assignmentObjects ds)) ds.

(** [refreshStaticAssignmentAndAddToQueue(assignment)] *)
Definition refreshStaticAssignmentAndAddToQueue (assignment : AssignmentPtr)
    (ds : DomainServer) : DomainServer :=
  let oldUUID := a_uuid (assignmentObjects ds assignment) in
  let ds := resetUUID assignment ds in
  let a := assignmentObjects ds assignment in
  let ds :=
    if bool_decide (a_type a = AgentType) && isEmpty (a_payload a)
    then set_scriptsDirectory (rename oldUUID (a_uuid a) (scriptsDirectory ds)) ds
    else ds in
  let ds := set_allAssignments (<[a_uuid a := assignment]> (_allAssignments ds)) ds in
  set_unfulfilledAssignments (_unfulfilledAssignments ds ++ [assignment]) ds.

(** One round of the [foreach] of [nodeKilled] over the keys of the killed
    node's secret hash. *)
Definition cleanupVisit (nodeUUID : QUuid) (ds : DomainServer)
    (otherNodeSessionUUID : QUuid) : DomainServer :=
  match _nodeHash ds !! otherNodeSessionUUID with
  | Some otherNode =>
      alterLinkedData (removeSessionSecret nodeUUID) otherNodeSessionUUID ds
  | None => ds
  end.

(** [nodeKilled(node)]: [node] is the node object the signal carries and
    [nodeUUID] its UUID.  The ICE peer table cleaned first belongs to the
    gatekeeper and is no part of this state. *)
Definition nodeKilled (nodeUUID : QUuid) (node : Node)
    (ds : DomainServer) : DomainServer :=
  match getLinkedData node with
  | Some nodeData =>
      let ds :=
        if negb (isNull (_assignmentUUID nodeData)) then
          let matchedAssignment := _allAssignments ds !! _assignmentUUID nodeData in
          let ds :=
            set_allAssignments
              (delete (_assignmentUUID nodeData) (_allAssignments ds)) ds in
          match matchedAssignment with
          | Some p =>
              if a_isStatic (assignmentObjects ds p)
              then refreshStaticAssignmentAndAddToQueue p ds else ds
          | None => ds
          end
        else ds in
      let ds :=
        foldl (cleanupVisit nodeUUID) ds
          (map_to_list (_sessionSecretHash nodeData)).*1 in
      if bool_decide (getType node = Agent) && negb (_wasAssigned nodeData)
      then emit userDisconnected ds else ds
  | None => ds
  end.

(** Modelled from the spec: [LimitedNodeList] is not part of the sources at
    hand.  The spec's [add] inserts the node and emits [node-added], which
    [nodeAdded] handles; a UUID already in the registry is not added again. *)
Definition addNode (u : QUuid) (t : NodeType_t) (ds : DomainServer) : DomainServer :=
  match _nodeHash ds !! u with
  | Some _ => ds
  | None => nodeAdded u (set_nodeHash (<[u := mkNode t None true]> (_nodeHash ds)) ds)
  end.

(** Modelled from the spec: [LimitedNodeList::killNodeWithUUID] is not part
    of the sources at hand.  The spec's [remove] evicts the node and emits
    [node-killed], which [nodeKilled] handles. *)
Definition killNodeWithUUID (u : QUuid) (ds : DomainServer) : DomainServer :=
  match _nodeHash ds !! u with
  | Some node => nodeKilled u node (set_nodeHash (delete u (_nodeHash ds)) ds)
  | None => ds
  end.

(** The registry operations a node can live through. *)
Inductive RegistryOp :=
  | OpAdd (u : QUuid) (t : NodeType_t)
  | OpKill (u : QUuid)
  | OpSecret (a b : QUuid)
  | OpListRequest (interestList : list NodeType_t) (u : QUuid)
  | OpConnected (u : QUuid).

Definition runOp (ds : DomainServer) (op : RegistryOp) : DomainServer :=
  match op with
  | OpAdd u t => addNode u t ds
  | OpKill u => killNodeWithUUID u ds
  | OpSecret a b => (connectionSecretForNodes a b ds).2
  | OpListRequest l u => processListRequestPacket l u ds
  | OpConnected u => handleConnectedNode u ds
  end.

Definition runOps (ds : DomainServer) (ops : list RegistryOp) : DomainServer :=
  foldl runOp ds ops.

(** An operation that ends the life of neither [a] nor [b]. *)
Definition keepsAlive (a b : QUuid) (op : RegistryOp) : Prop :=
  match op with
  | OpKill u => u ≠ a ∧ u ≠ b
  | _ => True
  end.

(** The registry invariant: every stored secret is non-null, its key is a
    live node with linked data, and that node stores the same secret back. *)
Definition secretsConsistent (ds : DomainServer) : Prop :=
  ∀ a b s, secretFor a b ds = Some s → s ≠ 0 ∧ secretFor b a ds = Some s.

(** [createUuid] never returns the null UUID. *)
Definition uuidsNonNull (ds : DomainServer) : Prop :=
  ∀ n, uuidSource ds n ≠ 0.

Definition emptyServer (src : nat → QUuid) : DomainServer :=
  mkDomainServer ∅ ∅ [] (λ _, mkAssignment 0 AllTypes "" "" false 0 "")
    ∅ ∅ [mkSubnet 2130706433 32] src 0 [].

(** A registry with an agent (UUID 1) and an audio mixer (UUID 2), reached
    from the empty registry. *)
Definition twoNodes : DomainServer :=
  runOps (emptyServer (λ n, Z.of_nat n + 1)) [OpAdd 1 Agent; OpAdd 2 AudioMixer].

(** An entry is at the front of its type class when no entry of its type
    is queued before it. *)
Definition frontOfTypeClass (p : AssignmentPtr) (ds : DomainServer) : Prop :=
  ∃ before after,
    _unfulfilledAssignments ds = before ++ p :: after
    ∧ Forall (λ q, a_type (assignmentObjects ds q) ≠ a_type (assignmentObjects ds p))
        before.

(** Two static audio-mixer assignments: object 1 waits in the queue,
    object 0 is bound to the live worker node 7. *)
Definition mixerObjects (p : nat) : Assignment :=
  match p with
  | O => mkAssignment 100 AudioMixerType "" "" true 0 ""
  | _ => mkAssignment 101 AudioMixerType "" "" true 0 ""
  end.

Definition boundWorker : Node :=
  mkNode AudioMixer (Some (mkNodeData ∅ ∅ 100 true true)) true.

Definition respawnState : DomainServer :=
  mkDomainServer {[7 := boundWorker]} {[100 := 0%nat; 101 := 1%nat]} [1%nat]
    mixerObjects ∅ ∅ [mkSubnet 2130706433 32] (λ n, Z.of_nat n + 200) 0 [].

Definition mixerRequest : Assignment :=
  mkAssignment 0 AudioMixerType "" "" false 0 "".

(** The type of a live node and the interest set stored for it. *)
Definition typeOf (ds : DomainServer) (u : QUuid) : option NodeType_t :=
  getType <$> _nodeHash ds !! u.

Definition interestOf (ds : DomainServer) (u : QUuid) : option (gset NodeType_t) :=
  _nodeInterestSet <$> linkedDataOf u ds.

(** Two agents, each declaring the interest set {AvatarMixer, Agent} in a
    list request; the second then goes through [handleConnectedNode]. *)
Definition twoAgentsMeet : DomainServer :=
  runOps (emptyServer (λ n, Z.of_nat n + 1))
    [OpAdd 1 Agent; OpAdd 2 Agent;
     OpListRequest [AvatarMixer; Agent] 1;
     OpListRequest [AvatarMixer; Agent] 2;
     OpConnected 2;
     OpListRequest [AvatarMixer; Agent] 1].

(** An agent and an avatar mixer that declare interest in each other. *)
Definition agentMeetsMixer : DomainServer :=
  runOps (emptyServer (λ n, Z.of_nat n + 1))
    [OpAdd 1 Agent; OpAdd 3 AvatarMixer;
     OpListRequest [AvatarMixer; Agent] 1;
     OpListRequest [Agent] 3].

(** *** Notions used in the statements and proofs *)

(** The two slots [connectionSecretForNodes a b] may write. *)
Definition slotOf (a b x y : QUuid) : Prop := (x = a ∧ y = b) ∨ (x = b ∧ y = a).

#[global] Instance slotOf_dec a b x y : Decision (slotOf a b x y).
Proof. unfold slotOf. apply _. Defined.

(** Whether the call generates a secret. *)
Definition generates (a b : QUuid) (ds : DomainServer) : bool :=
  match linkedDataOf a ds, linkedDataOf b ds with
  | Some da, Some _ => isNull (default 0 (_sessionSecretHash da !! b))
  | _, _ => false
  end.

Definition good (ds : DomainServer) : Prop :=
  secretsConsistent ds ∧ uuidsNonNull ds.

(** [grows ds ds']: from a good state, [ds'] is good and keeps every
    secret of [ds]. *)
Definition grows (ds ds' : DomainServer) : Prop :=
  good ds →
  good ds' ∧ ∀ p q s, secretFor p q ds = Some s → secretFor p q ds' = Some s.

(** A pair's secret, once stored on both sides, outlives every operation
    that kills neither node. *)
Definition paired (a b s : QUuid) (ds : DomainServer) : Prop :=
  good ds ∧ secretFor a b ds = Some s ∧ secretFor b a ds = Some s.

Definition noMatch (deref : nat → Assignment) (req : Assignment) (q : nat) : Prop :=
  matchesRequest req (deref q) = false.

(** The part of the state the assignment queue lives in. *)
Definition sameAssignments (ds ds' : DomainServer) : Prop :=
  _allAssignments ds' = _allAssignments ds
  ∧ _unfulfilledAssignments ds' = _unfulfilledAssignments ds
  ∧ assignmentObjects ds' = assignmentObjects ds
  ∧ scriptsDirectory ds' = scriptsDirectory ds.

(** [sameViews ds ds']: the same node types and interest sets. *)
Definition sameViews (ds ds' : DomainServer) : Prop :=
  (∀ u, typeOf ds' u = typeOf ds u) ∧ (∀ u, interestOf ds' u = interestOf ds u).

(** What a membership entry for [peer] in a packet for [node] witnesses. *)
Definition wanted (ds : DomainServer) (node peer : QUuid) : Prop :=
  peer ≠ node
  ∧ ∃ t s, typeOf ds peer = Some t ∧ interestOf ds node = Some s ∧ t ∈ s.

End Registry.

(** ** The ICE heartbeat engine *)

Module Ice.

Record HifiSockAddr := mkSockAddr { getAddress : QHostAddress; getPort : Z }.

(** [HifiSockAddr::isNull]: no address and no port. *)
Definition sockIsNull (s : HifiSockAddr) : bool :=
  bool_decide (getAddress s = None) && (getPort s =? 0).

(** [HifiSockAddr::clear]. *)
Definition clearedSocket : HifiSockAddr := mkSockAddr None 0.

Definition ICE_SERVER_DEFAULT_PORT : Z := 7337.

(** The value of the [ice_server_address] key of the update sent to the
    metaverse. *)
Inductive IceAddressValue :=
  | ZeroAddress
  | AddressString (a : QHostAddress).

Inductive IceEvent :=
  | SentHeartbeat (to : HifiSockAddr)
  | PutIceServerAddress (v : IceAddressValue)
  | GenerateNewDomainKeypair (domainID : QUuid)
  | LookupHost
  | RetryAddressUpdateLater.

Record IceState := mkIce {
  _iceServerSocket : HifiSockAddr;
  _iceServerAddresses : list (option Z);
  _failedIceServerAddresses : gset (option Z);
  _noReplyICEHeartbeats : Z;
  _numHeartbeatDenials : Z;
  _connectedToICEServer : bool;
  _sendICEServerAddressToMetaverseAPIInProgress : bool;
  _sendICEServerAddressToMetaverseAPIRedo : bool;
  lookupPending : bool;
  hasPrivateKey : bool;
  sessionUUID : QUuid;
  distribution : nat → nat → nat;
  draws : nat;
  iceLog : list IceEvent;
}.

Definition set_iceServerSocket (s : HifiSockAddr) (st : IceState) : IceState :=
  mkIce s (_iceServerAddresses st) (_failedIceServerAddresses st)
    (_noReplyICEHeartbeats st) (_numHeartbeatDenials st) (_connectedToICEServer st)
    (_sendICEServerAddressToMetaverseAPIInProgress st)
    (_sendICEServerAddressToMetaverseAPIRedo st) (lookupPending st)
    (hasPrivateKey st) (sessionUUID st) (distribution st) (draws st) (iceLog st).

Definition set_failedIceServerAddresses (f : gset (option Z)) (st : IceState) : IceState :=
  mkIce (_iceServerSocket st) (_iceServerAddresses st) f
    (_noReplyICEHeartbeats st) (_numHeartbeatDenials st) (_connectedToICEServer st)
    (_sendICEServerAddressToMetaverseAPIInProgress st)
    (_sendICEServerAddressToMetaverseAPIRedo st) (lookupPending st)
    (hasPrivateKey st) (sessionUUID st) (distribution st) (draws st) (iceLog st).

Definition set_noReplyICEHeartbeats (n : Z) (st : IceState) : IceState :=
  mkIce (_iceServerSocket st) (_iceServerAddresses st) (_failedIceServerAddresses st)
    n (_numHeartbeatDenials st) (_connectedToICEServer st)
    (_sendICEServerAddressToMetaverseAPIInProgress st)
    (_sendICEServerAddressToMetaverseAPIRedo st) (lookupPending st)
    (hasPrivateKey st) (sessionUUID st) (distribution st) (draws st) (iceLog st).

Definition set_numHeartbeatDenials (n : Z) (st : IceState) : IceState :=
  mkIce (_iceServerSocket st) (_iceServerAddresses st) (_failedIceServerAddresses st)
    (_noReplyICEHeartbeats st) n (_connectedToICEServer st)
    (_sendICEServerAddressToMetaverseAPIInProgress st)
    (_sendICEServerAddressToMetaverseAPIRedo st) (lookupPending st)
    (hasPrivateKey st) (sessionUUID st) (distribution st) (draws st) (iceLog st).

Definition set_connectedToICEServer (b : bool) (st : IceState) : IceState :=
  mkIce (_iceServerSocket st) (_iceServerAddresses st) (_failedIceServerAddresses st)
    (_noReplyICEHeartbeats st) (_numHeartbeatDenials st) b
    (_sendICEServerAddressToMetaverseAPIInProgress st)
    (_sendICEServerAddressToMetaverseAPIRedo st) (lookupPending st)
    (hasPrivateKey st) (sessionUUID st) (distribution st) (draws st) (iceLog st).

Definition set_inProgress (b : bool) (st : IceState) : IceState :=
  mkIce (_iceServerSocket st) (_iceServerAddresses st) (_failedIceServerAddresses st)
    (_noReplyICEHeartbeats st) (_numHeartbeatDenials st) (_connectedToICEServer st)
    b (_sendICEServerAddressToMetaverseAPIRedo st) (lookupPending st)
    (hasPrivateKey st) (sessionUUID st) (distribution st) (draws st) (iceLog st).

Definition set_redo (b : bool) (st : IceState) : IceState :=
  mkIce (_iceServerSocket st) (_iceServerAddresses st) (_failedIceServerAddresses st)
    (_noReplyICEHeartbeats st) (_numHeartbeatDenials st) (_connectedToICEServer st)
    (_sendICEServerAddressToMetaverseAPIInProgress st) b (lookupPending st)
    (hasPrivateKey st) (sessionUUID st) (distribution st) (draws st) (iceLog st).

Definition set_lookupPending (b : bool) (st : IceState) : IceState :=
  mkIce (_iceServerSocket st) (_iceServerAddresses st) (_failedIceServerAddresses st)
    (_noReplyICEHeartbeats st) (_numHeartbeatDenials st) (_connectedToICEServer st)
    (_sendICEServerAddressToMetaverseAPIInProgress st)
    (_sendICEServerAddressToMetaverseAPIRedo st) b
    (hasPrivateKey st) (sessionUUID st) (distribution st) (draws st) (iceLog st).

Definition set_draws (n : nat) (st : IceState) : IceState :=
  mkIce (_iceServerSocket st) (_iceServerAddresses st) (_failedIceServerAddresses st)
    (_noReplyICEHeartbeats st) (_numHeartbeatDenials st) (_connectedToICEServer st)
    (_sendICEServerAddressToMetaverseAPIInProgress st)
    (_sendICEServerAddressToMetaverseAPIRedo st) (lookupPending st)
    (hasPrivateKey st) (sessionUUID st) (distribution st) n (iceLog st).

Definition record (e : IceEvent) (st : IceState) : IceState :=
  mkIce (_iceServerSocket st) (_iceServerAddresses st) (_failedIceServerAddresses st)
    (_noReplyICEHeartbeats st) (_numHeartbeatDenials st) (_connectedToICEServer st)
    (_sendICEServerAddressToMetaverseAPIInProgress st)
    (_sendICEServerAddressToMetaverseAPIRedo st) (lookupPending st)
    (hasPrivateKey st) (sessionUUID st) (distribution st) (draws st)
    (iceLog st ++ [e]).

(** [sendICEServerAddressToMetaverseAPI]: at most one update in flight.
    The optional [api_key] of a temporary domain is not part of the logged
    value. *)
Definition sendICEServerAddressToMetaverseAPI (st : IceState) : IceState :=
  if _sendICEServerAddressToMetaverseAPIInProgress st then set_redo true st
  else
    let st := set_inProgress true st in
    record
      (PutIceServerAddress
         (if negb (_connectedToICEServer st) || sockIsNull (_iceServerSocket st)
          then ZeroAddress
          else AddressString (getAddress (_iceServerSocket st)))) st.

Definition handleSuccessfulICEServerAddressUpdate (st : IceState) : IceState :=
  let st := set_inProgress false st in
  if _sendICEServerAddressToMetaverseAPIRedo st
  then sendICEServerAddressToMetaverseAPI (set_redo false st)
  else st.

Definition handleFailedICEServerAddressUpdate (st : IceState) : IceState :=
  let st := set_inProgress false st in
  if _sendICEServerAddressToMetaverseAPIRedo st
  then sendICEServerAddressToMetaverseAPI (set_redo false st)
  else record RetryAddressUpdateLater st.

(** [updateICEServerAddresses]: start a host lookup unless one is pending. *)
Definition updateICEServerAddresses (st : IceState) : IceState :=
  if lookupPending st then st
  else record LookupHost (set_lookupPending true st).

(** The erase loop of [randomizeICEServerAddress]. *)
Definition candidatesOf (addresses : list (option Z)) (failed : gset (option Z))
    : list (option Z) :=
  filter (λ a, a ∉ failed) addresses.

(** [randomizeICEServerAddress], with the heartbeat routine it calls back
    as a parameter.  [candidateICEAddresses[indexToTry]] on an empty list
    is not defined by the source; the model yields the null address. *)
Definition randomizeICEServerAddressWith
    (sendHeartbeat : IceState → option IceState)
    (shouldTriggerHostLookup : bool) (st : IceState) : option IceState :=
  let st := if shouldTriggerHostLookup then updateICEServerAddresses st else st in
  let candidateICEAddresses :=
    candidatesOf (_iceServerAddresses st) (_failedIceServerAddresses st) in
  let '(candidateICEAddresses, st) :=
    match candidateICEAddresses with
    | [] => (_iceServerAddresses st, set_failedIceServerAddresses ∅ st)
    | _ => (candidateICEAddresses, st)
    end in
  let maxIndex := (Z.of_nat (length candidateICEAddresses) - 1)%Z in
  let '(indexToTry, st) :=
    if 0 <? maxIndex
    then (distribution st (draws st) (Z.to_nat maxIndex), set_draws (S (draws st)) st)
    else (0%nat, st) in
  let st :=
    set_iceServerSocket
      (mkSockAddr (default None (candidateICEAddresses !! indexToTry))
         ICE_SERVER_DEFAULT_PORT) st in
  let st := set_numHeartbeatDenials 0 st in
  st ← sendHeartbeat st;
  Some (sendICEServerAddressToMetaverseAPI st).

Definition FAILOVER_NO_REPLY_ICE_HEARTBEATS : Z := 3.

(** [sendHeartbeatToIceServer].  It and [randomizeICEServerAddress] call
    each other; [fuel] bounds the nesting, and [None] means the bound was
    reached.  The content of the heartbeat packet (session id and sockets,
    signed) does not enter the counters and is not modelled. *)
Fixpoint sendHeartbeatToIceServer (fuel : nat) (st : IceState) : option IceState :=
  match fuel with
  | O => None
  | S fuel =>
      if negb (bool_decide (getAddress (_iceServerSocket st) = None)) then
        if negb (hasPrivateKey st) then
          Some (if negb (isNull (sessionUUID st))
                then record (GenerateNewDomainKeypair (sessionUUID st)) st
                else st)
        else
          let st := set_noReplyICEHeartbeats (_noReplyICEHeartbeats st + 1) st in
          st ← (if FAILOVER_NO_REPLY_ICE_HEARTBEATS <? _noReplyICEHeartbeats st then
                  let st :=
                    set_failedIceServerAddresses
                      (_failedIceServerAddresses st
                       ∪ {[getAddress (_iceServerSocket st)]}) st in
                  let st := set_iceServerSocket clearedSocket st in
                  let st := set_noReplyICEHeartbeats 0 st in
                  let st := set_connectedToICEServer false st in
                  let st := sendICEServerAddressToMetaverseAPI st in
                  randomizeICEServerAddressWith (sendHeartbeatToIceServer fuel) true st
                else Some st);
          Some (record (SentHeartbeat (_iceServerSocket st)) st)
      else Some st
  end.

Definition randomizeICEServerAddress (fuel : nat) :=
  randomizeICEServerAddressWith (sendHeartbeatToIceServer fuel).

Definition NUM_HEARTBEAT_DENIALS_FOR_KEYPAIR_REGEN : Z := 3.

(** [processICEServerHeartbeatDenialPacket] *)
Definition processICEServerHeartbeatDenialPacket (st : IceState) : IceState :=
  let st := set_numHeartbeatDenials (_numHeartbeatDenials st + 1) st in
  let st :=
    if NUM_HEARTBEAT_DENIALS_FOR_KEYPAIR_REGEN <? _numHeartbeatDenials st then
      let st := record (GenerateNewDomainKeypair (sessionUUID st)) st in
      set_numHeartbeatDenials 0 st
    else st in
  set_noReplyICEHeartbeats 0 st.

(** [processICEServerHeartbeatACK] *)
Definition processICEServerHeartbeatACK (st : IceState) : IceState :=
  let st := set_noReplyICEHeartbeats 0 st in
  if negb (_connectedToICEServer st) then
    sendICEServerAddressToMetaverseAPI (set_connectedToICEServer true st)
  else st.

(** The candidate list and failed set [randomizeICEServerAddress] works
    with once [current] has been added to the failed set. *)
Definition failoverCandidates (st : IceState) (current : QHostAddress)
    : list (option Z) * gset (option Z) :=
  let failed := _failedIceServerAddresses st ∪ {[current]} in
  match candidatesOf (_iceServerAddresses st) failed with
  | [] => (_iceServerAddresses st, ∅)
  | c => (c, failed)
  end.

Definition failoverIndex (st : IceState) (candidates : list (option Z)) : nat :=
  if 0 <? Z.of_nat (length candidates) - 1
  then distribution st (draws st) (Z.to_nat (Z.of_nat (length candidates) - 1))
  else 0%nat.

(** The state in which [randomizeICEServerAddress] fires its heartbeat. *)
Definition chosen (st : IceState) : IceState :=
  let st0 := updateICEServerAddresses st in
  let cf :=
    match candidatesOf (_iceServerAddresses st) (_failedIceServerAddresses st) with
    | [] => (_iceServerAddresses st, ∅)
    | c => (c, _failedIceServerAddresses st)
    end in
  let st1 := set_failedIceServerAddresses cf.2 st0 in
  let st2 :=
    if 0 <? Z.of_nat (length cf.1) - 1 then set_draws (S (draws st)) st1 else st1 in
  set_numHeartbeatDenials 0
    (set_iceServerSocket
       (mkSockAddr (default None (cf.1 !! failoverIndex st cf.1))
          ICE_SERVER_DEFAULT_PORT) st2).

(** Three resolved addresses, the first selected and silent for three
    heartbeats; the generator's next draw is 1. *)
Definition silentFirst : IceState :=
  mkIce (mkSockAddr (Some 10) ICE_SERVER_DEFAULT_PORT) [Some 10; Some 20; Some 30] ∅
    3 0 true false false false true 77 (λ _ m, Nat.min 1 m) 0 [].

(** A fresh engine that has been denied nothing yet. *)
Definition undenied : IceState :=
  mkIce (mkSockAddr (Some 10) ICE_SERVER_DEFAULT_PORT) [Some 10] ∅
    0 0 false false false false true 77 (λ _ _, 0%nat) 0 [].

End Ice.

(** ** The metaverse heartbeat error handler *)

Module Metaverse.

Inductive DomainType := NonMetaverse | MetaverseDomain | MetaverseTemporaryDomain.

#[global] Instance DomainType_eq_dec : EqDecision DomainType.
Proof. solve_decision. Defined.

(** [QNetworkReply::NetworkError]: the two codes the handler tells apart
    (401 and 404) and every other one. *)
Inductive NetworkError :=
  | AuthenticationRequiredError
  | ContentNotFoundError
  | OtherNetworkError (code : Z).

Inductive MetaverseEvent :=
  | TimerDeleted
  | TemporaryNameRequested.

Record MetaverseState := mkMetaverse {
  _metaverseHeartbeatTimer : bool;
  _type : DomainType;
  attempt : Z;
  domainIDInSettings : bool;
  metaverseLog : list MetaverseEvent;
}.

Definition MAX_ATTEMPTS : Z := 5.

Definition note (e : MetaverseEvent) (st : MetaverseState) : MetaverseState :=
  mkMetaverse (_metaverseHeartbeatTimer st) (_type st) (attempt st)
    (domainIDInSettings st) (metaverseLog st ++ [e]).

(** [getTemporaryName(force)]: the request goes out unless a domain ID is
    already in the settings and the call is not forced. *)
Definition getTemporaryName (force : bool) (st : MetaverseState) : MetaverseState :=
  if domainIDInSettings st && negb force then st
  else note TemporaryNameRequested st.

(** [handleMetaverseHeartbeatError(requestReply)]; [error] is
    [requestReply.error()].  [attempt] is the function's static counter. *)
Definition handleMetaverseHeartbeatError (error : NetworkError)
    (st : MetaverseState) : MetaverseState :=
  if negb (_metaverseHeartbeatTimer st) then st
  else if decide (_type st = MetaverseTemporaryDomain) then
    match error with
    | OtherNetworkError _ => st
    | AuthenticationRequiredError | ContentNotFoundError =>
        let st := note TimerDeleted st in
        let st :=
          mkMetaverse false (_type st) (attempt st) (domainIDInSettings st)
            (metaverseLog st) in
        let st :=
          mkMetaverse (_metaverseHeartbeatTimer st) (_type st) (attempt st + 1)
            (domainIDInSettings st) (metaverseLog st) in
        if attempt st <? MAX_ATTEMPTS then getTemporaryName true st else st
    end
  else st.

(** [setupHeartbeatToMetaverse], which [handleTempDomainSuccess] calls
    once a new temporary name has arrived: a timer is started when none is
    running. *)
Definition setupHeartbeatToMetaverse (st : MetaverseState) : MetaverseState :=
  if negb (_metaverseHeartbeatTimer st)
  then mkMetaverse true (_type st) (attempt st) (domainIDInSettings st)
         (metaverseLog st)
  else st.

Definition isNameLoss (error : NetworkError) : Prop :=
  error = AuthenticationRequiredError ∨ error = ContentNotFoundError.

(** A temporary domain right after start, its heartbeat timer running. *)
Definition temporaryStart : MetaverseState :=
  mkMetaverse true MetaverseTemporaryDomain 0 true [].

(** The same domain once a first 404 has been handled: the timer is
    stopped and the new temporary name has not arrived yet. *)
Definition awaitingName : MetaverseState :=
  handleMetaverseHeartbeatError ContentNotFoundError temporaryStart.

(** [n] errors 404 arriving one after the other, the heartbeat set up
    again after each. *)
Fixpoint nameLosses (n : nat) (st : MetaverseState) : MetaverseState :=
  match n with
  | O => st
  | S n =>
      nameLosses n
        (setupHeartbeatToMetaverse
           (handleMetaverseHeartbeatError ContentNotFoundError st))
  end.

End Metaverse.

(** ** The authentication gate of the HTTP surface *)

Module Http.

Inductive Operation :=
  | GetOperation | PostOperation | PutOperation | DeleteOperation | HeadOperation.

#[global] Instance Operation_eq_dec : EqDecision Operation.
Proof. solve_decision. Defined.

(** What the handlers read from the connection and the URL. *)
Record HTTPConnection := mkConnection {
  requestOperation : Operation;
  path : string;
  cookieHeader : string;
  requestedWithHeader : string;
  authorizationHeader : string;
  codeQueryItem : string;
  stateQueryItem : QUuid;
}.

(** Library calls whose results the handlers branch on:
    - [assignmentRegexCapture p]: the UUID captured when [assignmentRegex]
      matches the path [p];
    - [cookieUUIDCapture c]: the session UUID captured from the Cookie
      header, null without a match;
    - [decodeBasicAuth h]: user name and password of an Authorization
      header that splits in two at the space, decodes from base 64 to a
      non-empty string and splits in two at the colon;
    - [sha256Hex]: the hexadecimal SHA-256 digest;
    - [oauthAuthorizationURL]: the provider's authorization URL for a
      state. *)
Record Library := mkLibrary {
  assignmentRegexCapture : string → option QUuid;
  cookieUUIDCapture : string → QUuid;
  decodeBasicAuth : string → option (string * string);
  sha256Hex : string → string;
  oauthAuthorizationURL : QUuid → string;
  uuidStringWithoutCurlyBraces : QUuid → string;
}.

Record DomainServerWebSessionData := mkSession {
  getUsername : string;
  getRoles : list string;
}.

Inductive Header :=
  | Location (url : string)
  | WWWAuthenticate.

Record Response := mkResponse {
  statusCode : Z;
  body : string;
  headers : list Header;
}.

Inductive HttpEvent :=
  | Responded (r : Response)
  | TokenRequested (stateUUID : QUuid).

Record HttpState := mkHttp {
  _oauthProviderURL : string;
  adminUsers : option (list string);
  adminRoles : option (list string);
  httpUsername : option string;
  httpPassword : option string;
  _cookieSessionHash : gmap Z DomainServerWebSessionData;
  _webAuthenticationStateSet : gset Z;
  nodeAssignmentUUIDs : gmap Z (option Z);
  _allAssignments : gmap Z (Z * AssignmentType);
  _ephemeralACScripts : gmap Z string;
  sessionUUID : QUuid;
  lib : Library;
  uuidSource : nat → QUuid;
  uuidsDrawn : nat;
  httpLog : list HttpEvent;
}.

Definition respond (r : Response) (st : HttpState) : HttpState :=
  mkHttp (_oauthProviderURL st) (adminUsers st) (adminRoles st) (httpUsername st)
    (httpPassword st) (_cookieSessionHash st) (_webAuthenticationStateSet st)
    (nodeAssignmentUUIDs st) (_allAssignments st) (_ephemeralACScripts st)
    (sessionUUID st) (lib st) (uuidSource st) (uuidsDrawn st)
    (httpLog st ++ [Responded r]).

Definition requestToken (stateUUID : QUuid) (st : HttpState) : HttpState :=
  mkHttp (_oauthProviderURL st) (adminUsers st) (adminRoles st) (httpUsername st)
    (httpPassword st) (_cookieSessionHash st) (_webAuthenticationStateSet st)
    (nodeAssignmentUUIDs st) (_allAssignments st) (_ephemeralACScripts st)
    (sessionUUID st) (lib st) (uuidSource st) (uuidsDrawn st)
    (httpLog st ++ [TokenRequested stateUUID]).

Definition set_webAuthenticationStateSet (s : gset Z) (st : HttpState) : HttpState :=
  mkHttp (_oauthProviderURL st) (adminUsers st) (adminRoles st) (httpUsername st)
    (httpPassword st) (_cookieSessionHash st) s
    (nodeAssignmentUUIDs st) (_allAssignments st) (_ephemeralACScripts st)
    (sessionUUID st) (lib st) (uuidSource st) (uuidsDrawn st) (httpLog st).

Definition createUuid (st : HttpState) : QUuid * HttpState :=
  (uuidSource st (uuidsDrawn st),
   mkHttp (_oauthProviderURL st) (adminUsers st) (adminRoles st) (httpUsername st)
     (httpPassword st) (_cookieSessionHash st) (_webAuthenticationStateSet st)
     (nodeAssignmentUUIDs st) (_allAssignments st) (_ephemeralACScripts st)
     (sessionUUID st) (lib st) (uuidSource st) (S (uuidsDrawn st)) (httpLog st)).

Definition StatusCode200 : Z := 200.
Definition StatusCode302 : Z := 302.
Definition StatusCode400 : Z := 400.
Definition StatusCode401 : Z := 401.
Definition StatusCode404 : Z := 404.

Definition UNAUTHENTICATED_BODY : string :=
  "You do not have permission to access this domain-server.".

Definition XML_REQUESTED_WITH : string := "XMLHttpRequest".

Definition strEmpty (s : string) : bool := bool_decide (s = "").

(** [isAuthenticatedRequest(connection, url)] *)
Definition isAuthenticatedRequest (connection : HTTPConnection)
    (st : HttpState) : bool * HttpState :=
  if negb (strEmpty (_oauthProviderURL st))
     && (bool_decide (is_Some (adminUsers st))
         || bool_decide (is_Some (adminRoles st)))
  then
    let cookieUUID := cookieUUIDCapture (lib st) (cookieHeader connection) in
    match (if negb (isNull cookieUUID)
           then _cookieSessionHash st !! cookieUUID else None) with
    | Some sessionData =>
        let profileUsername := getUsername sessionData in
        if bool_decide (profileUsername ∈ default [] (adminUsers st)) then (true, st)
        else
          let adminRolesArray := default [] (adminRoles st) in
          if negb (bool_decide (adminRolesArray = []))
             && existsb (λ userRole, bool_decide (userRole ∈ adminRolesArray))
                  (getRoles sessionData)
          then (true, st)
          else (false, respond (mkResponse StatusCode401 UNAUTHENTICATED_BODY []) st)
    | None =>
        if bool_decide (requestedWithHeader connection = XML_REQUESTED_WITH) then
          (false, respond (mkResponse StatusCode401 UNAUTHENTICATED_BODY []) st)
        else
          let '(stateUUID, st) := createUuid st in
          let st :=
            set_webAuthenticationStateSet
              (_webAuthenticationStateSet st ∪ {[stateUUID]}) st in
          (false,
           respond
             (mkResponse StatusCode302 ""
                [Location (oauthAuthorizationURL (lib st) stateUUID)]) st)
    end
  else if bool_decide (is_Some (httpUsername st)) then
    let basicAuthString := authorizationHeader connection in
    let credentials :=
      if negb (strEmpty basicAuthString)
      then decodeBasicAuth (lib st) basicAuthString else None in
    let matched :=
      match credentials with
      | Some (headerUsername, headerPassword) =>
          let settingsUsername := default "" (httpUsername st) in
          let settingsPassword := default "" (httpPassword st) in
          let hexHeaderPassword :=
            if strEmpty headerPassword then ""
            else sha256Hex (lib st) headerPassword in
          bool_decide (settingsUsername = headerUsername)
          && bool_decide (hexHeaderPassword = settingsPassword)
      | None => false
      end in
    if matched then (true, st)
    else
      (false,
       respond (mkResponse StatusCode401 UNAUTHENTICATED_BODY [WWWAuthenticate]) st)
  else (true, st).

(** How [handleHTTPRequest] ends: [return false], [return true] after a
    response, or control reaching the routes behind the gate (the wizard
    redirect and the route table, which this model does not follow). *)
Inductive Outcome := NotHandled | Handled | ReachedRoutes.

Definition URI_ID : string := "/id".
Definition URI_OAUTH : string := "/oauth".

(** [handleHTTPRequest(connection, url)] up to the authentication gate. *)
Definition handleHTTPRequest (connection : HTTPConnection)
    (st : HttpState) : Outcome * HttpState :=
  match (if decide (requestOperation connection = GetOperation)
         then assignmentRegexCapture (lib st) (path connection) else None) with
  | Some nodeUUID =>
      match nodeAssignmentUUIDs st !! nodeUUID with
      | None => (NotHandled, st)
      | Some None => (NotHandled, st)
      | Some (Some assignmentUUID) =>
          match _allAssignments st !! assignmentUUID with
          | Some (matchingUUID, AgentType) =>
              match _ephemeralACScripts st !! matchingUUID with
              | Some script =>
                  (Handled, respond (mkResponse StatusCode200 script []) st)
              | None =>
                  (Handled,
                   respond (mkResponse StatusCode404 "Resource not found." []) st)
              end
          | _ => (NotHandled, st)
          end
      end
  | None =>
      if bool_decide (requestOperation connection = GetOperation)
         && bool_decide (path connection = URI_ID)
      then
        (Handled,
         respond
           (mkResponse StatusCode200
              (uuidStringWithoutCurlyBraces (lib st) (sessionUUID st)) []) st)
      else
        let '(authenticated, st) := isAuthenticatedRequest connection st in
        if negb authenticated then (Handled, st)
        else (ReachedRoutes, st)
  end.

(** [handleHTTPSRequest(connection, url)]: the OAuth callback. *)
Definition handleHTTPSRequest (connection : HTTPConnection)
    (st : HttpState) : Outcome * HttpState :=
  if bool_decide (path connection = URI_OAUTH) then
    let authorizationCode := codeQueryItem connection in
    let stateUUID := stateQueryItem connection in
    if negb (strEmpty authorizationCode) && negb (isNull stateUUID)
       && bool_decide (stateUUID ∈ _webAuthenticationStateSet st)
    then
      (Handled,
       requestToken stateUUID
         (set_webAuthenticationStateSet
            (_webAuthenticationStateSet st ∖ {[stateUUID]}) st))
    else (Handled, respond (mkResponse StatusCode400 "" []) st)
  else (NotHandled, st).

(** The request is for the script of an assigned agent. *)
Definition isScriptRequest (connection : HTTPConnection) (st : HttpState) : Prop :=
  requestOperation connection = GetOperation
  ∧ is_Some (assignmentRegexCapture (lib st) (path connection)).

Definition isIdRequest (connection : HTTPConnection) : Prop :=
  requestOperation connection = GetOperation ∧ path connection = URI_ID.

(** A server with HTTP Basic configured, holding the script of the agent
    node 7, whose assignment is stored under UUID 9. *)
Definition scriptPath : string := "/assignment/00000000-0000-0000-0000-000000000007".

Definition plainLibrary : Library :=
  mkLibrary (λ p, if decide (p = scriptPath) then Some 7 else None)
    (λ _, 0) (λ _, None) (λ s, s) (λ _, "") (λ _, "").

Definition guardedServer : HttpState :=
  mkHttp "" None None (Some "admin") (Some "digest") ∅ ∅
    {[7 := Some 9]} {[9 := (9, AgentType)]} {[9 := "Script.update.connect();"]}
    1 plainLibrary (λ n, Z.of_nat n + 1) 0 [].

Definition scriptGet : HTTPConnection :=
  mkConnection GetOperation scriptPath "" "" "" "" 0.

Definition nodesGet : HTTPConnection :=
  mkConnection GetOperation "/nodes.json" "" "" "" "" 0.

End Http.

(** ** The replacement entities file *)

Module Entities.

(** [OctreeUtils::RawEntityData]: the header and the rest of the document. *)
Record RawEntityData := mkRawEntityData {
  id : QUuid;
  version : Z;
  octreeData : string;
}.

(** The two files, what the file system will answer to the calls made on
    them, and the codec.  [readOctreeDataInfo] is the parse of a file's
    content ([None]: it does not parse), [toGzippedByteArray] the
    serialisation. *)
Record EntitiesState := mkEntities {
  entitiesFile : option string;
  replacementFile : option string;
  replacementRemovable : bool;
  entitiesWritable : bool;
  readOctreeDataInfo : string → option RawEntityData;
  toGzippedByteArray : RawEntityData → string;
  uuidSource : nat → QUuid;
  uuidsDrawn : nat;
}.

Definition INITIAL_VERSION : Z := 0.

(** [data.readOctreeDataInfoFromFile(path)]: a missing file does not read. *)
Definition readOctreeDataInfoFromFile (file : option string)
    (st : EntitiesState) : option RawEntityData :=
  content ← file; readOctreeDataInfo st content.

(** Modelled from the spec: [RawEntityData::resetIdAndVersion] is not part
    of the sources at hand; the spec has it rewrite [id] and [version] to a
    fresh value. *)
Definition resetIdAndVersion (fresh : QUuid) (data : RawEntityData) : RawEntityData :=
  mkRawEntityData fresh INITIAL_VERSION (octreeData data).

(** [maybeHandleReplacementEntityFile] *)
Definition maybeHandleReplacementEntityFile (st : EntitiesState) : EntitiesState :=
  match readOctreeDataInfoFromFile (replacementFile st) st with
  | None => st
  | Some data =>
      if negb (replacementRemovable st) then st
      else
        let fresh := uuidSource st (uuidsDrawn st) in
        let data := resetIdAndVersion fresh data in
        let gzippedData := toGzippedByteArray st data in
        mkEntities
          (if entitiesWritable st then Some gzippedData else entitiesFile st)
          None (replacementRemovable st) (entitiesWritable st)
          (readOctreeDataInfo st) (toGzippedByteArray st)
          (uuidSource st) (S (uuidsDrawn st))
  end.

(** A codec for examples: a document is "id,version,data" rendered as the
    data alone, and every non-empty content parses. *)
Definition exampleRead (content : string) : option RawEntityData :=
  if bool_decide (content = "") then None
  else Some (mkRawEntityData 5 12 content).

Definition exampleGzip (data : RawEntityData) : string :=
  (octreeData data ++ "!")%string.

(** A valid replacement waits, it can be deleted, but the authoritative
    file cannot be opened for writing. *)
Definition readOnlyEntities : EntitiesState :=
  mkEntities (Some "old scene") (Some "new scene") true false
    exampleRead exampleGzip (λ n, Z.of_nat n + 1) 0.

Definition writableEntities : EntitiesState :=
  mkEntities (Some "old scene") (Some "new scene") true true
    exampleRead exampleGzip (λ n, Z.of_nat n + 1) 0.

End Entities.

(** ** Membership fan-out, seen from the packets *)

Module Fanout.
Import Registry.

(** The test of the [eachNode] lambda of [sendDomainListToNode], on the
    nodes the two UUIDs name. *)
Definition inDomainListOf (ds : DomainServer) (node otherNode : QUuid) : bool :=
  match _nodeHash ds !! node, _nodeHash ds !! otherNode with
  | Some n, Some other => bool_decide (otherNode ≠ node) && isInInterestSet n other
  | _, _ => false
  end.

(** The predicate [broadcastNewNode] hands to [eachMatchingNode]. *)
Definition hearsOfAddedNode (ds : DomainServer) (addedNode node : QUuid) : bool :=
  match _nodeHash ds !! node, _nodeHash ds !! addedNode with
  | Some n, Some added =>
      bool_decide (is_Some (getLinkedData n)) && getActiveSocket n
      && bool_decide (node ≠ addedNode) && isInInterestSet n added
  | _, _ => false
  end.

(** The secret of a packet is the one both nodes hold. *)
Definition sharedSecret (ds : DomainServer) (a b s : QUuid) : Prop :=
  s ≠ 0 ∧ secretFor a b ds = Some s ∧ secretFor b a ds = Some s.




(** Three queued assignments: two audio mixers around an avatar mixer. *)
Definition threeObjects (p : nat) : Assignment :=
  match p with
  | 1%nat => mkAssignment 101 AvatarMixerType "" "" true 0 ""
  | 2%nat => mkAssignment 102 AudioMixerType "" "" true 0 ""
  | _ => mkAssignment 100 AudioMixerType "" "" true 0 ""
  end.

Definition threeQueued : DomainServer :=
  mkDomainServer ∅ {[100 := 0%nat; 101 := 1%nat; 102 := 2%nat]}
    [0%nat; 1%nat; 2%nat] threeObjects ∅ ∅ [mkSubnet 2130706433 32]
    (λ n, Z.of_nat n + 200) 0 [].

End Fanout.

(** ** The ICE host lookup and the answered heartbeat *)

Module IceLookup.
Import Ice.

(** [QAbstractSocket::NetworkLayerProtocol] *)
Inductive NetworkLayerProtocol :=
  | IPv4Protocol | IPv6Protocol | AnyIPProtocol | UnknownNetworkLayerProtocol.

#[global] Instance NetworkLayerProtocol_eq_dec : EqDecision NetworkLayerProtocol.
Proof. solve_decision. Defined.

(** An address of the lookup result, with the protocol [protocol()]
    reports for it. *)
Record ResolvedAddress := mkResolved {
  hostAddress : QHostAddress;
  protocol : NetworkLayerProtocol;
}.

(** [QHostInfo::HostInfoError] *)
Inductive HostInfoError := NoError | HostNotFound | UnknownError.

#[global] Instance HostInfoError_eq_dec : EqDecision HostInfoError.
Proof. solve_decision. Defined.

Record QHostInfo := mkHostInfo {
  addresses : list ResolvedAddress;
  error : HostInfoError;
}.

Definition set_iceServerAddresses (a : list (option Z)) (st : IceState) : IceState :=
  mkIce (_iceServerSocket st) a (_failedIceServerAddresses st)
    (_noReplyICEHeartbeats st) (_numHeartbeatDenials st) (_connectedToICEServer st)
    (_sendICEServerAddressToMetaverseAPIInProgress st)
    (_sendICEServerAddressToMetaverseAPIRedo st) (lookupPending st)
    (hasPrivateKey st) (sessionUUID st) (distribution st) (draws st) (iceLog st).

(** The test of the erase loop of [handleICEHostInfo]. *)
Definition isValidIPv4 (a : ResolvedAddress) : bool :=
  negb (bool_decide (hostAddress a = None))
  && bool_decide (protocol a = IPv4Protocol).

(** [handleICEHostInfo(hostInfo)].  The second component of the result
    tells whether the single-shot timer for [updateICEServerAddresses] was
    armed.  [fuel] bounds the nesting of the heartbeat the selection fires. *)
Definition handleICEHostInfo (fuel : nat) (hostInfo : QHostInfo)
    (st : IceState) : option (IceState * bool) :=
  let st := set_lookupPending false st in
  let sanitizedAddresses :=
    filter (λ a, isValidIPv4 a = true) (addresses hostInfo) in
  if negb (bool_decide (error hostInfo = NoError))
     || bool_decide (sanitizedAddresses = [])
  then Some (st, sockIsNull (_iceServerSocket st))
  else
    let st := set_iceServerAddresses (hostAddress <$> sanitizedAddresses) st in
    if sockIsNull (_iceServerSocket st) then
      st ← randomizeICEServerAddress fuel false st; Some (st, false)
    else Some (st, false).

(** The state in which [randomizeICEServerAddress] fires its heartbeat
    when it has not been asked to trigger a host lookup. *)
Definition selected (st : IceState) : IceState :=
  let cf :=
    match candidatesOf (_iceServerAddresses st) (_failedIceServerAddresses st) with
    | [] => (_iceServerAddresses st, ∅)
    | c => (c, _failedIceServerAddresses st)
    end in
  let st1 := set_failedIceServerAddresses cf.2 st in
  let st2 :=
    if 0 <? Z.of_nat (length cf.1) - 1 then set_draws (S (draws st)) st1 else st1 in
  set_numHeartbeatDenials 0
    (set_iceServerSocket
       (mkSockAddr (default None (cf.1 !! failoverIndex st cf.1))
          ICE_SERVER_DEFAULT_PORT) st2).

(** The state in which [sendHeartbeatToIceServer] calls
    [randomizeICEServerAddress] once it has given up the server at
    [current]. *)
Definition abandoned (st : IceState) (current : Z) : IceState :=
  sendICEServerAddressToMetaverseAPI
    (set_connectedToICEServer false
       (set_noReplyICEHeartbeats 0
          (set_iceServerSocket clearedSocket
             (set_failedIceServerAddresses
                (_failedIceServerAddresses st ∪ {[Some current]})
                (set_noReplyICEHeartbeats (_noReplyICEHeartbeats st + 1) st))))).

(** The addresses [handleICEHostInfo] keeps of a lookup result. *)
Definition sanitized (hostInfo : QHostInfo) : list (option Z) :=
  hostAddress <$> filter (λ a, isValidIPv4 a = true) (addresses hostInfo).

(** The replies of an ICE server to a heartbeat. *)
Inductive IceReply := ICEServerHeartbeatACK | ICEServerHeartbeatDenied.

Definition processReply (reply : IceReply) (st : IceState) : IceState :=
  match reply with
  | ICEServerHeartbeatACK => processICEServerHeartbeatACK st
  | ICEServerHeartbeatDenied => processICEServerHeartbeatDenialPacket st
  end.

Definition set_hasPrivateKey (b : bool) (st : IceState) : IceState :=
  mkIce (_iceServerSocket st) (_iceServerAddresses st) (_failedIceServerAddresses st)
    (_noReplyICEHeartbeats st) (_numHeartbeatDenials st) (_connectedToICEServer st)
    (_sendICEServerAddressToMetaverseAPIInProgress st)
    (_sendICEServerAddressToMetaverseAPIRedo st) (lookupPending st)
    b (sessionUUID st) (distribution st) (draws st) (iceLog st).

(** [handleKeypairChange].  [heartbeatPacket] tells whether
    [_iceServerHeartbeatPacket] exists, which [sendHeartbeatToIceServer]
    creates before its first send and which this state does not hold; the
    reset of its payload makes the next heartbeat sign anew and touches
    nothing of this state. *)
Definition handleKeypairChange (fuel : nat) (heartbeatPacket : bool)
    (st : IceState) : option IceState :=
  if heartbeatPacket then sendHeartbeatToIceServer fuel st else Some st.

(** The two calls that make the engine send a heartbeat while a server is
    selected: the heartbeat timer and the signal of a new keypair. *)
Inductive Trigger :=
  | HeartbeatTimer
  | NewKeypair (heartbeatPacket : bool).

(** One call in a run: whether the account manager holds a private key
    when the call is made (the account manager is outside the sources at
    hand; nothing is assumed of the key while a keypair that was asked for
    is being generated), the call, and the reply of the ICE server to the
    heartbeat, should one go out. *)
Record Call := mkCall {
  keyAtHand : bool;
  trigger : Trigger;
  reply : IceReply;
}.

Definition fire (fuel : nat) (t : Trigger) (st : IceState) : option IceState :=
  match t with
  | HeartbeatTimer => sendHeartbeatToIceServer fuel st
  | NewKeypair heartbeatPacket => handleKeypairChange fuel heartbeatPacket st
  end.

(** Whether a call gets as far as sending: the key is at hand and, for a
    new keypair, the heartbeat packet exists. *)
Definition sends (c : Call) : bool :=
  keyAtHand c
  && match trigger c with
     | HeartbeatTimer => true
     | NewKeypair heartbeatPacket => heartbeatPacket
     end.

(** A run of calls in which every heartbeat that goes out is answered
    before the next call: a heartbeat goes out when a server is selected
    and the call gets as far as sending. *)
Fixpoint answeredHeartbeats (fuel : nat) (calls : list Call)
    (st : IceState) : option IceState :=
  match calls with
  | [] => Some st
  | c :: calls =>
      let st := set_hasPrivateKey (keyAtHand c) st in
      let goesOut :=
        negb (bool_decide (getAddress (_iceServerSocket st) = None)) && sends c in
      st ← fire fuel (trigger c) st;
      answeredHeartbeats fuel calls
        (if goesOut then processReply (reply c) st else st)
  end.

(** The destinations of the heartbeats of a log, and the address updates
    put to the metaverse. *)
Definition heartbeatsOf (log : list IceEvent) : list HifiSockAddr :=
  omap (λ e, match e with SentHeartbeat to => Some to | _ => None end) log.

Definition updatesOf (log : list IceEvent) : list IceAddressValue :=
  omap (λ e, match e with PutIceServerAddress v => Some v | _ => None end) log.

(** The value [sendICEServerAddressToMetaverseAPI] puts for a state. *)
Definition addressValue (st : IceState) : IceAddressValue :=
  if negb (_connectedToICEServer st) || sockIsNull (_iceServerSocket st)
  then ZeroAddress
  else AddressString (getAddress (_iceServerSocket st)).

(** The two ways an address update completes. *)
Inductive Completion := Succeeded | Failed.

Definition complete (c : Completion) (st : IceState) : IceState :=
  match c with
  | Succeeded => handleSuccessfulICEServerAddressUpdate st
  | Failed => handleFailedICEServerAddressUpdate st
  end.

(** An engine connected to the server at 10, an address update in flight. *)
Definition updateInFlight : IceState :=
  mkIce (mkSockAddr (Some 10) ICE_SERVER_DEFAULT_PORT) [Some 10; Some 20] ∅
    0 0 true true false false true 77 (λ _ m, Nat.min 1 m) 0
    [PutIceServerAddress ZeroAddress].

(** Four denials in a row, the fourth of which asks for a new keypair;
    the next tick finds no key at hand, and the signal of the new keypair
    and a last tick are acknowledged. *)
Definition deniedThenRekeyed : list Call :=
  [mkCall true HeartbeatTimer ICEServerHeartbeatDenied;
   mkCall true HeartbeatTimer ICEServerHeartbeatDenied;
   mkCall true HeartbeatTimer ICEServerHeartbeatDenied;
   mkCall true HeartbeatTimer ICEServerHeartbeatDenied;
   mkCall false HeartbeatTimer ICEServerHeartbeatACK;
   mkCall true (NewKeypair true) ICEServerHeartbeatACK;
   mkCall true HeartbeatTimer ICEServerHeartbeatACK].

(** An engine that waits for its first lookup. *)
Definition awaitingLookup : IceState :=
  mkIce clearedSocket [] ∅ 0 0 false false false true true 77
    (λ _ m, Nat.min 1 m) 0 [LookupHost].

Definition mixedLookup : QHostInfo :=
  mkHostInfo
    [mkResolved None UnknownNetworkLayerProtocol;
     mkResolved (Some 6) IPv6Protocol;
     mkResolved (Some 10) IPv4Protocol;
     mkResolved (Some 20) IPv4Protocol] NoError.

End IceLookup.

(** ** Departures *)

Module Departure.
Import Registry.

(** One visit of [eachMatchingNode] in [handleKillNode]: predicate, then
    functor.  [nodeToKill] is the node object the caller's pointer keeps
    alive after it has left the hash. *)
Definition removedNodeVisit (nodeUUID : QUuid) (nodeToKill : Node)
    (ds : DomainServer) (otherNode : QUuid) : DomainServer :=
  match _nodeHash ds !! otherNode with
  | Some other =>
      if isInInterestSet other nodeToKill
      then emit (DomainServerRemovedNode otherNode nodeUUID) ds
      else ds
  | None => ds
  end.

(** [handleKillNode(nodeToKill)]; [nodeUUID] is [nodeToKill->getUUID()]. *)
Definition handleKillNode (nodeUUID : QUuid) (nodeToKill : Node)
    (ds : DomainServer) : DomainServer :=
  let ds := killNodeWithUUID nodeUUID ds in
  foldl (removedNodeVisit nodeUUID nodeToKill) ds (liveUUIDs ds).

(** [processNodeDisconnectRequestPacket(message)]: [sourceNode] is the
    UUID of the node [nodeWithLocalID] finds for the message's source ID,
    if it finds one. *)
Definition processNodeDisconnectRequestPacket (sourceNode : option QUuid)
    (ds : DomainServer) : DomainServer :=
  match sourceNode with
  | Some nodeUUID =>
      match _nodeHash ds !! nodeUUID with
      | Some nodeToKill => handleKillNode nodeUUID nodeToKill ds
      | None => ds
      end
  | None => ds
  end.

(** The predicate [handleKillNode] hands to [eachMatchingNode]. *)
Definition hearsOfRemovedNode (ds : DomainServer) (nodeToKill : Node)
    (otherNode : QUuid) : bool :=
  match _nodeHash ds !! otherNode with
  | Some other => isInInterestSet other nodeToKill
  | None => false
  end.

(** An agent (1) that listens to audio mixers, an audio mixer (2) that
    listens to agents, and an asset server (4) that listens to nobody. *)
Definition threeNodes : DomainServer :=
  runOps (emptyServer (λ n, Z.of_nat n + 1))
    [OpAdd 1 Agent; OpAdd 2 AudioMixer; OpAdd 4 AssetServer;
     OpListRequest [AudioMixer] 1; OpListRequest [Agent] 2].

End Departure.

(** ** The assignment queue at start-up and at a worker's connection *)

Module Queue.
Import Registry.

(** The test of the loop body of [dequeueMatchingAssignment]. *)
Definition isMatchingAssignment (wantedType : AssignmentType)
    (assignmentUUID : QUuid) (assignment : Assignment) : bool :=
  bool_decide (a_type assignment = wantedType)
  && (a_uuid assignment =? assignmentUUID).

(** The [while] loop of [dequeueMatchingAssignment]: [pos] is the
    iterator's offset from [begin()]. *)
Fixpoint findMatchingAssignment (deref : nat → Assignment)
    (wantedType : AssignmentType) (assignmentUUID : QUuid)
    (rest : list nat) (pos : nat) : option (nat * nat) :=
  match rest with
  | [] => None
  | i :: rest' =>
      if isMatchingAssignment wantedType assignmentUUID (deref i)
      then Some (pos, i)
      else findMatchingAssignment deref wantedType assignmentUUID rest' (S pos)
  end.

(** [dequeueMatchingAssignment(assignmentUUID, nodeType)].
    [typeForNodeType] is [Assignment::typeForNodeType], a library call. *)
Definition dequeueMatchingAssignment
    (typeForNodeType : NodeType_t → AssignmentType)
    (assignmentUUID : QUuid) (nodeType : NodeType_t)
    (ds : DomainServer) : option AssignmentPtr * DomainServer :=
  match findMatchingAssignment (assignmentObjects ds) (typeForNodeType nodeType)
          assignmentUUID (_unfulfilledAssignments ds) 0 with
  | Some (i, p) =>
      (Some p, set_unfulfilledAssignments (delete i (_unfulfilledAssignments ds)) ds)
  | None => (None, ds)
  end.

(** The comparison [addStaticAssignmentsToQueue] hands to [qSort];
    [typeLess] is [<] on [Assignment::Type]. *)
Definition sortsBefore (typeLess : AssignmentType → AssignmentType → bool)
    (deref : nat → Assignment) (a b : AssignmentPtr) : bool :=
  if bool_decide (a_type (deref a) = a_type (deref b)) then true
  else if negb (bool_decide (a_type (deref a) = AgentType))
          && negb (bool_decide (a_type (deref b) = AgentType))
  then typeLess (a_type (deref a)) (a_type (deref b))
  else negb (bool_decide (a_type (deref a) = AgentType)).

(** One round of the [while] loop of [addStaticAssignmentsToQueue]. *)
Definition addStaticVisit (ds : DomainServer) (staticAssignment : AssignmentPtr)
    : DomainServer :=
  match _nodeHash ds !! a_uuid (assignmentObjects ds staticAssignment) with
  | None => refreshStaticAssignmentAndAddToQueue staticAssignment ds
  | Some _ => ds
  end.

(** [addStaticAssignmentsToQueue].  [qSort] is Qt's sort, a library call
    that takes the comparison; [_allAssignments.values()] lists the values
    in the order of the hash. *)
Definition addStaticAssignmentsToQueue
    (qSort : (AssignmentPtr → AssignmentPtr → bool) →
             list AssignmentPtr → list AssignmentPtr)
    (typeLess : AssignmentType → AssignmentType → bool)
    (ds : DomainServer) : DomainServer :=
  let sharedAssignments :=
    qSort (sortsBefore typeLess (assignmentObjects ds))
      (map_to_list (_allAssignments ds)).*2 in
  foldl addStaticVisit ds sharedAssignments.

(** The queued assignments bear different UUIDs. *)
Definition distinctUUIDs (ds : DomainServer) : Prop :=
  NoDup ((λ p, a_uuid (assignmentObjects ds p)) <$> _unfulfilledAssignments ds).

(** The assignments [addStaticAssignmentsToQueue] finds no node for. *)
Definition unmatched (ds : DomainServer) (sharedAssignments : list AssignmentPtr)
    : list AssignmentPtr :=
  filter (λ p, _nodeHash ds !! a_uuid (assignmentObjects ds p) = None)
    sharedAssignments.

(** [Assignment::typeForNodeType] on the types of the examples. *)
Definition exampleTypeForNodeType (nodeType : NodeType_t) : AssignmentType :=
  match nodeType with
  | AudioMixer => AudioMixerType
  | AvatarMixer => AvatarMixerType
  | Agent => AgentType
  | AssetServer => AssetServerType
  | MessagesMixer => MessagesMixerType
  | EntityScriptServer => EntityScriptServerType
  | EntityServer => EntityServerType
  | _ => AllTypes
  end.

(** A server that restarts with two indexed assignments; a node is live
    under the UUID of the second. *)
Definition restarted : DomainServer :=
  mkDomainServer {[101 := mkNode AudioMixer None true]}
    {[100 := 0%nat; 101 := 1%nat]} [] mixerObjects ∅ ∅
    [mkSubnet 2130706433 32] (λ n, Z.of_nat n + 200) 0 [].

End Queue.

(** ** Path queries *)

Module PathQuery.

(** Byte arrays and [QString]s are kept apart by the two conversions
    between them, which are library calls:
    - [fromUtf8 bytes]: [QString::fromUtf8];
    - [toUtf8 s]: [QString::toUtf8];
    [SETTINGS_PATHS_KEY] is the settings key of the paths, and
    [viewpointForKeyPath keypath] what the settings hold at a key path:
    [None] when [valueForKeyPath] returns no valid value, and otherwise the
    string the value's map has under the key "viewpoint" (empty when it
    has none). *)
Record Library := mkLibrary {
  fromUtf8 : string → string;
  toUtf8 : string → string;
  SETTINGS_PATHS_KEY : string;
  viewpointForKeyPath : string → option string;
}.

(** The response packet, as the fields written to it in order. *)
Record DomainServerPathResponse := mkPathResponse {
  destination : Z;
  writtenPathBytes : Z;
  writtenPath : string;
  writtenViewpointBytes : Z;
  writtenViewpoint : string;
}.

(** [pathQuery.startsWith("/")] *)
Definition startsWithSlash (s : string) : bool := String.prefix "/" s.

Definition INDEX_PATH : string := "/".
Definition DEFAULT_INDEX_PATH : string := "/0,0,0/0,0,0,1".

(** [QByteArray::left]: the first [n] bytes. *)
Fixpoint left (n : nat) (bytes : string) : string :=
  match n, bytes with
  | S n, String c rest => String c (left n rest)
  | _, _ => ""%string
  end.

Definition size (bytes : string) : Z := Z.of_nat (String.length bytes).

(** [processPathQueryPacket(message)].  [numPathBytes] is the [quint16]
    read first, [payload] the bytes of the message from there on,
    [bytesAvailableForWrite] what a new response packet has room for and
    [senderSockAddr] the sender.  The result is the packet sent, if one
    is. *)
Definition processPathQueryPacket (lib : Library) (numPathBytes : Z)
    (payload : string) (bytesAvailableForWrite : Z) (senderSockAddr : Z)
    : option DomainServerPathResponse :=
  if numPathBytes <=? size payload then
    let pathQuery := fromUtf8 lib (left (Z.to_nat numPathBytes) payload) in
    let pathQuery :=
      if negb (startsWithSlash pathQuery) then ("/" ++ pathQuery)%string
      else pathQuery in
    let keypath := (SETTINGS_PATHS_KEY lib ++ "." ++ pathQuery)%string in
    let pathMatch := viewpointForKeyPath lib keypath in
    if bool_decide (is_Some pathMatch) || bool_decide (pathQuery = INDEX_PATH) then
      let responseViewpoint := default DEFAULT_INDEX_PATH pathMatch in
      if negb (bool_decide (responseViewpoint = ""%string)) then
        let viewpointUTF8 := toUtf8 lib responseViewpoint in
        let numViewpointBytes := size viewpointUTF8 mod 2 ^ 16 in
        if numPathBytes + numViewpointBytes + 2 + 2
           <? bytesAvailableForWrite mod 2 ^ 64
        then
          Some (mkPathResponse senderSockAddr numPathBytes
                  (toUtf8 lib pathQuery) numViewpointBytes viewpointUTF8)
        else None
      else None
    else None
  else None.

(** The query spelled with its leading slash. *)
Definition slashed (q : string) : string :=
  if startsWithSlash q then q else ("/" ++ q)%string.

(** A codec that leaves the bytes of a query as they are, as UTF-8 does
    with a well-formed one. *)
Definition transparentTo (lib : Library) (query : string) : Prop :=
  fromUtf8 lib query = query ∧ toUtf8 lib (slashed query) = slashed query.

(** Settings with one path, "/garden", and a codec for ASCII. *)
Definition gardenLibrary : Library :=
  mkLibrary (λ b, b) (λ s, s) "paths"
    (λ k, if bool_decide (k = "paths./garden"%string)
          then Some "/1,2,3/0,0,0,1"%string else None).

End PathQuery.

(** ** The entities file on the wire *)

Module Octree.
Import Entities.

Definition set_entitiesFile (f : option string) (st : EntitiesState) : EntitiesState :=
  mkEntities f (replacementFile st) (replacementRemovable st) (entitiesWritable st)
    (readOctreeDataInfo st) (toGzippedByteArray st) (uuidSource st) (uuidsDrawn st).

Definition set_replacementFile (f : option string) (st : EntitiesState) : EntitiesState :=
  mkEntities (entitiesFile st) f (replacementRemovable st) (entitiesWritable st)
    (readOctreeDataInfo st) (toGzippedByteArray st) (uuidSource st) (uuidsDrawn st).

Definition set_uuidsDrawn (n : nat) (st : EntitiesState) : EntitiesState :=
  mkEntities (entitiesFile st) (replacementFile st) (replacementRemovable st)
    (entitiesWritable st) (readOctreeDataInfo st) (toGzippedByteArray st)
    (uuidSource st) n.

(** [processOctreeDataPersistMessage(message)]; [data] is what
    [message->readAll()] returns.  Opening the file for writing empties
    it; the directory made when it is missing is no part of the state, and
    the parse of [data] only feeds the log. *)
Definition processOctreeDataPersistMessage (data : string)
    (st : EntitiesState) : EntitiesState :=
  if entitiesWritable st then set_entitiesFile (Some data) st else st.

(** The reply packet: [writePrimitive(false)], or [writePrimitive(true)]
    followed by the bytes of the file. *)
Inductive OctreeDataFileReply :=
  | NoData
  | FileData (file : string).

(** [processOctreeDataRequestMessage(message)].  [remoteHasExistingData],
    [idData] and [versionData] are read from the message; [version] is
    declared without a value and gets one only when the remote has data,
    so the value it holds otherwise, [indeterminate], is an input, as is
    whether the entities file opens for reading. *)
Definition processOctreeDataRequestMessage (remoteHasExistingData : bool)
    (idData : QUuid) (versionData indeterminate : Z) (entitiesReadable : bool)
    (st : EntitiesState) : OctreeDataFileReply * EntitiesState :=
  let st := maybeHandleReplacementEntityFile st in
  let id := if remoteHasExistingData then idData else 0 in
  let version := if remoteHasExistingData then versionData else indeterminate in
  match readOctreeDataInfoFromFile (entitiesFile st) st with
  | Some data =>
      if (Entities.id data =? id) && (Entities.version data <=? version)
      then (NoData, st)
      else if entitiesReadable
      then (FileData (default "" (entitiesFile st)), st)
      else (NoData, st)
  | None => (NoData, st)
  end.

(** The calls [handleOctreeFileReplacement] makes on the uploaded bytes:
    [gunzip] ([None]: the bytes were not compressed),
    [readOctreeDataInfoFromData] ([None]: they do not parse),
    [toByteArray] and [gzip]. *)
Record UploadCodec := mkUploadCodec {
  gunzip : string → option string;
  readOctreeDataInfoFromData : string → option RawEntityData;
  toByteArray : RawEntityData → string;
  gzip : string → string;
}.

(** [handleOctreeFileReplacement(octreeFile)].  [replacementOpens] and
    [replacementWrites] are the answers of the file system to [open] and
    to [write] (which fails when it returns -1); a file opened for writing
    is emptied.  The first component of the result tells whether [restart]
    was invoked. *)
Definition handleOctreeFileReplacement (codec : UploadCodec)
    (replacementOpens replacementWrites : bool) (octreeFile : string)
    (st : EntitiesState) : bool * EntitiesState :=
  let compressedOctree := octreeFile in
  let jsonOctree := default compressedOctree (gunzip codec compressedOctree) in
  match readOctreeDataInfoFromData codec jsonOctree with
  | Some data =>
      let data := resetIdAndVersion (uuidSource st (uuidsDrawn st)) data in
      let st := set_uuidsDrawn (S (uuidsDrawn st)) st in
      let compressedOctree := gzip codec (toByteArray codec data) in
      if replacementOpens then
        if replacementWrites
        then (true, set_replacementFile (Some compressedOctree) st)
        else (false, set_replacementFile (Some ""%string) st)
      else (false, st)
  | None => (false, st)
  end.

(** A codec for examples: a document is its id and its version, one
    character each, followed by the data. *)
Definition headedRead (content : string) : option RawEntityData :=
  match content with
  | String i (String v data) =>
      Some (mkRawEntityData (Z.of_nat (Ascii.nat_of_ascii i) - 48)
              (Z.of_nat (Ascii.nat_of_ascii v) - 48) data)
  | _ => None
  end.

Definition headedWrite (data : RawEntityData) : string :=
  String (Ascii.ascii_of_nat (Z.to_nat (id data + 48)))
    (String (Ascii.ascii_of_nat (Z.to_nat (version data + 48))) (octreeData data)).

(** Uploads are taken as sent: they are never compressed. *)
Definition headedUpload : UploadCodec :=
  mkUploadCodec (λ _, None) headedRead headedWrite (λ s, s).

(** A server whose entities file holds "old scene" under id 7 at version 3. *)
Definition settled : EntitiesState :=
  mkEntities (Some "73old scene") None true true
    headedRead headedWrite (λ n, Z.of_nat n + 1) 0.

(** The same server when the replacement "new scene" waits. *)
Definition replacementWaiting : EntitiesState :=
  mkEntities (Some "73old scene") (Some "52new scene") true true
    headedRead headedWrite (λ n, Z.of_nat n + 1) 0.

End Octree.

(** ** The OAuth state across requests *)

Module OAuth.
Import Http.

(** A request as it reaches the server: on the HTTP port or on the HTTPS
    port. *)
Inductive Request :=
  | Plain (connection : HTTPConnection)
  | Secure (connection : HTTPConnection).

Definition serve (st : HttpState) (request : Request) : HttpState :=
  match request with
  | Plain connection => (handleHTTPRequest connection st).2
  | Secure connection => (handleHTTPSRequest connection st).2
  end.

(** The states for which a token was requested from the provider. *)
Definition tokensOf (log : list HttpEvent) : list QUuid :=
  omap (λ e, match e with TokenRequested s => Some s | _ => None end) log.

(** What one request does to the state set, the UUIDs drawn and the
    tokens requested. *)
Definition stepOf (st st' : HttpState) : Prop :=
  uuidSource st' = uuidSource st
  ∧ ((_webAuthenticationStateSet st' = _webAuthenticationStateSet st
      ∧ uuidsDrawn st' = uuidsDrawn st
      ∧ tokensOf (httpLog st') = tokensOf (httpLog st))
     ∨ (_webAuthenticationStateSet st'
        = _webAuthenticationStateSet st ∪ {[uuidSource st (uuidsDrawn st)]}
        ∧ uuidsDrawn st' = S (uuidsDrawn st)
        ∧ tokensOf (httpLog st') = tokensOf (httpLog st))
     ∨ (∃ s, s ≠ 0 ∧ s ∈ _webAuthenticationStateSet st
        ∧ _webAuthenticationStateSet st' = _webAuthenticationStateSet st ∖ {[s]}
        ∧ uuidsDrawn st' = uuidsDrawn st
        ∧ tokensOf (httpLog st') = tokensOf (httpLog st) ++ [s])).

(** The invariant of a server that started at [k0] drawn UUIDs. *)
Definition issuedOnce (k0 : nat) (src : nat → QUuid) (st : HttpState) : Prop :=
  uuidSource st = src
  ∧ (k0 ≤ uuidsDrawn st)%nat
  ∧ (∀ s, s ∈ _webAuthenticationStateSet st →
       ∃ k, (k0 ≤ k < uuidsDrawn st)%nat ∧ s = src k)
  ∧ (∀ s, s ∈ tokensOf (httpLog st) →
       s ≠ 0 ∧ ∃ k, (k0 ≤ k < uuidsDrawn st)%nat ∧ s = src k)
  ∧ NoDup (tokensOf (httpLog st))
  ∧ (∀ s, s ∈ _webAuthenticationStateSet st → s ∉ tokensOf (httpLog st)).

(** A server that authenticates through an OAuth provider. *)
Definition oauthServer : HttpState :=
  mkHttp "https://provider.example" (Some ["admin"]) None None None ∅ ∅
    ∅ ∅ ∅ 1 plainLibrary (λ n, Z.of_nat n + 1) 0 [].

(** The provider's callback for the state 1. *)
Definition callback : HTTPConnection :=
  mkConnection GetOperation URI_OAUTH "" "" "" "code" 1.

End OAuth.

(** ** Replication peers *)

Module Replication.
Import Ice.

#[global] Instance HifiSockAddr_eq_dec : EqDecision HifiSockAddr.
Proof. solve_decision. Defined.

Inductive ReplicationServerDirection := Upstream | Downstream.

#[global] Instance ReplicationServerDirection_eq_dec :
  EqDecision ReplicationServerDirection.
Proof. solve_decision. Defined.

(** A replication server of the settings: the values under the three keys,
    as [toString] renders them, where the map contains the key. *)
Record ServerMap := mkServerMap {
  address : option string;
  port : option string;
  server_type : option string;
}.

(** The [broadcasting] settings: the lists under the keys the map contains. *)
Record BroadcastSettings := mkBroadcast {
  upstream_servers : option (list ServerMap);
  downstream_servers : option (list ServerMap);
}.

(** The library calls made on the settings and on node types:
    [NodeType::fromString], [upstreamType], [downstreamType], [isUpstream],
    [isDownstream], [QString::toInt] and the constructor of [HifiSockAddr]
    from a host string and a port. *)
Record Library := mkLibrary {
  fromString : string → NodeType_t;
  upstreamType : NodeType_t → NodeType_t;
  downstreamType : NodeType_t → NodeType_t;
  isUpstream : NodeType_t → bool;
  isDownstream : NodeType_t → bool;
  toInt : string → Z;
  sockAddrOf : string → Z → HifiSockAddr;
}.

Record ReplicationServerInfo := mkInfo {
  nodeType : NodeType_t;
  sockAddr : HifiSockAddr;
}.

(** [serverInformationFromSettings(serverMap, direction)]; the port is cast
    to [quint16]. *)
Definition serverInformationFromSettings (lib : Library) (serverMap : ServerMap)
    (direction : ReplicationServerDirection) : ReplicationServerInfo :=
  match address serverMap, port serverMap, server_type serverMap with
  | Some a, Some p, Some t =>
      let nodeType := fromString lib t in
      mkInfo
        match direction with
        | Upstream => upstreamType lib nodeType
        | Downstream => downstreamType lib nodeType
        end
        (sockAddrOf lib a (toInt lib p mod 2 ^ 16))
  | _, _, _ => mkInfo Unassigned clearedSocket
  end.

(** What the replication routines read of a node. *)
Record Node := mkNode {
  getType : NodeType_t;
  getPublicSocket : HifiSockAddr;
}.

(** The node list, the stream of [QUuid::createUuid], and the nodes handed
    to [handleKillNode], in the order of the calls. *)
Record NodeList := mkNodeList {
  _nodeHash : gmap Z Node;
  uuidSource : nat → QUuid;
  uuidsDrawn : nat;
  killed : list QUuid;
}.

Definition createUuid (nl : NodeList) : QUuid * NodeList :=
  (uuidSource nl (uuidsDrawn nl),
   mkNodeList (_nodeHash nl) (uuidSource nl) (S (uuidsDrawn nl)) (killed nl)).

(** Modelled from the spec: [LimitedNodeList::addOrUpdateNode] is not part
    of the sources at hand; the spec's [add] inserts the node.  The local
    socket, the local id, the permissions and the flags set on the new node
    are read by no routine of this model. *)
Definition addOrUpdateNode (u : QUuid) (t : NodeType_t) (publicSocket : HifiSockAddr)
    (nl : NodeList) : NodeList :=
  mkNodeList (<[u := mkNode t publicSocket]> (_nodeHash nl))
    (uuidSource nl) (uuidsDrawn nl) (killed nl).

(** [handleKillNode(node)]: of its effects (see [Departure.handleKillNode])
    this state keeps the removal from the node list. *)
Definition handleKillNode (nl : NodeList) (u : QUuid) : NodeList :=
  mkNodeList (delete u (_nodeHash nl)) (uuidSource nl) (uuidsDrawn nl)
    (killed nl ++ [u]).

(** The test both [eachNode] lambdas of [updateReplicationNodes] make. *)
Definition inDirection (lib : Library) (direction : ReplicationServerDirection)
    (t : NodeType_t) : bool :=
  (bool_decide (direction = Upstream) && isUpstream lib t)
  || (bool_decide (direction = Downstream) && isDownstream lib t).

Definition knownReplicationNodes (lib : Library)
    (direction : ReplicationServerDirection) (nl : NodeList) : list HifiSockAddr :=
  getPublicSocket
  <$> filter (λ n, inDirection lib direction (getType n) = true)
        (map_to_list (_nodeHash nl)).*2.

(** One round of the loop over the servers of the settings. *)
Definition serverVisit (lib : Library) (direction : ReplicationServerDirection)
    (knownReplicationNodes : list HifiSockAddr)
    (acc : list HifiSockAddr * NodeList) (server : ServerMap)
    : list HifiSockAddr * NodeList :=
  let '(replicationNodesInSettings, nl) := acc in
  let replicationServer := serverInformationFromSettings lib server direction in
  if negb (sockIsNull (sockAddr replicationServer))
     && negb (bool_decide (nodeType replicationServer = Unassigned))
  then
    let replicationNodesInSettings :=
      replicationNodesInSettings ++ [sockAddr replicationServer] in
    let knownNode :=
      bool_decide (sockAddr replicationServer ∈ knownReplicationNodes) in
    if negb knownNode then
      let '(u, nl) := createUuid nl in
      (replicationNodesInSettings,
       addOrUpdateNode u (nodeType replicationServer) (sockAddr replicationServer) nl)
    else (replicationNodesInSettings, nl)
  else acc.

Definition nodesToKill (lib : Library) (direction : ReplicationServerDirection)
    (replicationNodesInSettings : list HifiSockAddr) (nl : NodeList) : list QUuid :=
  (filter (λ p, inDirection lib direction (getType p.2) = true
                ∧ getPublicSocket p.2 ∉ replicationNodesInSettings)
     (map_to_list (_nodeHash nl))).*1.

Definition serversOf (direction : ReplicationServerDirection)
    (replicationSettings : BroadcastSettings) : option (list ServerMap) :=
  match direction with
  | Upstream => upstream_servers replicationSettings
  | Downstream => downstream_servers replicationSettings
  end.

(** [updateReplicationNodes(direction)]; [broadcastSettings] is the value
    at the [broadcasting] key, when it is valid. *)
Definition updateReplicationNodes (lib : Library)
    (direction : ReplicationServerDirection)
    (broadcastSettings : option BroadcastSettings) (nl : NodeList) : NodeList :=
  match broadcastSettings with
  | Some replicationSettings =>
      let '(replicationNodesInSettings, nl) :=
        match serversOf direction replicationSettings with
        | Some serversSettings =>
            foldl (serverVisit lib direction (knownReplicationNodes lib direction nl))
              ([], nl) serversSettings
        | None => ([], nl)
        end in
      foldl handleKillNode nl
        (nodesToKill lib direction replicationNodesInSettings nl)
  | None => nl
  end.

(** The sockets of the servers of the settings that pass the test of the
    loop. *)
Definition configured (lib : Library) (direction : ReplicationServerDirection)
    (servers : list ServerMap) : list HifiSockAddr :=
  omap (λ server,
          let replicationServer :=
            serverInformationFromSettings lib server direction in
          if negb (sockIsNull (sockAddr replicationServer))
             && negb (bool_decide (nodeType replicationServer = Unassigned))
          then Some (sockAddr replicationServer) else None) servers.

(** The type a server of the settings gets in a direction. *)
Definition directionType (lib : Library) (direction : ReplicationServerDirection)
    (t : NodeType_t) : NodeType_t :=
  match direction with
  | Upstream => upstreamType lib t
  | Downstream => downstreamType lib t
  end.

(** The loop over the servers, from the state [nl0] it starts in. *)
Record visited (lib : Library) (direction : ReplicationServerDirection)
    (nl0 : NodeList) (known : list HifiSockAddr) (done : list ServerMap)
    (acc : list HifiSockAddr * NodeList) : Prop := mkVisited {
  v_settings : (acc.1) = configured lib direction done;
  v_source : uuidSource acc.2 = uuidSource nl0;
  v_killed : killed acc.2 = killed nl0;
  v_old : ∀ u n, _nodeHash nl0 !! u = Some n → _nodeHash acc.2 !! u = Some n;
  v_new : ∀ u n, _nodeHash acc.2 !! u = Some n →
     _nodeHash nl0 !! u = Some n
     ∨ (inDirection lib direction (getType n) = true
        ∧ getPublicSocket n ∈ configured lib direction done);
  v_all : ∀ sock, sock ∈ configured lib direction done →
     sock ∈ known
     ∨ ∃ u n, _nodeHash acc.2 !! u = Some n
              ∧ inDirection lib direction (getType n) = true
              ∧ getPublicSocket n = sock;
  v_fresh : ∀ k, (uuidsDrawn acc.2 ≤ k)%nat →
     _nodeHash acc.2 !! uuidSource nl0 k = None;
}.

(** A library for examples: a host is told by the length of its name. *)
Definition exampleLibrary : Library :=
  mkLibrary
    (λ s, if decide (s = "audio-mixer") then AudioMixer
          else if decide (s = "avatar-mixer") then AvatarMixer else Unassigned)
    (λ t, match t with
          | AudioMixer => UpstreamAudioMixer
          | AvatarMixer => UpstreamAvatarMixer
          | _ => Unassigned
          end)
    (λ t, match t with
          | AudioMixer => DownstreamAudioMixer
          | AvatarMixer => DownstreamAvatarMixer
          | _ => Unassigned
          end)
    (λ t, bool_decide (t = UpstreamAudioMixer ∨ t = UpstreamAvatarMixer))
    (λ t, bool_decide (t = DownstreamAudioMixer ∨ t = DownstreamAvatarMixer))
    (λ s, if decide (s = "7000") then 7000 else 0)
    (λ a p, mkSockAddr (if decide (a = "") then None
                        else Some (Z.of_nat (String.length a))) p).

(** An agent, and a downstream audio mixer at a host the settings no
    longer name. *)
Definition staleDownstream : NodeList :=
  mkNodeList
    {[1 := mkNode Agent (mkSockAddr (Some 9) 40000);
      2 := mkNode DownstreamAudioMixer (mkSockAddr (Some 5) 7000)]}
    (λ n, Z.of_nat n + 100) 0 [].

Definition oneDownstream : BroadcastSettings :=
  mkBroadcast None
    (Some [mkServerMap (Some "abc") (Some "7000") (Some "audio-mixer");
           mkServerMap (Some "abcd") None (Some "audio-mixer")]).

End Replication.

(** * Properties *)

Lemma isNull_true u : isNull u = true ↔ u = 0.
Proof. unfold isNull. apply Z.eqb_eq. Qed.

Lemma isNull_false u : isNull u = false ↔ u ≠ 0.
Proof. unfold isNull. apply Z.eqb_neq. Qed.

Module RegistryProofs.
Import Registry.

(** ** Session secrets *)

Lemma secretFor_emit x y e ds : secretFor x y (emit e ds) = secretFor x y ds.
Proof. reflexivity. Qed.

Lemma secretFor_alter f k x y ds :
  secretFor x y (alterLinkedData f k ds) =
  if decide (k = x)
  then d ← linkedDataOf x ds; _sessionSecretHash (f d) !! y
  else secretFor x y ds.
Proof.
  unfold secretFor, linkedDataOf, alterLinkedData. cbn.
  rewrite lookup_alter. case_decide as Hk; [subst k|reflexivity].
  destruct (_nodeHash ds !! x) as [n|]; cbn; [|reflexivity].
  destruct (getLinkedData n); reflexivity.
Qed.

Lemma linkedDataOf_alter f k x ds :
  linkedDataOf x (alterLinkedData f k ds) =
  if decide (k = x) then f <$> linkedDataOf x ds else linkedDataOf x ds.
Proof.
  unfold linkedDataOf, alterLinkedData. cbn.
  rewrite lookup_alter. case_decide as Hk; [subst k|reflexivity].
  destruct (_nodeHash ds !! x) as [n|]; reflexivity.
Qed.

Lemma csfn_generates a b ds :
  generates a b ds = true →
  connectionSecretForNodes a b ds =
    (uuidSource ds (uuidsDrawn ds),
     alterLinkedData (insertSessionSecret a (uuidSource ds (uuidsDrawn ds))) b
       (alterLinkedData (insertSessionSecret b (uuidSource ds (uuidsDrawn ds))) a
          (set_uuidsDrawn (S (uuidsDrawn ds)) ds))).
Proof.
  unfold generates, connectionSecretForNodes.
  destruct (linkedDataOf a ds) as [da|]; [|discriminate].
  destruct (linkedDataOf b ds) as [db|]; [|discriminate].
  intros ->. reflexivity.
Qed.

Lemma csfn_keeps a b ds :
  generates a b ds = false →
  connectionSecretForNodes a b ds = (default 0 (secretFor a b ds), ds)
  ∨ (connectionSecretForNodes a b ds = (0, ds)
     ∧ (linkedDataOf a ds = None ∨ linkedDataOf b ds = None)).
Proof.
  unfold generates, connectionSecretForNodes, secretFor.
  destruct (linkedDataOf a ds) as [da|]; [|right; auto].
  destruct (linkedDataOf b ds) as [db|]; [|right; auto].
  intros ->. left. reflexivity.
Qed.

Lemma csfn_state_keeps a b ds :
  generates a b ds = false → (connectionSecretForNodes a b ds).2 = ds.
Proof.
  intros H. destruct (csfn_keeps a b ds H) as [->|[-> _]]; reflexivity.
Qed.

Lemma secretFor_csfn a b x y ds :
  secretFor x y (connectionSecretForNodes a b ds).2 =
  if generates a b ds then
    if decide (slotOf a b x y) then Some (uuidSource ds (uuidsDrawn ds))
    else secretFor x y ds
  else secretFor x y ds.
Proof.
  destruct (generates a b ds) eqn:Hg.
  - rewrite (csfn_generates _ _ _ Hg). cbn [snd].
    unfold generates in Hg.
    destruct (linkedDataOf a ds) as [da|] eqn:Ha; [|discriminate].
    destruct (linkedDataOf b ds) as [db|] eqn:Hb; [|discriminate].
    rewrite secretFor_alter, linkedDataOf_alter.
    change (linkedDataOf x (set_uuidsDrawn (S (uuidsDrawn ds)) ds))
      with (linkedDataOf x ds).
    rewrite secretFor_alter.
    change (linkedDataOf x (set_uuidsDrawn (S (uuidsDrawn ds)) ds))
      with (linkedDataOf x ds).
    change (secretFor x y (set_uuidsDrawn (S (uuidsDrawn ds)) ds))
      with (secretFor x y ds).
    unfold slotOf.
    destruct (decide (b = x)) as [->|Hbx].
    + rewrite Hb. destruct (decide (a = x)) as [->|Hax]; cbn.
      * destruct (decide (y = x)) as [->|Hyx].
        -- rewrite lookup_insert_eq, decide_True by auto. reflexivity.
        -- rewrite !lookup_insert_ne by auto.
           rewrite decide_False by (intros [[_ ?]|[_ ?]]; congruence).
           unfold secretFor. rewrite Hb. reflexivity.
      * destruct (decide (y = a)) as [->|Hya].
        -- rewrite lookup_insert_eq, decide_True by auto. reflexivity.
        -- rewrite lookup_insert_ne by auto.
           rewrite decide_False by (intros [[? _]|[_ ?]]; congruence).
           unfold secretFor. rewrite Hb. reflexivity.
    + destruct (decide (a = x)) as [->|Hax].
      * rewrite Ha. cbn. destruct (decide (y = b)) as [->|Hyb].
        -- rewrite lookup_insert_eq, decide_True by auto. reflexivity.
        -- rewrite lookup_insert_ne by auto.
           rewrite decide_False by (intros [[_ ?]|[? _]]; congruence).
           unfold secretFor. rewrite Ha. reflexivity.
      * rewrite decide_False by (intros [[? _]|[? _]]; congruence).
        reflexivity.
  - rewrite csfn_state_keeps by done. reflexivity.
Qed.

Lemma secretFor_linked a b s ds :
  secretFor a b ds = Some s → ∃ da, linkedDataOf a ds = Some da
                                  ∧ _sessionSecretHash da !! b = Some s.
Proof.
  unfold secretFor. destruct (linkedDataOf a ds) as [da|]; [|discriminate].
  cbn. eauto.
Qed.

Lemma generates_false_of_secret a b s ds :
  secretsConsistent ds → secretFor a b ds = Some s → generates a b ds = false.
Proof.
  intros Hinv Hs. destruct (Hinv _ _ _ Hs) as [Hnz _].
  apply secretFor_linked in Hs as (da & Ha & Hab).
  unfold generates. rewrite Ha. destruct (linkedDataOf b ds); [|reflexivity].
  rewrite Hab. cbn. by apply isNull_false.
Qed.

Lemma generates_true_inv a b ds :
  secretsConsistent ds → generates a b ds = true →
  secretFor a b ds = None ∧ secretFor b a ds = None.
Proof.
  intros Hinv Hg.
  assert (secretFor a b ds = None) as Hab.
  { destruct (secretFor a b ds) as [s|] eqn:Hs; [|reflexivity].
    rewrite (generates_false_of_secret _ _ _ _ Hinv Hs) in Hg. discriminate. }
  split; [assumption|].
  destruct (secretFor b a ds) as [s|] eqn:Hs; [|reflexivity].
  destruct (Hinv _ _ _ Hs) as [_ Hback]. congruence.
Qed.

Lemma uuidSource_csfn a b ds :
  uuidSource (connectionSecretForNodes a b ds).2 = uuidSource ds.
Proof.
  destruct (generates a b ds) eqn:Hg.
  - rewrite (csfn_generates _ _ _ Hg). reflexivity.
  - by rewrite csfn_state_keeps.
Qed.

Lemma csfn_good a b ds : good ds → good (connectionSecretForNodes a b ds).2.
Proof.
  intros [Hinv Hsrc]. split.
  - intros x y s. rewrite !secretFor_csfn.
    destruct (generates a b ds) eqn:Hg; [|apply Hinv].
    destruct (decide (slotOf a b x y)) as [Hslot|Hslot].
    + intros [= <-]. split; [apply Hsrc|].
      rewrite decide_True; [reflexivity|].
      unfold slotOf in *. tauto.
    + intros Hs. destruct (Hinv _ _ _ Hs) as [Hnz Hback].
      split; [assumption|].
      rewrite decide_False; [assumption|].
      unfold slotOf in *. tauto.
  - intros n. rewrite uuidSource_csfn. apply Hsrc.
Qed.

Lemma csfn_preserves a b p q s ds :
  secretsConsistent ds → secretFor p q ds = Some s →
  secretFor p q (connectionSecretForNodes a b ds).2 = Some s.
Proof.
  intros Hinv Hs. rewrite secretFor_csfn.
  destruct (generates a b ds) eqn:Hg; [|assumption].
  destruct (generates_true_inv _ _ _ Hinv Hg) as [Hab Hba].
  rewrite decide_False; [assumption|].
  intros [[-> ->]|[-> ->]]; congruence.
Qed.

(** A stored secret is returned as it is, and nothing changes. *)
Lemma csfn_stored a b s ds :
  secretsConsistent ds → secretFor a b ds = Some s →
  connectionSecretForNodes a b ds = (s, ds).
Proof.
  intros Hinv Hs.
  pose proof (generates_false_of_secret _ _ _ _ Hinv Hs) as Hg.
  destruct (csfn_keeps _ _ _ Hg) as [->|[_ [Hn|Hn]]].
  - by rewrite Hs.
  - apply secretFor_linked in Hs as (da & Ha & _). congruence.
  - destruct (Hinv _ _ _ Hs) as [_ Hback].
    apply secretFor_linked in Hback as (db & Hb & _). congruence.
Qed.

(** The first call for a pair of nodes with linked data. *)
Lemma csfn_first a b ds :
  good ds → is_Some (linkedDataOf a ds) → is_Some (linkedDataOf b ds) →
  (connectionSecretForNodes a b ds).1 ≠ 0
  ∧ secretFor a b (connectionSecretForNodes a b ds).2
    = Some (connectionSecretForNodes a b ds).1
  ∧ secretFor b a (connectionSecretForNodes a b ds).2
    = Some (connectionSecretForNodes a b ds).1.
Proof.
  intros [Hinv Hsrc] [da Ha] [db Hb].
  destruct (generates a b ds) eqn:Hg.
  - rewrite !secretFor_csfn, Hg.
    rewrite (csfn_generates _ _ _ Hg). cbn [fst snd].
    split; [apply Hsrc|].
    rewrite !decide_True by (unfold slotOf; tauto). done.
  - unfold generates in Hg. rewrite Ha, Hb in Hg.
    destruct (_sessionSecretHash da !! b) as [s|] eqn:Hs;
      [|cbn in Hg; discriminate].
    assert (secretFor a b ds = Some s) as Hab.
    { unfold secretFor. rewrite Ha. exact Hs. }
    rewrite (csfn_stored _ _ _ _ Hinv Hab). cbn [fst snd].
    destruct (Hinv _ _ _ Hab) as [Hnz Hback]. done.
Qed.

Lemma grows_refl ds : grows ds ds.
Proof. intros H. split; [assumption|auto]. Qed.

Lemma grows_trans ds1 ds2 ds3 : grows ds1 ds2 → grows ds2 ds3 → grows ds1 ds3.
Proof.
  intros H12 H23 Hg. destruct (H12 Hg) as [Hg2 Hk2].
  destruct (H23 Hg2) as [Hg3 Hk3]. split; [assumption|auto].
Qed.

Lemma grows_csfn a b ds : grows ds (connectionSecretForNodes a b ds).2.
Proof.
  intros Hg. split; [by apply csfn_good|].
  intros p q s. apply csfn_preserves, Hg.
Qed.

Lemma grows_same_hash ds ds' :
  _nodeHash ds' = _nodeHash ds → uuidSource ds' = uuidSource ds → grows ds ds'.
Proof.
  intros Hh Hu.
  assert (∀ x y, secretFor x y ds' = secretFor x y ds) as Heq.
  { intros. unfold secretFor, linkedDataOf. by rewrite Hh. }
  intros [Hinv Hsrc]. split; [split|].
  - intros x y s. rewrite !Heq. apply Hinv.
  - intros n. rewrite Hu. apply Hsrc.
  - intros p q s. by rewrite Heq.
Qed.

Lemma grows_emit e ds : grows ds (emit e ds).
Proof. by apply grows_same_hash. Qed.

Lemma grows_foldl {A} (f : DomainServer → A → DomainServer) l :
  (∀ ds x, grows ds (f ds x)) → ∀ ds, grows ds (foldl f ds l).
Proof.
  intros Hf. induction l as [|x l IH]; intros ds; cbn.
  - apply grows_refl.
  - eapply grows_trans; [apply Hf|apply IH].
Qed.

Lemma grows_domainListVisit node acc other :
  grows acc.2 (domainListVisit node acc other).2.
Proof.
  destruct acc as [entries ds]. unfold domainListVisit. cbn [snd].
  destruct (_nodeHash ds !! node) as [n|]; [|apply grows_refl].
  destruct (_nodeHash ds !! other) as [o|]; [|apply grows_refl].
  destruct (bool_decide (other ≠ node) && isInInterestSet n o);
    [|apply grows_refl].
  pose proof (grows_csfn node other ds) as H.
  destruct (connectionSecretForNodes node other ds) as [secret ds'].
  exact H.
Qed.

Lemma grows_domainList_loop node l :
  ∀ acc, grows acc.2 (foldl (domainListVisit node) acc l).2.
Proof.
  induction l as [|x l IH]; intros acc; cbn.
  - apply grows_refl.
  - eapply grows_trans; [apply grows_domainListVisit|apply IH].
Qed.

Lemma grows_sendDomainListToNode node ds : grows ds (sendDomainListToNode node ds).
Proof.
  unfold sendDomainListToNode.
  destruct (linkedDataOf node ds) as [nodeData|]; [|apply grows_refl].
  destruct (bool_decide (0 < size (_nodeInterestSet nodeData))%nat
            && _isAuthenticated nodeData).
  - pose proof (grows_domainList_loop node (liveUUIDs ds) ([], ds)) as H.
    destruct (foldl (domainListVisit node) ([], ds) (liveUUIDs ds))
      as [entries ds'].
    eapply grows_trans; [exact H|apply grows_emit].
  - apply grows_emit.
Qed.

Lemma grows_broadcastVisit added ds node : grows ds (broadcastVisit added ds node).
Proof.
  unfold broadcastVisit.
  destruct (_nodeHash ds !! node) as [n|]; [|apply grows_refl].
  destruct (_nodeHash ds !! added) as [a|]; [|apply grows_refl].
  destruct (bool_decide (is_Some (getLinkedData n)) && getActiveSocket n
            && bool_decide (node ≠ added) && isInInterestSet n a);
    [|apply grows_refl].
  pose proof (grows_csfn node added ds) as H.
  destruct (connectionSecretForNodes node added ds) as [secret ds'].
  eapply grows_trans; [exact H|apply grows_emit].
Qed.

Lemma grows_broadcastNewNode added ds : grows ds (broadcastNewNode added ds).
Proof. apply grows_foldl. intros. apply grows_broadcastVisit. Qed.

Lemma grows_handleConnectedNode u ds : grows ds (handleConnectedNode u ds).
Proof.
  unfold handleConnectedNode.
  destruct (_nodeHash ds !! u) as [n|]; [|apply grows_refl].
  destruct (getLinkedData n) as [nodeData|]; [|apply grows_refl].
  eapply grows_trans; [apply grows_sendDomainListToNode|].
  eapply grows_trans; [|apply grows_broadcastNewNode].
  destruct (bool_decide (getType n = Agent) && negb (_wasAssigned nodeData));
    [apply grows_emit|apply grows_refl].
Qed.

(** An update of linked data that leaves the secret hash alone. *)
Lemma grows_alter_keeping f k ds :
  (∀ d, _sessionSecretHash (f d) = _sessionSecretHash d) →
  grows ds (alterLinkedData f k ds).
Proof.
  intros Hf.
  assert (∀ x y, secretFor x y (alterLinkedData f k ds) = secretFor x y ds)
    as Heq.
  { intros. rewrite secretFor_alter. case_decide; [|reflexivity].
    unfold secretFor. destruct (linkedDataOf x ds); cbn; [|reflexivity].
    by rewrite Hf. }
  intros [Hinv Hsrc]. split; [split|].
  - intros x y s. rewrite !Heq. apply Hinv.
  - exact Hsrc.
  - intros p q s. by rewrite Heq.
Qed.

Lemma grows_processListRequestPacket l u ds :
  grows ds (processListRequestPacket l u ds).
Proof.
  unfold processListRequestPacket.
  destruct (_nodeHash ds !! u) as [n|]; [|apply grows_refl].
  eapply grows_trans; [|apply grows_sendDomainListToNode].
  by apply grows_alter_keeping.
Qed.

Lemma secretFor_addNode u t x y ds :
  _nodeHash ds !! u = None →
  secretFor x y (addNode u t ds) = if decide (x = u) then None else secretFor x y ds.
Proof.
  intros Hu. unfold addNode. rewrite Hu.
  unfold secretFor, linkedDataOf, nodeAdded. cbn.
  rewrite lookup_alter. case_decide as Hx.
  - subst x. rewrite decide_True by done. by rewrite lookup_insert_eq.
  - rewrite decide_False by done. by rewrite lookup_insert_ne.
Qed.

Lemma grows_addNode u t ds : grows ds (addNode u t ds).
Proof.
  destruct (_nodeHash ds !! u) as [n|] eqn:Hu.
  { unfold addNode. rewrite Hu. apply grows_refl. }
  assert (∀ x y s, secretFor x y ds = Some s → x ≠ u) as Hlive.
  { intros x y s Hs ->. unfold secretFor, linkedDataOf in Hs.
    rewrite Hu in Hs. discriminate. }
  intros [Hinv Hsrc]. split; [split|].
  - intros x y s. rewrite !secretFor_addNode by done.
    case_decide; [discriminate|]. intros Hs.
    destruct (Hinv _ _ _ Hs) as [Hnz Hback]. split; [assumption|].
    rewrite decide_False; [assumption|]. by eapply Hlive.
  - unfold addNode. rewrite Hu. exact Hsrc.
  - intros p q s Hs. rewrite secretFor_addNode by done.
    rewrite decide_False; [assumption|]. by eapply Hlive.
Qed.

(** *** Killing a node *)

Lemma nodeHash_refresh p ds :
  _nodeHash (refreshStaticAssignmentAndAddToQueue p ds) = _nodeHash ds.
Proof.
  unfold refreshStaticAssignmentAndAddToQueue, resetUUID. cbn.
  by destruct (bool_decide _ && isEmpty _).
Qed.

Lemma uuidSource_refresh p ds :
  uuidSource (refreshStaticAssignmentAndAddToQueue p ds) = uuidSource ds.
Proof.
  unfold refreshStaticAssignmentAndAddToQueue. cbn.
  by destruct (bool_decide _ && isEmpty _).
Qed.

Lemma secretFor_cleanupVisit u k x y ds :
  secretFor x y (cleanupVisit u ds k) =
  if decide (x = k ∧ y = u) then None else secretFor x y ds.
Proof.
  unfold cleanupVisit.
  destruct (_nodeHash ds !! k) as [n|] eqn:Hk.
  - rewrite secretFor_alter. destruct (decide (k = x)) as [->|Hkx].
    + unfold secretFor. destruct (linkedDataOf x ds) as [d|]; cbn.
      * destruct (decide (y = u)) as [->|Hyu].
        -- rewrite decide_True by done. apply lookup_delete_eq.
        -- rewrite decide_False by tauto. by apply lookup_delete_ne.
      * by case_decide.
    + rewrite decide_False; [reflexivity|]. intros [-> _]. done.
  - case_decide as H; [|reflexivity]. destruct H as [-> ->].
    unfold secretFor, linkedDataOf. by rewrite Hk.
Qed.

Lemma secretFor_cleanup u l x y :
  ∀ ds, secretFor x y (foldl (cleanupVisit u) ds l) =
        if decide (x ∈ l ∧ y = u) then None else secretFor x y ds.
Proof.
  induction l as [|k l IH]; intros ds; cbn.
  - rewrite decide_False; [reflexivity|]. intros [H _]. by apply elem_of_nil in H.
  - rewrite IH, secretFor_cleanupVisit.
    destruct (decide (x ∈ l ∧ y = u)) as [[Hin ->]|Hn].
    + rewrite decide_True; [reflexivity|]. split; [by right|done].
    + destruct (decide (x = k ∧ y = u)) as [[-> ->]|Hn'].
      * rewrite decide_True; [reflexivity|]. split; [by left|done].
      * rewrite decide_False; [reflexivity|].
        intros [Hin ->]. apply elem_of_cons in Hin as [->|Hin]; tauto.
Qed.

Lemma uuidSource_cleanup u l :
  ∀ ds, uuidSource (foldl (cleanupVisit u) ds l) = uuidSource ds.
Proof.
  induction l as [|k l IH]; intros ds; cbn; [reflexivity|].
  rewrite IH. unfold cleanupVisit. by destruct (_nodeHash ds !! k).
Qed.

(** The state [nodeKilled] leaves, as far as secrets are concerned. *)
Lemma secretFor_nodeKilled u node nodeData x y ds :
  getLinkedData node = Some nodeData →
  secretFor x y (nodeKilled u node ds) =
  if decide (is_Some (_sessionSecretHash nodeData !! x) ∧ y = u) then None
  else secretFor x y ds.
Proof.
  intros Hd. unfold nodeKilled. rewrite Hd.
  set (ds1 := if negb (isNull (_assignmentUUID nodeData)) then _ else ds).
  assert (_nodeHash ds1 = _nodeHash ds) as Hh.
  { subst ds1. destruct (negb (isNull (_assignmentUUID nodeData))); [|done].
    destruct (_allAssignments ds !! _assignmentUUID nodeData) as [p|]; [|done].
    destruct (a_isStatic _); [|done]. by rewrite nodeHash_refresh. }
  assert (secretFor x y
            (foldl (cleanupVisit u) ds1
               (map_to_list (_sessionSecretHash nodeData)).*1) =
          if decide (is_Some (_sessionSecretHash nodeData !! x) ∧ y = u)
          then None else secretFor x y ds) as Hmain.
  { rewrite secretFor_cleanup.
    assert (secretFor x y ds1 = secretFor x y ds) as ->.
    { unfold secretFor, linkedDataOf. by rewrite Hh. }
    assert (x ∈ (map_to_list (_sessionSecretHash nodeData)).*1
            ↔ is_Some (_sessionSecretHash nodeData !! x)) as Hkeys.
    { rewrite list_elem_of_fmap. split.
      - intros [[k v] [-> Hkv]]. apply elem_of_map_to_list in Hkv. by eexists.
      - intros [v Hv]. exists (x, v). split; [done|].
        by apply elem_of_map_to_list. }
    destruct (decide (is_Some (_sessionSecretHash nodeData !! x) ∧ y = u))
      as [[H1 H2]|Hn].
    - rewrite decide_True; [done|]. by rewrite Hkeys.
    - rewrite decide_False; [done|]. by rewrite Hkeys. }
  destruct (bool_decide (getType node = Agent) && negb (_wasAssigned nodeData));
    [rewrite secretFor_emit|]; exact Hmain.
Qed.

Lemma uuidSource_nodeKilled u node ds :
  uuidSource (nodeKilled u node ds) = uuidSource ds.
Proof.
  unfold nodeKilled. destruct (getLinkedData node) as [nodeData|]; [|done].
  set (ds1 := if negb (isNull (_assignmentUUID nodeData)) then _ else ds).
  assert (uuidSource ds1 = uuidSource ds) as Hu.
  { subst ds1. destruct (negb (isNull (_assignmentUUID nodeData))); [|done].
    destruct (_allAssignments ds !! _assignmentUUID nodeData) as [p|]; [|done].
    destruct (a_isStatic _); [|done]. by rewrite uuidSource_refresh. }
  destruct (bool_decide (getType node = Agent) && negb (_wasAssigned nodeData));
    cbn; by rewrite uuidSource_cleanup.
Qed.

Lemma secretFor_erase u x y ds :
  secretFor x y (set_nodeHash (delete u (_nodeHash ds)) ds) =
  if decide (x = u) then None else secretFor x y ds.
Proof.
  unfold secretFor, linkedDataOf. cbn. case_decide as Hx.
  - subst x. by rewrite lookup_delete_eq.
  - by rewrite lookup_delete_ne.
Qed.

(** After a kill no node holds a secret under the killed node's UUID. *)
Lemma kill_cleans u peer ds :
  secretsConsistent ds → secretFor peer u (killNodeWithUUID u ds) = None.
Proof.
  intros Hinv. unfold killNodeWithUUID.
  destruct (_nodeHash ds !! u) as [node|] eqn:Hu.
  - destruct (getLinkedData node) as [nodeData|] eqn:Hd.
    + rewrite (secretFor_nodeKilled _ _ _ _ _ _ Hd), secretFor_erase.
      case_decide as Hk; [reflexivity|].
      case_decide; [reflexivity|].
      destruct (secretFor peer u ds) as [s|] eqn:Hs; [|reflexivity].
      destruct (Hinv _ _ _ Hs) as [_ Hback].
      exfalso. apply Hk. split; [|reflexivity].
      unfold secretFor, linkedDataOf in Hback. rewrite Hu in Hback.
      cbn in Hback. rewrite Hd in Hback. cbn in Hback. by eexists.
    + unfold nodeKilled. rewrite Hd, secretFor_erase.
      case_decide; [reflexivity|].
      destruct (secretFor peer u ds) as [s|] eqn:Hs; [|reflexivity].
      destruct (Hinv _ _ _ Hs) as [_ Hback].
      unfold secretFor, linkedDataOf in Hback. rewrite Hu in Hback.
      cbn in Hback. rewrite Hd in Hback. discriminate.
  - destruct (secretFor peer u ds) as [s|] eqn:Hs; [|reflexivity].
    destruct (Hinv _ _ _ Hs) as [_ Hback].
    unfold secretFor, linkedDataOf in Hback. rewrite Hu in Hback. discriminate.
Qed.

(** A kill only removes secrets, and only those of or for the killed node. *)
Lemma kill_others u x y ds :
  x ≠ u → y ≠ u → secretFor x y (killNodeWithUUID u ds) = secretFor x y ds.
Proof.
  intros Hx Hy. unfold killNodeWithUUID.
  destruct (_nodeHash ds !! u) as [node|] eqn:Hu; [|reflexivity].
  destruct (getLinkedData node) as [nodeData|] eqn:Hd.
  - rewrite (secretFor_nodeKilled _ _ _ _ _ _ Hd), secretFor_erase.
    rewrite decide_False by tauto. by rewrite decide_False.
  - unfold nodeKilled. rewrite Hd, secretFor_erase. by rewrite decide_False.
Qed.

Lemma kill_subset u x y s ds :
  secretFor x y (killNodeWithUUID u ds) = Some s → secretFor x y ds = Some s.
Proof.
  unfold killNodeWithUUID.
  destruct (_nodeHash ds !! u) as [node|] eqn:Hu; [|done].
  destruct (getLinkedData node) as [nodeData|] eqn:Hd.
  - rewrite (secretFor_nodeKilled _ _ _ _ _ _ Hd), secretFor_erase.
    case_decide; [discriminate|]. by case_decide.
  - unfold nodeKilled. rewrite Hd, secretFor_erase. by case_decide.
Qed.

Lemma kill_none_of u y ds : secretFor u y (killNodeWithUUID u ds) = None.
Proof.
  unfold killNodeWithUUID.
  destruct (_nodeHash ds !! u) as [node|] eqn:Hu.
  - destruct (getLinkedData node) as [nodeData|] eqn:Hd.
    + rewrite (secretFor_nodeKilled _ _ _ _ _ _ Hd), secretFor_erase.
      case_decide; [reflexivity|]. by rewrite decide_True.
    + unfold nodeKilled. rewrite Hd, secretFor_erase. by rewrite decide_True.
  - unfold secretFor, linkedDataOf. by rewrite Hu.
Qed.

Lemma uuidSource_kill u ds : uuidSource (killNodeWithUUID u ds) = uuidSource ds.
Proof.
  unfold killNodeWithUUID. destruct (_nodeHash ds !! u); [|done].
  by rewrite uuidSource_nodeKilled.
Qed.

Lemma kill_good u ds : good ds → good (killNodeWithUUID u ds).
Proof.
  intros [Hinv Hsrc]. split.
  - intros x y s Hs.
    pose proof (kill_subset _ _ _ _ _ Hs) as Hs0.
    destruct (Hinv _ _ _ Hs0) as [Hnz Hback]. split; [assumption|].
    assert (x ≠ u) as Hx.
    { intros ->. by rewrite kill_none_of in Hs. }
    assert (y ≠ u) as Hy.
    { intros ->. by rewrite kill_cleans in Hs. }
    by rewrite kill_others.
  - intros n. rewrite uuidSource_kill. apply Hsrc.
Qed.

Lemma runOp_good op ds : good ds → good (runOp ds op).
Proof.
  intros Hg. destruct op as [u t|u|a b|l u|u]; cbn.
  - by apply grows_addNode.
  - by apply kill_good.
  - by apply csfn_good.
  - by apply grows_processListRequestPacket.
  - by apply grows_handleConnectedNode.
Qed.

Lemma runOps_good ops : ∀ ds, good ds → good (runOps ds ops).
Proof.
  unfold runOps. induction ops as [|op ops IH]; intros ds Hg; cbn; [done|].
  apply IH. by apply runOp_good.
Qed.

Lemma emptyServer_good src : (∀ n, src n ≠ 0) → good (emptyServer src).
Proof.
  intros Hsrc. split; [|exact Hsrc].
  intros a b s Hs. unfold secretFor, linkedDataOf in Hs. cbn in Hs.
  rewrite lookup_empty in Hs. discriminate.
Qed.

Lemma runOp_paired a b s op ds :
  keepsAlive a b op → paired a b s ds → paired a b s (runOp ds op).
Proof.
  intros Hop (Hg & Hab & Hba).
  split; [by apply runOp_good|].
  destruct op as [u t|u|x y|l u|u]; cbn in *.
  - destruct (grows_addNode u t ds Hg) as [_ Hk]. auto.
  - destruct Hop as [Hua Hub]. rewrite !kill_others by done. auto.
  - destruct (grows_csfn x y ds Hg) as [_ Hk]. auto.
  - destruct (grows_processListRequestPacket l u ds Hg) as [_ Hk]. auto.
  - destruct (grows_handleConnectedNode u ds Hg) as [_ Hk]. auto.
Qed.

Lemma runOps_paired a b s ops :
  Forall (keepsAlive a b) ops →
  ∀ ds, paired a b s ds → paired a b s (runOps ds ops).
Proof.
  unfold runOps. induction 1 as [|op ops Hop _ IH]; intros ds Hp; cbn; [done|].
  apply IH. by apply runOp_paired.
Qed.

(** Every state the registry reaches from the empty one is consistent. *)
Lemma reachable_registry_consistent src ops :
  (∀ n, src n ≠ 0) →
  secretsConsistent (runOps (emptyServer src) ops)
  ∧ uuidsNonNull (runOps (emptyServer src) ops).
Proof. intros Hsrc. by apply runOps_good, emptyServer_good. Qed.

(** C1. For live nodes [a] and [b] (both with linked data) of a registry
    whose stored secrets are consistent (as they are in every state reached
    from the empty registry), [connectionSecretForNodes a b]
    returns a non-null secret, newly generated when none was stored; the
    secret is then stored in [a]'s hash under [b] and in [b]'s hash under
    [a]; after any later run of registry operations that kills neither
    node, a call with the pair in either order returns that same secret and
    changes nothing; and killing any node [k], at any later time, leaves no
    peer with an entry under [k]. *)
Theorem connection_secret_symmetric_stable (a b : QUuid) (ds : DomainServer) :
  secretsConsistent ds → uuidsNonNull ds →
  is_Some (linkedDataOf a ds) → is_Some (linkedDataOf b ds) →
  let s := (connectionSecretForNodes a b ds).1 in
  let ds1 := (connectionSecretForNodes a b ds).2 in
  s ≠ 0
  ∧ (secretFor a b ds = None → s = uuidSource ds (uuidsDrawn ds))
  ∧ secretFor a b ds1 = Some s
  ∧ secretFor b a ds1 = Some s
  ∧ (∀ ops, Forall (keepsAlive a b) ops →
       connectionSecretForNodes a b (runOps ds1 ops) = (s, runOps ds1 ops)
       ∧ connectionSecretForNodes b a (runOps ds1 ops) = (s, runOps ds1 ops))
  ∧ (∀ ops k peer,
       secretFor peer k (killNodeWithUUID k (runOps ds1 ops)) = None).
Proof.
  intros Hinv Hsrc Ha Hb s ds1.
  assert (good ds) as Hg by done.
  destruct (csfn_first a b ds Hg Ha Hb) as (Hnz & Hab & Hba).
  fold s ds1 in Hnz, Hab, Hba.
  assert (good ds1) as Hg1 by (by apply csfn_good).
  split; [assumption|]. split.
  { intros Hnone. subst s.
    assert (generates a b ds = true) as Hgen.
    { unfold generates. destruct Ha as [da Ha], Hb as [db Hb].
      rewrite Ha, Hb. unfold secretFor in Hnone. rewrite Ha in Hnone.
      cbn in Hnone. by rewrite Hnone. }
    by rewrite (csfn_generates _ _ _ Hgen). }
  split; [assumption|]. split; [assumption|]. split.
  - intros ops Hops.
    destruct (runOps_paired a b s ops Hops ds1) as ([Hinv2 _] & Hab2 & Hba2);
      [done|].
    split; by apply csfn_stored.
  - intros ops k peer. apply kill_cleans.
    by apply (runOps_good ops ds1).
Qed.

Lemma connection_secret_symmetric_stable_witness :
  secretsConsistent twoNodes ∧ uuidsNonNull twoNodes
  ∧ is_Some (linkedDataOf 1 twoNodes) ∧ is_Some (linkedDataOf 2 twoNodes)
  ∧ (let s := (connectionSecretForNodes 1 2 twoNodes).1 in
     let ds1 := (connectionSecretForNodes 1 2 twoNodes).2 in
     s ≠ 0
     ∧ (secretFor 1 2 twoNodes = None → s = uuidSource twoNodes (uuidsDrawn twoNodes))
     ∧ secretFor 1 2 ds1 = Some s
     ∧ secretFor 2 1 ds1 = Some s
     ∧ (∀ ops, Forall (keepsAlive 1 2) ops →
          connectionSecretForNodes 1 2 (runOps ds1 ops) = (s, runOps ds1 ops)
          ∧ connectionSecretForNodes 2 1 (runOps ds1 ops) = (s, runOps ds1 ops))
     ∧ (∀ ops k peer,
          secretFor peer k (killNodeWithUUID k (runOps ds1 ops)) = None)).
Proof.
  assert (good twoNodes) as [Hinv Hsrc].
  { apply runOps_good, emptyServer_good. intros n. lia. }
  assert (is_Some (linkedDataOf 1 twoNodes)) as Ha by (vm_compute; eauto).
  assert (is_Some (linkedDataOf 2 twoNodes)) as Hb by (vm_compute; eauto).
  split; [exact Hinv|]. split; [exact Hsrc|].
  split; [exact Ha|]. split; [exact Hb|].
  exact (connection_secret_symmetric_stable 1 2 twoNodes Hinv Hsrc Ha Hb).
Defined.

(** ** countConnectedUsers *)

Lemma countStep_isUser result node :
  countStep result node =
  if isUser node then (result + 1) mod UINT_MAX_PLUS_1 else result.
Proof.
  unfold countStep, isUser. case_decide; [|reflexivity].
  destruct (getLinkedData node) as [d|]; [|reflexivity].
  by destruct (_wasAssigned d).
Qed.

Lemma count_loop (l : list (Z * Node)) :
  ∀ r, foldl countStep r l.*2 mod UINT_MAX_PLUS_1 =
       (r + Z.of_nat (length (filter (λ kv, isUser kv.2) l))) mod UINT_MAX_PLUS_1.
Proof.
  induction l as [|[k n] l IH]; intros r; cbn [fmap list_fmap foldl snd].
  - cbn. f_equal. lia.
  - rewrite IH, countStep_isUser. destruct (isUser n) eqn:Hn.
    + rewrite filter_cons_True by (cbn; by rewrite Hn). cbn [length].
      rewrite Zplus_mod_idemp_l. f_equal. lia.
    + rewrite filter_cons_False by (cbn; rewrite Hn; exact id). reflexivity.
Qed.

Lemma count_loop_range (l : list Node) :
  ∀ r, 0 ≤ r < UINT_MAX_PLUS_1 → 0 ≤ foldl countStep r l < UINT_MAX_PLUS_1.
Proof.
  induction l as [|n l IH]; intros r Hr; cbn [foldl]; [exact Hr|].
  apply IH. rewrite countStep_isUser. destruct (isUser n); [|exact Hr].
  apply Z.mod_pos_bound. reflexivity.
Qed.

Lemma size_filter_map_to_list (P : Z * Node → Prop) `{∀ x, Decision (P x)}
    (m : gmap Z Node) :
  size (filter P m) = length (filter P (map_to_list m)).
Proof.
  induction m as [|i x m Hi IH] using map_ind.
  - by rewrite map_filter_empty, map_size_empty, map_to_list_empty.
  - rewrite (Permutation_length
               (filter_Permutation P _ _ (map_to_list_insert m i x Hi))).
    destruct (decide (P (i, x))) as [HP|HP].
    + rewrite map_filter_insert_True by done.
      rewrite map_size_insert_None by (by apply map_lookup_filter_None_2; left).
      rewrite filter_cons_True by done. cbn. by rewrite IH.
    + rewrite map_filter_insert_False by done.
      rewrite delete_id by done.
      rewrite filter_cons_False by done. exact IH.
Qed.

Lemma countConnectedUsers_mod ds :
  countConnectedUsers ds =
  Z.of_nat (size (filter (λ kv, isUser kv.2) (_nodeHash ds))) mod UINT_MAX_PLUS_1.
Proof.
  rewrite size_filter_map_to_list.
  unfold countConnectedUsers.
  rewrite <- (Z.mod_small (foldl countStep 0 (liveNodes ds)) UINT_MAX_PLUS_1)
    by (apply count_loop_range; done).
  unfold liveNodes. by rewrite count_loop.
Qed.

(** C10. For every registry state (holding fewer than 2^32 nodes, the
    range of the [unsigned int] counter), [countConnectedUsers] is the
    number of live nodes that are of type Agent and whose linked data says
    they were not created from an assignment; a node that is not such a
    user (a worker, an assigned agent, a node without linked data) adds
    nothing to the count. *)
Theorem countConnectedUsers_counts_unassigned_agents (ds : DomainServer) :
  Z.of_nat (size (_nodeHash ds)) < UINT_MAX_PLUS_1 →
  countConnectedUsers ds
  = Z.of_nat (size (filter (λ kv, isUser kv.2) (_nodeHash ds)))
  ∧ (∀ u node, _nodeHash ds !! u = None → isUser node = false →
       countConnectedUsers (set_nodeHash (<[u := node]> (_nodeHash ds)) ds)
       = countConnectedUsers ds)
  ∧ (∀ node, isUser node = true ↔
       getType node = Agent
       ∧ ∃ nodeData, getLinkedData node = Some nodeData
                     ∧ _wasAssigned nodeData = false).
Proof.
  intros Hsize. split; [|split].
  - rewrite countConnectedUsers_mod. apply Z.mod_small.
    pose proof (map_size_filter (λ kv : Z * Node, isUser kv.2) (_nodeHash ds)).
    lia.
  - intros u node Hu Hn. rewrite !countConnectedUsers_mod. cbn [_nodeHash set_nodeHash].
    rewrite map_filter_insert_False by (cbn; rewrite Hn; exact id).
    by rewrite delete_id.
  - intros node. unfold isUser. split.
    + case_decide as Ht; [|done].
      destruct (getLinkedData node) as [d|]; [|done].
      intros Hw. split; [done|]. exists d. split; [done|].
      by destruct (_wasAssigned d).
    + intros [Ht (d & -> & Hw)]. rewrite decide_True by done. by rewrite Hw.
Qed.

Lemma countConnectedUsers_counts_unassigned_agents_witness :
  Z.of_nat (size (_nodeHash twoNodes)) < UINT_MAX_PLUS_1
  ∧ countConnectedUsers twoNodes
    = Z.of_nat (size (filter (λ kv, isUser kv.2) (_nodeHash twoNodes)))
  ∧ countConnectedUsers twoNodes = 1.
Proof.
  assert (Z.of_nat (size (_nodeHash twoNodes)) < UINT_MAX_PLUS_1) as H
    by (vm_compute; reflexivity).
  split; [exact H|]. split.
  - exact (proj1 (countConnectedUsers_counts_unassigned_agents twoNodes H)).
  - vm_compute. reflexivity.
Defined.

(** ** The assignment queue *)


Lemma walkQueue_found deref req before p after :
  Forall (noMatch deref req) before → matchesRequest req (deref p) = true →
  ∀ pos, walkQueue deref req (before ++ p :: after) pos
         = Some ((pos + length before)%nat, p).
Proof.
  induction 1 as [|q l Hq _ IH]; intros Hp pos; cbn.
  - rewrite Hp. do 2 f_equal. lia.
  - unfold noMatch in Hq. rewrite Hq, (IH Hp). do 2 f_equal. lia.
Qed.

Lemma deployable_found req before p after ds :
  _unfulfilledAssignments ds = before ++ p :: after →
  Forall (noMatch (assignmentObjects ds) req) before →
  matchesRequest req (assignmentObjects ds p) = true →
  deployableAssignmentForRequest req ds
  = (Some p, set_unfulfilledAssignments (before ++ after ++ [p]) ds).
Proof.
  intros Hq Hb Hp. unfold deployableAssignmentForRequest.
  rewrite Hq, (walkQueue_found _ _ _ _ _ Hb Hp). cbn [Nat.add].
  by rewrite delete_middle, <- app_assoc.
Qed.



(** A sender outside every allow-listed subnet is ignored. *)
Lemma request_from_disallowed_sender req senderAddr ds :
  existsb (isInSubnet senderAddr) (_acSubnetWhitelist ds) = false →
  processRequestAssignmentPacket req senderAddr ds = ds.
Proof. intros H. unfold processRequestAssignmentPacket. by rewrite H. Qed.



(** *** Respawn of a static assignment *)

Lemma sameAssignments_cleanup u l :
  ∀ ds, sameAssignments ds (foldl (cleanupVisit u) ds l).
Proof.
  induction l as [|k l IH]; intros ds; cbn; [done|].
  destruct (IH (cleanupVisit u ds k)) as (H1 & H2 & H3 & H4).
  unfold sameAssignments. rewrite H1, H2, H3, H4.
  unfold cleanupVisit. by destruct (_nodeHash ds !! k).
Qed.

Lemma nodeKilled_bound_static nodeUUID node nodeData p ds :
  getLinkedData node = Some nodeData →
  _assignmentUUID nodeData ≠ 0 →
  _allAssignments ds !! _assignmentUUID nodeData = Some p →
  a_isStatic (assignmentObjects ds p) = true →
  sameAssignments
    (refreshStaticAssignmentAndAddToQueue p
       (set_allAssignments
          (delete (_assignmentUUID nodeData) (_allAssignments ds)) ds))
    (nodeKilled nodeUUID node ds).
Proof.
  intros Hd Hnz Hp Hstatic. unfold nodeKilled. rewrite Hd.
  apply isNull_false in Hnz. rewrite Hnz. cbn [negb]. rewrite Hp.
  cbn [assignmentObjects set_allAssignments]. rewrite Hstatic.
  match goal with
  | |- sameAssignments ?d (if _ then emit _ (foldl _ ?d ?l) else _) =>
      pose proof (sameAssignments_cleanup nodeUUID l d) as H
  end.
  by destruct (bool_decide (getType node = Agent) && negb (_wasAssigned nodeData)).
Qed.

Lemma refresh_fields p ds :
  let new := uuidSource ds (uuidsDrawn ds) in
  let a := assignmentObjects ds p in
  let ds' := refreshStaticAssignmentAndAddToQueue p ds in
  assignmentObjects ds' = store p (setUUID new a) (assignmentObjects ds)
  ∧ _allAssignments ds' = <[new := p]> (_allAssignments ds)
  ∧ _unfulfilledAssignments ds' = _unfulfilledAssignments ds ++ [p]
  ∧ scriptsDirectory ds' =
      if bool_decide (a_type a = AgentType) && isEmpty (a_payload a)
      then rename (a_uuid a) new (scriptsDirectory ds)
      else scriptsDirectory ds.
Proof.
  unfold refreshStaticAssignmentAndAddToQueue, resetUUID. cbn.
  unfold store. rewrite !decide_True by done. cbn.
  by destruct (bool_decide _ && isEmpty _).
Qed.

(** C4 (as the code has it). When a node bound to a static assignment is
    killed, the assignment object gets a newly generated UUID, the index
    drops the old UUID and holds the assignment under the new one, the
    assignment is appended at the back of the unfulfilled queue, and for an
    Agent assignment with an empty payload the script file named by the old
    UUID is renamed to the new UUID; a later request the assignment is
    eligible for fetches it when no entry queued before it is eligible. *)
Theorem static_assignment_requeued_at_back
    (nodeUUID : QUuid) (node : Node) (nodeData : DomainServerNodeData)
    (p : AssignmentPtr) (ds : DomainServer) :
  getLinkedData node = Some nodeData →
  _assignmentUUID nodeData ≠ 0 →
  _allAssignments ds !! _assignmentUUID nodeData = Some p →
  a_isStatic (assignmentObjects ds p) = true →
  a_uuid (assignmentObjects ds p) = _assignmentUUID nodeData →
  uuidSource ds (uuidsDrawn ds) ≠ _assignmentUUID nodeData →
  let old := _assignmentUUID nodeData in
  let new := uuidSource ds (uuidsDrawn ds) in
  let ds' := nodeKilled nodeUUID node ds in
  assignmentObjects ds' p = setUUID new (assignmentObjects ds p)
  ∧ (∀ q, q ≠ p → assignmentObjects ds' q = assignmentObjects ds q)
  ∧ _allAssignments ds' !! old = None
  ∧ _allAssignments ds' !! new = Some p
  ∧ _unfulfilledAssignments ds' = _unfulfilledAssignments ds ++ [p]
  ∧ (a_type (assignmentObjects ds p) = AgentType →
     a_payload (assignmentObjects ds p) = "" →
     ∀ script, scriptsDirectory ds !! old = Some script →
               scriptsDirectory ds !! new = None →
               scriptsDirectory ds' !! new = Some script
               ∧ scriptsDirectory ds' !! old = None)
  ∧ (∀ req, matchesRequest req (assignmentObjects ds' p) = true →
            Forall (λ q, matchesRequest req (assignmentObjects ds' q) = false)
              (_unfulfilledAssignments ds) →
            (deployableAssignmentForRequest req ds').1 = Some p).
Proof.
  intros Hd Hnz Hp Hstatic Hkey Hfresh old new ds'.
  destruct (nodeKilled_bound_static nodeUUID node nodeData p ds Hd Hnz Hp Hstatic)
    as (Hidx & Hq & Hobj & Hscr).
  fold ds' in Hidx, Hq, Hobj, Hscr.
  destruct (refresh_fields p
              (set_allAssignments (delete old (_allAssignments ds)) ds))
    as (Hobj0 & Hidx0 & Hq0 & Hscr0).
  fold old in Hidx, Hq, Hobj, Hscr.
  rewrite Hobj0 in Hobj. rewrite Hidx0 in Hidx. rewrite Hq0 in Hq.
  rewrite Hscr0 in Hscr. cbn in Hobj, Hidx, Hq, Hscr. fold new in Hobj, Hidx, Hscr.
  rename Hobj into Hobj'. rename Hidx into Hidx'. rename Hq into Hq'.
  split. { rewrite Hobj'. unfold store. by rewrite decide_True. }
  split. { intros q Hne. rewrite Hobj'. unfold store. by rewrite decide_False. }
  split. { rewrite Hidx'. rewrite lookup_insert_ne by done. apply lookup_delete_eq. }
  split. { rewrite Hidx'. apply lookup_insert_eq. }
  split; [exact Hq'|]. split.
  - intros Hty Hpay script Hold Hnew. rewrite Hscr.
    rewrite Hty, Hpay.
    change (bool_decide (AgentType = AgentType) && isEmpty "") with true.
    cbv iota. rewrite Hkey. fold old.
    unfold rename. rewrite Hold, Hnew.
    split; [apply lookup_insert_eq|].
    rewrite lookup_insert_ne by done. apply lookup_delete_eq.
  - intros req Hm Hnone.
    rewrite (deployable_found req (_unfulfilledAssignments ds) p [] ds').
    + reflexivity.
    + exact Hq'.
    + exact Hnone.
    + exact Hm.
Qed.

Lemma static_assignment_requeued_at_back_witness :
  getLinkedData boundWorker = Some (mkNodeData ∅ ∅ 100 true true)
  ∧ _allAssignments respawnState !! 100 = Some 0%nat
  ∧ a_isStatic (assignmentObjects respawnState 0%nat) = true
  ∧ a_uuid (assignmentObjects (nodeKilled 7 boundWorker respawnState) 0%nat) = 200
  ∧ _allAssignments (nodeKilled 7 boundWorker respawnState) !! 100 = None
  ∧ _allAssignments (nodeKilled 7 boundWorker respawnState) !! 200 = Some 0%nat
  ∧ _unfulfilledAssignments (nodeKilled 7 boundWorker respawnState)
    = [1%nat] ++ [0%nat].
Proof.
  assert (_allAssignments respawnState !! 100 = Some 0%nat) as Hp
    by (vm_compute; reflexivity).
  split; [reflexivity|]. split; [exact Hp|]. split; [reflexivity|].
  destruct (static_assignment_requeued_at_back 7 boundWorker
              (mkNodeData ∅ ∅ 100 true true) 0%nat respawnState)
    as (Hobj & _ & Hold & Hnew & Hq & _).
  - reflexivity.
  - cbn. lia.
  - exact Hp.
  - reflexivity.
  - reflexivity.
  - cbn. lia.
  - split; [by rewrite Hobj|]. split; [exact Hold|]. split; [exact Hnew|exact Hq].
Defined.

(** C4 as stated fails: with another audio-mixer assignment (object 1)
    already queued, the respawned one (object 0) is queued behind it, so it
    is not at the front of its type class and the next audio-mixer request
    fetches object 1. *)
Lemma static_assignment_not_at_front_of_type_class :
  let ds' := nodeKilled 7 boundWorker respawnState in
  _unfulfilledAssignments ds' = [1%nat; 0%nat]
  ∧ a_type (assignmentObjects ds' 1%nat) = a_type (assignmentObjects ds' 0%nat)
  ∧ ¬ frontOfTypeClass 0%nat ds'
  ∧ matchesRequest mixerRequest (assignmentObjects ds' 0%nat) = true
  ∧ (deployableAssignmentForRequest mixerRequest ds').1 = Some 1%nat.
Proof.
  assert (_unfulfilledAssignments (nodeKilled 7 boundWorker respawnState)
          = [1%nat; 0%nat]) as Hq by (vm_compute; reflexivity).
  cbv zeta. split; [exact Hq|]. split; [vm_compute; reflexivity|].
  split; [|split; vm_compute; reflexivity].
  intros (before & after & Hsplit & Hfront). rewrite Hq in Hsplit.
  destruct before as [|q before].
  - discriminate Hsplit.
  - injection Hsplit as <- Hrest.
    apply Forall_cons_1 in Hfront as [Hne _]. apply Hne.
    vm_compute. reflexivity.
Qed.

(** ** Interest sets and membership fan-out *)

Lemma sameViews_refl ds : sameViews ds ds.
Proof. by split. Qed.

Lemma sameViews_trans ds1 ds2 ds3 :
  sameViews ds1 ds2 → sameViews ds2 ds3 → sameViews ds1 ds3.
Proof.
  intros [H1 H2] [H3 H4]. split; intros u; [by rewrite H3|by rewrite H4].
Qed.

Lemma sameViews_alter f k ds :
  (∀ d, _nodeInterestSet (f d) = _nodeInterestSet d) →
  sameViews ds (alterLinkedData f k ds).
Proof.
  intros Hf. split; intros u.
  - unfold typeOf, alterLinkedData. cbn. rewrite lookup_alter.
    case_decide; [subst|done]. by destruct (_nodeHash ds !! u).
  - unfold interestOf. rewrite linkedDataOf_alter. case_decide; [|done].
    destruct (linkedDataOf u ds); cbn; [|done]. by rewrite Hf.
Qed.

Lemma sameViews_csfn a b ds : sameViews ds (connectionSecretForNodes a b ds).2.
Proof.
  destruct (generates a b ds) eqn:Hg.
  - rewrite (csfn_generates _ _ _ Hg). cbn [snd].
    eapply sameViews_trans; [|by apply sameViews_alter].
    eapply sameViews_trans; [|by apply sameViews_alter].
    by split.
  - rewrite csfn_state_keeps by done. apply sameViews_refl.
Qed.

Lemma sameViews_emit e ds ds' : sameViews ds ds' → sameViews ds (emit e ds').
Proof. intros [H1 H2]. split; intros u; [exact (H1 u)|exact (H2 u)]. Qed.

Lemma outbox_csfn a b ds : outbox (connectionSecretForNodes a b ds).2 = outbox ds.
Proof.
  destruct (generates a b ds) eqn:Hg.
  - by rewrite (csfn_generates _ _ _ Hg).
  - by rewrite csfn_state_keeps.
Qed.

Lemma wanted_sameViews ds ds' node peer :
  sameViews ds ds' → wanted ds' node peer → wanted ds node peer.
Proof.
  intros [Ht Hi] (Hne & t & s & H1 & H2 & H3). split; [done|].
  exists t, s. by rewrite <- Ht, <- Hi.
Qed.

Lemma isInInterestSet_wanted ds node peer n o :
  _nodeHash ds !! node = Some n → _nodeHash ds !! peer = Some o →
  peer ≠ node → isInInterestSet n o = true → wanted ds node peer.
Proof.
  intros Hn Ho Hne Hin. split; [done|].
  unfold isInInterestSet in Hin.
  destruct (getLinkedData n) as [d|] eqn:Hd; [|discriminate].
  apply bool_decide_eq_true in Hin.
  exists (getType o), (_nodeInterestSet d). split; [|split; [|done]].
  - unfold typeOf. by rewrite Ho.
  - unfold interestOf, linkedDataOf. rewrite Hn. cbn. by rewrite Hd.
Qed.

Lemma domainListVisit_inv node acc other :
  sameViews acc.2 (domainListVisit node acc other).2
  ∧ outbox (domainListVisit node acc other).2 = outbox acc.2
  ∧ ∀ e, e ∈ (domainListVisit node acc other).1 →
         e ∈ acc.1 ∨ wanted acc.2 node e.1.
Proof.
  destruct acc as [entries ds]. unfold domainListVisit. cbn [fst snd].
  destruct (_nodeHash ds !! node) as [n|] eqn:Hn;
    [|split; [apply sameViews_refl|split; [done|auto]]].
  destruct (_nodeHash ds !! other) as [o|] eqn:Ho;
    [|split; [apply sameViews_refl|split; [done|auto]]].
  destruct (bool_decide (other ≠ node) && isInInterestSet n o) eqn:Hc;
    [|split; [apply sameViews_refl|split; [done|auto]]].
  apply andb_true_iff in Hc as [Hne Hin]. apply bool_decide_eq_true in Hne.
  pose proof (sameViews_csfn node other ds) as Hv.
  pose proof (outbox_csfn node other ds) as Hout.
  destruct (connectionSecretForNodes node other ds) as [secret ds'].
  cbn [fst snd] in *. split; [done|]. split; [done|].
  intros e He. apply elem_of_app in He as [He|He]; [by left|].
  apply list_elem_of_singleton in He as ->. right. cbn.
  by eapply isInInterestSet_wanted.
Qed.

Lemma domainList_loop_inv node l :
  ∀ acc,
    sameViews acc.2 (foldl (domainListVisit node) acc l).2
    ∧ outbox (foldl (domainListVisit node) acc l).2 = outbox acc.2
    ∧ ∀ e, e ∈ (foldl (domainListVisit node) acc l).1 →
           e ∈ acc.1 ∨ wanted acc.2 node e.1.
Proof.
  induction l as [|x l IH]; intros acc; cbn [foldl].
  - split; [apply sameViews_refl|]. split; [done|auto].
  - destruct (IH (domainListVisit node acc x)) as (Hv & Hout & He).
    destruct (domainListVisit_inv node acc x) as (Hv1 & Hout1 & He1).
    split; [by eapply sameViews_trans|]. split; [congruence|].
    intros e Hin. destruct (He e Hin) as [Hold|Hw].
    + auto.
    + right. by eapply wanted_sameViews.
Qed.

(** The packet [sendDomainListToNode] sends: every entry is another node
    whose type is in the stored interest set of the receiver. *)
Lemma sendDomainListToNode_entries node ds :
  is_Some (linkedDataOf node ds) →
  sameViews ds (sendDomainListToNode node ds)
  ∧ ∃ entries,
      outbox (sendDomainListToNode node ds) = outbox ds ++ [DomainList node entries]
      ∧ ∀ e, e ∈ entries → wanted ds node e.1.
Proof.
  intros [d Hd]. unfold sendDomainListToNode. rewrite Hd.
  destruct (bool_decide (0 < size (_nodeInterestSet d))%nat && _isAuthenticated d).
  - destruct (domainList_loop_inv node (liveUUIDs ds) ([], ds)) as (Hv & Hout & He).
    destruct (foldl (domainListVisit node) ([], ds) (liveUUIDs ds))
      as [entries ds'].
    cbn [fst snd] in *. split; [by apply sameViews_emit|]. exists entries. cbn.
    split; [by rewrite Hout|].
    intros e Hin. destruct (He e Hin) as [Hnil|Hw]; [|done].
    by apply elem_of_nil in Hnil.
  - split; [apply sameViews_emit, sameViews_refl|]. exists []. split; [done|].
    intros e Hin. by apply elem_of_nil in Hin.
Qed.

Lemma broadcastVisit_inv added ds node :
  sameViews ds (broadcastVisit added ds node)
  ∧ ∀ e, e ∈ outbox (broadcastVisit added ds node) →
         e ∈ outbox ds
         ∨ ∃ secret, e = DomainServerAddedNode node added secret
                     ∧ wanted ds node added.
Proof.
  unfold broadcastVisit.
  destruct (_nodeHash ds !! node) as [n|] eqn:Hn;
    [|split; [apply sameViews_refl|auto]].
  destruct (_nodeHash ds !! added) as [a|] eqn:Ha;
    [|split; [apply sameViews_refl|auto]].
  destruct (bool_decide (is_Some (getLinkedData n)) && getActiveSocket n
            && bool_decide (node ≠ added) && isInInterestSet n a) eqn:Hc;
    [|split; [apply sameViews_refl|auto]].
  apply andb_true_iff in Hc as [Hc Hin]. apply andb_true_iff in Hc as [_ Hne].
  apply bool_decide_eq_true in Hne.
  pose proof (sameViews_csfn node added ds) as Hv.
  pose proof (outbox_csfn node added ds) as Hout.
  destruct (connectionSecretForNodes node added ds) as [secret ds'].
  cbn [fst snd] in *. split; [by apply sameViews_emit|].
  intros e He. cbn in He. rewrite Hout in He.
  apply elem_of_app in He as [He|He]; [by left|].
  apply list_elem_of_singleton in He as ->. right. exists secret.
  split; [done|]. split; [done|].
  unfold isInInterestSet in Hin.
  destruct (getLinkedData n) as [d|] eqn:Hd; [|discriminate].
  apply bool_decide_eq_true in Hin.
  exists (getType a), (_nodeInterestSet d). split; [|split; [|done]].
  - unfold typeOf. by rewrite Ha.
  - unfold interestOf, linkedDataOf. rewrite Hn. cbn. by rewrite Hd.
Qed.

Lemma broadcastNewNode_events added ds :
  ∀ e, e ∈ outbox (broadcastNewNode added ds) →
       e ∈ outbox ds
       ∨ ∃ node secret, e = DomainServerAddedNode node added secret
                        ∧ wanted ds node added.
Proof.
  unfold broadcastNewNode. generalize (liveUUIDs ds) as l.
  intros l. revert ds. induction l as [|x l IH]; intros ds e; cbn [foldl].
  - auto.
  - intros He. destruct (broadcastVisit_inv added ds x) as [Hv Hx].
    destruct (IH _ _ He) as [Hold|(node & secret & -> & Hw)].
    + destruct (Hx _ Hold) as [?|(secret & -> & Hw)]; [by left|].
      right. eauto.
    + right. exists node, secret. split; [done|].
      destruct Hw as (Hne & t & s & H1 & H2 & H3). split; [done|].
      destruct Hv as [Ht Hi]. exists t, s. by rewrite <- Ht, <- Hi.
Qed.

(** C5 (as the code has it). When an Agent-type node declares an interest
    list, Agent is removed from it before it is stored; the DomainList the
    node is then sent holds only other nodes, none of them of type Agent,
    each of a type the node declared; and a later [broadcastNewNode] for an
    Agent-type node sends the declaring agent no DomainServerAddedNode. *)
Theorem agent_interest_in_agents_is_stripped
    (interestList : list NodeType_t) (a : QUuid) (ds : DomainServer) :
  typeOf ds a = Some Agent → is_Some (linkedDataOf a ds) →
  let ds' := processListRequestPacket interestList a ds in
  interestOf ds' a = Some (list_to_set interestList ∖ {[Agent]})
  ∧ (∃ entries,
       outbox ds' = outbox ds ++ [DomainList a entries]
       ∧ ∀ peer secret, (peer, secret) ∈ entries →
           peer ≠ a
           ∧ ∃ t, typeOf ds peer = Some t ∧ t ≠ Agent ∧ t ∈ interestList)
  ∧ (∀ b, typeOf ds' b = Some Agent →
       ∀ secret,
         DomainServerAddedNode a b secret ∈ outbox (broadcastNewNode b ds') →
         DomainServerAddedNode a b secret ∈ outbox ds').
Proof.
  intros Hty [d Hd] ds'. subst ds'. unfold processListRequestPacket.
  unfold typeOf in Hty.
  destruct (_nodeHash ds !! a) as [n|] eqn:Hn; [|discriminate].
  injection Hty as Hty. rewrite Hty. rewrite bool_decide_eq_true_2 by done.
  set (safe := list_to_set interestList ∖ {[Agent]} : gset NodeType_t).
  set (ds1 := alterLinkedData (setNodeInterestSet safe) a ds).
  assert (interestOf ds1 a = Some safe) as Hi1.
  { unfold interestOf, ds1. rewrite linkedDataOf_alter, decide_True by done.
    by rewrite Hd. }
  assert (∀ u, typeOf ds1 u = typeOf ds u) as Ht1.
  { intros u. unfold typeOf, ds1, alterLinkedData. cbn. rewrite lookup_alter.
    case_decide; [subst|done]. by rewrite Hn. }
  assert (is_Some (linkedDataOf a ds1)) as Hsome.
  { unfold ds1. rewrite linkedDataOf_alter, decide_True by done.
    rewrite Hd. by eexists. }
  destruct (sendDomainListToNode_entries a ds1 Hsome)
    as ([Htv Hiv] & entries & Hout & Hent).
  split; [by rewrite Hiv|]. split.
  - exists entries. split; [exact Hout|].
    intros peer secret Hin.
    destruct (Hent _ Hin) as (Hne & t & s & H1 & H2 & H3). cbn in *.
    split; [done|]. exists t. rewrite <- Ht1. split; [done|].
    rewrite Hi1 in H2. injection H2 as <-.
    unfold safe in H3. apply elem_of_difference in H3 as [Hin3 Hnot3].
    split; [|by apply elem_of_list_to_set in Hin3].
    intros ->. apply Hnot3. by apply elem_of_singleton.
  - intros b Hb secret Hin.
    destruct (broadcastNewNode_events b _ _ Hin)
      as [?|(node & secret' & Heq & Hw)]; [done|].
    injection Heq as <- <-. exfalso.
    destruct Hw as (_ & t & s & H1 & H2 & H3).
    rewrite Hb in H1. injection H1 as <-.
    rewrite Hiv, Hi1 in H2. injection H2 as <-.
    apply elem_of_difference in H3 as [_ Hnot]. apply Hnot.
    by apply elem_of_singleton.
Qed.

Lemma agent_interest_in_agents_is_stripped_witness :
  typeOf twoNodes 1 = Some Agent ∧ is_Some (linkedDataOf 1 twoNodes)
  ∧ interestOf (processListRequestPacket [AvatarMixer; Agent] 1 twoNodes) 1
    = Some (list_to_set [AvatarMixer; Agent] ∖ {[Agent]}).
Proof.
  assert (typeOf twoNodes 1 = Some Agent) as Ht by (vm_compute; reflexivity).
  assert (is_Some (linkedDataOf 1 twoNodes)) as Hd by (vm_compute; eauto).
  split; [exact Ht|]. split; [exact Hd|].
  exact (proj1 (agent_interest_in_agents_is_stripped
                  [AvatarMixer; Agent] 1 twoNodes Ht Hd)).
Defined.

(** C5 as stated fails: two agents that each declare {AvatarMixer, Agent}
    are sent empty DomainLists, and no DomainServerAddedNode goes out when
    the second is announced. *)
Lemma two_agents_do_not_hear_of_each_other :
  typeOf twoAgentsMeet 1 = Some Agent ∧ typeOf twoAgentsMeet 2 = Some Agent
  ∧ outbox twoAgentsMeet
    = [DomainList 1 []; DomainList 2 []; DomainList 2 []; userConnected;
       DomainList 1 []]
  ∧ ¬ (∃ entries secret,
         DomainList 1 entries ∈ outbox twoAgentsMeet ∧ (2, secret) ∈ entries)
  ∧ ¬ (∃ secret, DomainServerAddedNode 1 2 secret ∈ outbox twoAgentsMeet).
Proof.
  assert (outbox twoAgentsMeet
          = [DomainList 1 []; DomainList 2 []; DomainList 2 []; userConnected;
             DomainList 1 []]) as Hout by (vm_compute; reflexivity).
  split; [vm_compute; reflexivity|]. split; [vm_compute; reflexivity|].
  split; [exact Hout|]. rewrite Hout. split.
  - intros (entries & secret & Hin & Hentry).
    repeat (apply elem_of_cons in Hin as [Hin|Hin];
            [try discriminate Hin;
             injection Hin as ->; by apply elem_of_nil in Hentry|]).
    by apply elem_of_nil in Hin.
  - intros (secret & Hin).
    repeat (apply elem_of_cons in Hin as [Hin|Hin]; [discriminate Hin|]).
    by apply elem_of_nil in Hin.
Qed.

(** Where the stored interest sets allow it the pair does meet: an agent
    interested in avatar mixers and a mixer interested in agents are sent
    each other, with one and the same secret. *)
Lemma agent_and_mixer_share_secret :
  outbox agentMeetsMixer = [DomainList 1 [(3, 1)]; DomainList 3 [(1, 1)]].
Proof. vm_compute. reflexivity. Qed.

End RegistryProofs.

Module IceProofs.
Import Ice.

(** Projections of the engine's state through its field updates. *)
Ltac ice_fields :=
  cbn [_sendICEServerAddressToMetaverseAPIInProgress iceLog lookupPending
       _connectedToICEServer negb orb set_numHeartbeatDenials
       set_iceServerSocket set_draws set_failedIceServerAddresses set_redo
       record set_lookupPending set_inProgress set_connectedToICEServer
       set_noReplyICEHeartbeats].

(** ** Heartbeats without failover *)

Lemma heartbeat_plain fuel st a :
  getAddress (_iceServerSocket st) = Some a → hasPrivateKey st = true →
  _noReplyICEHeartbeats st + 1 ≤ FAILOVER_NO_REPLY_ICE_HEARTBEATS →
  sendHeartbeatToIceServer (S fuel) st
  = Some (record (SentHeartbeat (_iceServerSocket st))
            (set_noReplyICEHeartbeats (_noReplyICEHeartbeats st + 1) st)).
Proof.
  intros Ha Hk Hn. cbn [sendHeartbeatToIceServer].
  rewrite Ha, bool_decide_eq_false_2 by done. cbn [negb]. rewrite Hk. cbn [negb].
  cbn [_noReplyICEHeartbeats set_noReplyICEHeartbeats].
  assert ((FAILOVER_NO_REPLY_ICE_HEARTBEATS <? _noReplyICEHeartbeats st + 1) = false)
    as -> by (apply Z.ltb_ge; lia).
  reflexivity.
Qed.

(** ** Choosing a candidate *)

Lemma candidatesOf_subset addresses failed a :
  a ∈ candidatesOf addresses failed → a ∈ addresses ∧ a ∉ failed.
Proof. unfold candidatesOf. rewrite list_elem_of_filter. tauto. Qed.

Lemma failoverCandidates_spec st current :
  _iceServerAddresses st ≠ [] →
  let failed1 := _failedIceServerAddresses st ∪ {[current]} in
  let '(candidates, failed) := failoverCandidates st current in
  candidates ≠ []
  ∧ (∀ a, a ∈ candidates → a ∈ _iceServerAddresses st)
  ∧ ((∃ a, a ∈ _iceServerAddresses st ∧ a ∉ failed1) →
     failed = failed1 ∧ ∀ a, a ∈ candidates ↔ a ∈ _iceServerAddresses st ∧ a ∉ failed1)
  ∧ ((∀ a, a ∈ _iceServerAddresses st → a ∈ failed1) →
     failed = ∅ ∧ candidates = _iceServerAddresses st).
Proof.
  intros Hne failed1. unfold failoverCandidates. fold failed1.
  destruct (candidatesOf (_iceServerAddresses st) failed1) as [|c cs] eqn:Hc.
  - split; [done|]. split; [done|]. split; [|done].
    intros (a & Ha & Hnot). exfalso.
    assert (a ∈ candidatesOf (_iceServerAddresses st) failed1) as Hin
      by (unfold candidatesOf; apply list_elem_of_filter; tauto).
    rewrite Hc in Hin. by apply elem_of_nil in Hin.
  - split; [done|]. split.
    { intros a Ha. rewrite <- Hc in Ha.
      apply candidatesOf_subset in Ha as [Ha _]. exact Ha. }
    split.
    + intros _. split; [done|]. intros a. rewrite <- Hc.
      unfold candidatesOf. rewrite list_elem_of_filter. tauto.
    + intros Hall. exfalso.
      assert (c ∈ candidatesOf (_iceServerAddresses st) failed1) as Hin
        by (rewrite Hc; constructor).
      apply candidatesOf_subset in Hin as [Hin Hnot]. by apply Hnot, Hall.
Qed.

Lemma failoverIndex_in_range st candidates :
  candidates ≠ [] → (∀ k m, distribution st k m ≤ m)%nat →
  (failoverIndex st candidates < length candidates)%nat.
Proof.
  intros Hne Hdist. unfold failoverIndex.
  destruct candidates as [|c cs]; [done|]. cbn [length].
  destruct (0 <? Z.of_nat (S (length cs)) - 1) eqn:Hlt.
  - pose proof (Hdist (draws st) (Z.to_nat (Z.of_nat (S (length cs)) - 1))). lia.
  - lia.
Qed.

Lemma heartbeat_failover_unfold (fuel : nat) (st : IceState) (current : Z) :
  getAddress (_iceServerSocket st) = Some current →
  hasPrivateKey st = true →
  _noReplyICEHeartbeats st = 3 →
  sendHeartbeatToIceServer (S fuel) st =
    st2 ← randomizeICEServerAddressWith (sendHeartbeatToIceServer fuel) true
        (sendICEServerAddressToMetaverseAPI
           (set_connectedToICEServer false
              (set_noReplyICEHeartbeats 0
                 (set_iceServerSocket clearedSocket
                    (set_failedIceServerAddresses
                       (_failedIceServerAddresses st ∪ {[Some current]})
                       (set_noReplyICEHeartbeats 4 st))))));
    Some (record (SentHeartbeat (_iceServerSocket st2)) st2).
Proof.
  intros Ha Hk Hn. cbn [sendHeartbeatToIceServer].
  rewrite Ha, bool_decide_eq_false_2 by done. cbn [negb]. rewrite Hk. cbn [negb].
  cbn [_noReplyICEHeartbeats set_noReplyICEHeartbeats _iceServerSocket
       _failedIceServerAddresses]. rewrite Hn, Ha.
  change (FAILOVER_NO_REPLY_ICE_HEARTBEATS <? 3 + 1) with true. cbv iota.
  reflexivity.
Qed.

Lemma randomize_unfold hb st :
  randomizeICEServerAddressWith hb true st =
  st3 ← hb (chosen st); Some (sendICEServerAddressToMetaverseAPI st3).
Proof.
  unfold randomizeICEServerAddressWith, chosen, failoverIndex,
    updateICEServerAddresses.
  destruct st as [sock addrs failed0 noReply denials connected inProgress redo
                    pending key sess dist drawn log].
  cbn [lookupPending _iceServerAddresses _failedIceServerAddresses].
  destruct pending;
    cbn [_iceServerAddresses _failedIceServerAddresses record set_lookupPending
         lookupPending distribution draws];
    (destruct (candidatesOf addrs failed0) as [|c cs];
     cbn [fst snd _iceServerAddresses _failedIceServerAddresses
          set_failedIceServerAddresses distribution draws];
     match goal with
     | |- context [0 <? ?m] => destruct (0 <? m)
     end; reflexivity).
Qed.

(** C2 (as the code has it). With a selected ICE address, a private key
    and three heartbeats sent without reply, the next heartbeat tick adds
    the current address to the failed set, clears the failed set when every
    resolved address is in it, picks the candidate at the position drawn by
    the uniform distribution over the candidate list (the resolved
    addresses not in the failed set, or all of them after a clearing),
    resets the denial counter, and sets the no-reply counter to zero before
    the heartbeat fired at once at the new candidate counts as the first
    one without reply.  The metaverse is not told the new address on that
    tick: the update sent (unless one is in flight) carries 0.0.0.0, a redo
    is left pending, and the new address is sent once the new server has
    acknowledged a heartbeat and the pending update has completed. *)
Theorem ice_failover_on_tick_after_three_silent_heartbeats
    (fuel : nat) (st : IceState) (current : Z) :
  getAddress (_iceServerSocket st) = Some current →
  hasPrivateKey st = true →
  _noReplyICEHeartbeats st = 3 →
  _iceServerAddresses st ≠ [] →
  Forall (λ a, a ≠ None) (_iceServerAddresses st) →
  (∀ k m, distribution st k m ≤ m)%nat →
  let failed1 := _failedIceServerAddresses st ∪ {[Some current]} in
  let candidates := (failoverCandidates st (Some current)).1 in
  let i := failoverIndex st candidates in
  ∃ st' new,
    sendHeartbeatToIceServer (S (S fuel)) st = Some st'
    ∧ candidates !! i = Some (Some new)
    ∧ _iceServerSocket st' = mkSockAddr (Some new) ICE_SERVER_DEFAULT_PORT
    ∧ ((∃ a, a ∈ _iceServerAddresses st ∧ a ∉ failed1) →
       _failedIceServerAddresses st' = failed1
       ∧ ∀ a, a ∈ candidates ↔ a ∈ _iceServerAddresses st ∧ a ∉ failed1)
    ∧ ((∀ a, a ∈ _iceServerAddresses st → a ∈ failed1) →
       _failedIceServerAddresses st' = ∅ ∧ candidates = _iceServerAddresses st)
    ∧ _noReplyICEHeartbeats st' = 1
    ∧ _numHeartbeatDenials st' = 0
    ∧ _connectedToICEServer st' = false
    ∧ _sendICEServerAddressToMetaverseAPIInProgress st' = true
    ∧ _sendICEServerAddressToMetaverseAPIRedo st' = true
    ∧ iceLog st'
      = iceLog st
        ++ (if _sendICEServerAddressToMetaverseAPIInProgress st then []
            else [PutIceServerAddress ZeroAddress])
        ++ (if lookupPending st then [] else [LookupHost])
        ++ [SentHeartbeat (mkSockAddr (Some new) ICE_SERVER_DEFAULT_PORT);
            SentHeartbeat (mkSockAddr (Some new) ICE_SERVER_DEFAULT_PORT)]
    ∧ iceLog (handleSuccessfulICEServerAddressUpdate
                (processICEServerHeartbeatACK st'))
      = iceLog st' ++ [PutIceServerAddress (AddressString (Some new))].
Proof.
  intros Ha Hk Hn Hne Hnn Hdist failed1 candidates i.
  pose proof (failoverCandidates_spec st (Some current) Hne) as Hcand.
  subst candidates i failed1.
  destruct (failoverCandidates st (Some current)) as [candidates failed] eqn:Hfc.
  cbn [fst]. destruct Hcand as (Hcne & Hsub & Hsome & Hall).
  pose proof (failoverIndex_in_range st candidates Hcne Hdist) as Hidx.
  destruct (lookup_lt_is_Some_2 candidates _ Hidx) as [x Hx].
  assert (∃ new, x = Some new) as [new ->].
  { assert (x ∈ _iceServerAddresses st) as Hin.
    { apply Hsub. by eapply list_elem_of_lookup_2. }
    rewrite Forall_forall in Hnn. specialize (Hnn x Hin).
    destruct x as [new|]; [by exists new|done]. }
  rewrite (heartbeat_failover_unfold (S fuel) st current Ha Hk Hn).
  rewrite randomize_unfold.
  set (st1 := sendICEServerAddressToMetaverseAPI _).
  assert (chosenCandidates :
    match candidatesOf (_iceServerAddresses st1) (_failedIceServerAddresses st1) with
    | [] => (_iceServerAddresses st1, ∅)
    | c => (c, _failedIceServerAddresses st1)
    end = (candidates, failed)).
  { rewrite <- Hfc. unfold failoverCandidates, st1, sendICEServerAddressToMetaverseAPI.
    by destruct (_sendICEServerAddressToMetaverseAPIInProgress _). }
  assert (failoverIndex st1 candidates = failoverIndex st candidates) as Hi1.
  { unfold failoverIndex, st1, sendICEServerAddressToMetaverseAPI.
    by destruct (_sendICEServerAddressToMetaverseAPIInProgress _). }
  assert (_iceServerSocket (chosen st1)
          = mkSockAddr (Some new) ICE_SERVER_DEFAULT_PORT) as Hsock.
  { unfold chosen. cbn [_iceServerSocket set_numHeartbeatDenials set_iceServerSocket].
    rewrite chosenCandidates. cbn [fst]. by rewrite Hi1, Hx. }
  assert (hasPrivateKey (chosen st1) = true) as Hk1.
  { unfold chosen, updateICEServerAddresses, st1, sendICEServerAddressToMetaverseAPI.
    rewrite <- Hk.
    by destruct (_sendICEServerAddressToMetaverseAPIInProgress _),
         (lookupPending _), (0 <? _). }
  assert (_noReplyICEHeartbeats (chosen st1) = 0) as Hn1.
  { unfold chosen, updateICEServerAddresses, st1, sendICEServerAddressToMetaverseAPI.
    by destruct (_sendICEServerAddressToMetaverseAPIInProgress _),
         (lookupPending _), (0 <? _). }
  assert (_failedIceServerAddresses (chosen st1) = failed) as Hf1.
  { unfold chosen. destruct (0 <? _);
      cbn [_failedIceServerAddresses set_numHeartbeatDenials set_iceServerSocket
           set_draws set_failedIceServerAddresses];
      by rewrite chosenCandidates. }
  assert (_numHeartbeatDenials (chosen st1) = 0) as Hd1 by reflexivity.
  assert (_connectedToICEServer (chosen st1) = false) as Hc1.
  { unfold chosen, updateICEServerAddresses, st1, sendICEServerAddressToMetaverseAPI.
    by destruct (_sendICEServerAddressToMetaverseAPIInProgress _),
         (lookupPending _), (0 <? _). }
  assert (_sendICEServerAddressToMetaverseAPIInProgress (chosen st1) = true) as Hp1.
  { unfold chosen, updateICEServerAddresses, st1, sendICEServerAddressToMetaverseAPI.
    ice_fields.
    destruct (_sendICEServerAddressToMetaverseAPIInProgress st) eqn:Hp;
      ice_fields;
      destruct (lookupPending st) eqn:Hq;
      ice_fields;
      destruct (0 <? _);
      ice_fields;
      rewrite ?Hp; reflexivity. }
  assert (iceLog (chosen st1)
          = iceLog st
            ++ (if _sendICEServerAddressToMetaverseAPIInProgress st then []
                else [PutIceServerAddress ZeroAddress])
            ++ (if lookupPending st then [] else [LookupHost])) as Hl1.
  { unfold chosen, updateICEServerAddresses, st1, sendICEServerAddressToMetaverseAPI.
    ice_fields.
    destruct (_sendICEServerAddressToMetaverseAPIInProgress st) eqn:Hp;
      ice_fields;
      destruct (lookupPending st) eqn:Hq;
      ice_fields;
      destruct (0 <? _);
      ice_fields;
      rewrite <- ?app_assoc, ?app_nil_r; reflexivity. }
  rewrite (heartbeat_plain fuel (chosen st1) new)
    by (rewrite ?Hsock, ?Hn1; done).
  rewrite Hsock, Hn1. cbn [mbind option_bind].
  generalize dependent (chosen st1). intros ch Hsock Hk1 Hn1 Hf1 Hd1 Hc1 Hp1 Hl1.
  assert (∀ s, _sendICEServerAddressToMetaverseAPIInProgress s = true →
               sendICEServerAddressToMetaverseAPI s = set_redo true s) as Hbusy.
  { intros s Hs. unfold sendICEServerAddressToMetaverseAPI. by rewrite Hs. }
  rewrite Hbusy by exact Hp1.
  eexists. exists new. split; [reflexivity|]. split; [exact Hx|].
  cbn [_iceServerSocket _failedIceServerAddresses _noReplyICEHeartbeats
       _numHeartbeatDenials _connectedToICEServer
       _sendICEServerAddressToMetaverseAPIInProgress
       _sendICEServerAddressToMetaverseAPIRedo iceLog
       record set_redo set_noReplyICEHeartbeats].
  rewrite Hsock, Hf1, Hd1, Hc1, Hp1, Hl1.
  split; [reflexivity|]. split; [exact Hsome|]. split; [exact Hall|].
  split; [reflexivity|]. split; [reflexivity|]. split; [reflexivity|].
  split; [reflexivity|]. split; [reflexivity|].
  split; [rewrite <- !app_assoc; reflexivity|].
  unfold handleSuccessfulICEServerAddressUpdate, processICEServerHeartbeatACK.
  cbn [_connectedToICEServer set_noReplyICEHeartbeats record set_redo].
  rewrite Hc1. cbn [negb].
  rewrite Hbusy by exact Hp1.
  cbn [_sendICEServerAddressToMetaverseAPIRedo set_inProgress set_redo
       set_connectedToICEServer set_noReplyICEHeartbeats record].
  unfold sendICEServerAddressToMetaverseAPI.
  cbn [_sendICEServerAddressToMetaverseAPIInProgress set_inProgress set_redo
       set_connectedToICEServer set_noReplyICEHeartbeats record
       _connectedToICEServer _iceServerSocket iceLog negb orb].
  rewrite Hsock, Hl1. reflexivity.
Qed.

Lemma ice_failover_on_tick_after_three_silent_heartbeats_witness :
  getAddress (_iceServerSocket silentFirst) = Some 10
  ∧ hasPrivateKey silentFirst = true
  ∧ _noReplyICEHeartbeats silentFirst = 3
  ∧ (∀ k m, distribution silentFirst k m ≤ m)%nat
  ∧ ∃ st' new,
      sendHeartbeatToIceServer 2 silentFirst = Some st'
      ∧ _iceServerSocket st' = mkSockAddr (Some new) ICE_SERVER_DEFAULT_PORT
      ∧ _noReplyICEHeartbeats st' = 1
      ∧ _numHeartbeatDenials st' = 0
      ∧ _sendICEServerAddressToMetaverseAPIRedo st' = true.
Proof.
  assert (∀ k m, distribution silentFirst k m ≤ m)%nat as Hdist
    by (intros k m; change (Nat.min 1 m ≤ m)%nat; apply Nat.le_min_r).
  split; [reflexivity|]. split; [reflexivity|]. split; [reflexivity|].
  split; [exact Hdist|].
  destruct (ice_failover_on_tick_after_three_silent_heartbeats 0 silentFirst 10)
    as (st' & new & Hrun & _ & Hsock & _ & _ & Hn & Hd & _ & _ & Hredo & _).
  - reflexivity.
  - reflexivity.
  - reflexivity.
  - discriminate.
  - repeat constructor; discriminate.
  - exact Hdist.
  - exists st', new. repeat split; assumption.
Defined.

(** C2 as stated fails on two counts: after the failover tick the no-reply
    counter is 1, not 0, and no update carrying the new address has been
    sent to the metaverse (the one sent carries 0.0.0.0). *)
Lemma ice_failover_tick_leaves_counter_one_and_no_announcement :
  ∃ st',
    sendHeartbeatToIceServer 2 silentFirst = Some st'
    ∧ _iceServerSocket st' = mkSockAddr (Some 30) ICE_SERVER_DEFAULT_PORT
    ∧ _noReplyICEHeartbeats st' ≠ 0
    ∧ (PutIceServerAddress (AddressString (Some 30)) ∉ iceLog st')
    ∧ iceLog st'
      = [PutIceServerAddress ZeroAddress; LookupHost;
         SentHeartbeat (mkSockAddr (Some 30) ICE_SERVER_DEFAULT_PORT);
         SentHeartbeat (mkSockAddr (Some 30) ICE_SERVER_DEFAULT_PORT)].
Proof.
  eexists. split; [vm_compute; reflexivity|].
  split; [reflexivity|]. split; [discriminate|].
  split; [|reflexivity].
  cbn [iceLog]. intros Hin.
  repeat (apply elem_of_cons in Hin as [Hin|Hin]; [discriminate Hin|]).
  by apply elem_of_nil in Hin.
Qed.

(** ** Heartbeat denials *)

(** C3, evaluated on the code: from a denial counter of zero, three
    denials leave the counter at 3 and regenerate nothing; the keypair is
    regenerated, and the counter reset, by the fourth. *)
Theorem keypair_regenerated_on_fourth_denial (st : IceState) :
  _numHeartbeatDenials st = 0 →
  let st3 :=
    processICEServerHeartbeatDenialPacket
      (processICEServerHeartbeatDenialPacket
         (processICEServerHeartbeatDenialPacket st)) in
  iceLog st3 = iceLog st
  ∧ _numHeartbeatDenials st3 = 3
  ∧ iceLog (processICEServerHeartbeatDenialPacket st3)
    = iceLog st ++ [GenerateNewDomainKeypair (sessionUUID st)]
  ∧ _numHeartbeatDenials (processICEServerHeartbeatDenialPacket st3) = 0.
Proof.
  intros H0. unfold processICEServerHeartbeatDenialPacket.
  cbn [_numHeartbeatDenials set_numHeartbeatDenials set_noReplyICEHeartbeats
       iceLog record sessionUUID].
  rewrite H0.
  change (NUM_HEARTBEAT_DENIALS_FOR_KEYPAIR_REGEN <? 0 + 1) with false.
  cbn [_numHeartbeatDenials set_numHeartbeatDenials set_noReplyICEHeartbeats
       iceLog record sessionUUID].
  change (NUM_HEARTBEAT_DENIALS_FOR_KEYPAIR_REGEN <? 0 + 1 + 1) with false.
  cbn [_numHeartbeatDenials set_numHeartbeatDenials set_noReplyICEHeartbeats
       iceLog record sessionUUID].
  change (NUM_HEARTBEAT_DENIALS_FOR_KEYPAIR_REGEN <? 0 + 1 + 1 + 1) with false.
  cbn [_numHeartbeatDenials set_numHeartbeatDenials set_noReplyICEHeartbeats
       iceLog record sessionUUID].
  change (NUM_HEARTBEAT_DENIALS_FOR_KEYPAIR_REGEN <? 0 + 1 + 1 + 1 + 1) with true.
  cbn [_numHeartbeatDenials set_numHeartbeatDenials set_noReplyICEHeartbeats
       iceLog record sessionUUID].
  repeat split; reflexivity.
Qed.

Lemma keypair_regenerated_on_fourth_denial_witness :
  _numHeartbeatDenials undenied = 0
  ∧ iceLog (Nat.iter 3 processICEServerHeartbeatDenialPacket undenied) = []
  ∧ _numHeartbeatDenials (Nat.iter 3 processICEServerHeartbeatDenialPacket undenied) = 3
  ∧ iceLog (Nat.iter 4 processICEServerHeartbeatDenialPacket undenied)
    = [GenerateNewDomainKeypair 77].
Proof.
  split; [reflexivity|].
  destruct (keypair_regenerated_on_fourth_denial undenied eq_refl)
    as (H1 & H2 & H3 & _).
  split; [exact H1|]. split; [exact H2|exact H3].
Defined.

End IceProofs.

Module MetaverseProofs.
Import Metaverse.

(** C9 (as the code has it). An error that arrives while the heartbeat
    timer is stopped is ignored, whatever its code and whatever the domain
    type.  With the heartbeat timer running on a temporary domain, a 401 or
    a 404 stops the timer and counts one more attempt; a new temporary name
    is requested while the count stays below five, and from the fifth
    attempt on nothing is requested, the timer stays stopped and every
    later error is ignored.  Any other error leaves the state as it is, the
    timer still running.  A domain that is not temporary never requests a
    temporary name here, whatever the error. *)
Theorem heartbeat_error_on_temporary_domain
    (error : NetworkError) (st : MetaverseState) :
  let st' := handleMetaverseHeartbeatError error st in
  (_metaverseHeartbeatTimer st = false → st' = st)
  ∧ (_metaverseHeartbeatTimer st = true →
     (_type st = MetaverseTemporaryDomain → isNameLoss error →
        _metaverseHeartbeatTimer st' = false
        ∧ attempt st' = attempt st + 1
        ∧ (attempt st + 1 < 5 →
             metaverseLog st'
             = metaverseLog st ++ [TimerDeleted; TemporaryNameRequested])
        ∧ (5 ≤ attempt st + 1 →
             metaverseLog st' = metaverseLog st ++ [TimerDeleted]
             ∧ ∀ later, handleMetaverseHeartbeatError later st' = st'))
     ∧ (_type st = MetaverseTemporaryDomain → ¬ isNameLoss error → st' = st)
     ∧ (_type st ≠ MetaverseTemporaryDomain → st' = st)).
Proof.
  intros st'. subst st'. split.
  { intros Hstopped. unfold handleMetaverseHeartbeatError. by rewrite Hstopped. }
  intros Htimer. unfold handleMetaverseHeartbeatError.
  rewrite Htimer. cbn [negb]. split; [|split].
  - intros Hty Hloss. rewrite decide_True by done.
    assert (∀ s,
      (let st1 :=
         mkMetaverse false (_type st) (attempt st + 1) (domainIDInSettings st)
           (metaverseLog st ++ [TimerDeleted]) in
       if attempt st1 <? MAX_ATTEMPTS then getTemporaryName true st1 else st1) = s →
      _metaverseHeartbeatTimer s = false
      ∧ attempt s = attempt st + 1
      ∧ (attempt st + 1 < 5 →
           metaverseLog s = metaverseLog st ++ [TimerDeleted; TemporaryNameRequested])
      ∧ (5 ≤ attempt st + 1 →
           metaverseLog s = metaverseLog st ++ [TimerDeleted]
           ∧ ∀ later, handleMetaverseHeartbeatError later s = s)) as Hcommon.
    { intros s <-. cbn [attempt]. unfold MAX_ATTEMPTS, getTemporaryName.
      cbn [negb]. rewrite andb_false_r.
      destruct (attempt st + 1 <? 5) eqn:Hlt.
      - apply Z.ltb_lt in Hlt. cbn. rewrite <- app_assoc.
        repeat split; try done. lia.
      - apply Z.ltb_ge in Hlt. cbn. repeat split; try done. lia. }
    destruct Hloss as [-> | ->]; by apply Hcommon.
  - intros Hty Hnot. rewrite decide_True by done.
    destruct error as [| |code]; [| |reflexivity].
    + exfalso. apply Hnot. by left.
    + exfalso. apply Hnot. by right.
  - intros Hty. by rewrite decide_False.
Qed.

Lemma heartbeat_error_on_temporary_domain_witness :
  _metaverseHeartbeatTimer temporaryStart = true
  ∧ _metaverseHeartbeatTimer
      (handleMetaverseHeartbeatError ContentNotFoundError temporaryStart) = false
  ∧ metaverseLog (handleMetaverseHeartbeatError ContentNotFoundError temporaryStart)
    = [] ++ [TimerDeleted; TemporaryNameRequested]
  ∧ handleMetaverseHeartbeatError (OtherNetworkError 500) temporaryStart
    = temporaryStart
  ∧ handleMetaverseHeartbeatError ContentNotFoundError awaitingName = awaitingName.
Proof.
  split; [reflexivity|].
  destruct (proj2 (heartbeat_error_on_temporary_domain ContentNotFoundError
                     temporaryStart) eq_refl) as (Hloss & _ & _).
  destruct (Hloss eq_refl (or_intror eq_refl)) as (Ht & _ & Hreq & _).
  split; [exact Ht|]. split; [apply Hreq; reflexivity|].
  destruct (proj2 (heartbeat_error_on_temporary_domain (OtherNetworkError 500)
                     temporaryStart) eq_refl) as (_ & Hother & _).
  split.
  - apply Hother; [reflexivity|]. intros [H|H]; discriminate H.
  - exact (proj1 (heartbeat_error_on_temporary_domain ContentNotFoundError
                    awaitingName) eq_refl).
Defined.

(** C9 as stated fails: on a temporary domain whose heartbeat timer has
    been stopped by a first 404, a second 404 and a 401 stop no timer and
    request no temporary name: the state stays as it was, with the one
    request of the first error. *)
Lemma name_loss_with_timer_stopped_requests_nothing :
  _type awaitingName = MetaverseTemporaryDomain
  ∧ _metaverseHeartbeatTimer awaitingName = false
  ∧ attempt awaitingName = 1
  ∧ metaverseLog awaitingName = [TimerDeleted; TemporaryNameRequested]
  ∧ handleMetaverseHeartbeatError ContentNotFoundError awaitingName = awaitingName
  ∧ handleMetaverseHeartbeatError AuthenticationRequiredError awaitingName
    = awaitingName.
Proof. repeat split; vm_compute; reflexivity. Qed.

(** The count of requests over a run: errors 401 and 404 arriving one
    after the other, the timer set up again after each, lead to a request
    on each of the first four and on none after. *)
Lemma four_requests_then_silence :
  metaverseLog (nameLosses 4 temporaryStart)
  = [TimerDeleted; TemporaryNameRequested; TimerDeleted; TemporaryNameRequested;
     TimerDeleted; TemporaryNameRequested; TimerDeleted; TemporaryNameRequested]
  ∧ metaverseLog (nameLosses 7 temporaryStart)
    = metaverseLog (nameLosses 4 temporaryStart)
      ++ [TimerDeleted; TimerDeleted; TimerDeleted].
Proof. split; vm_compute; reflexivity. Qed.

End MetaverseProofs.

Module HttpProofs.
Import Http.

(** What the authentication check can do: accept and leave the state as it
    is, or refuse after one response, a 401 or a 302. *)
Lemma isAuthenticatedRequest_cases connection st :
  isAuthenticatedRequest connection st = (true, st)
  ∨ ∃ r st1,
      isAuthenticatedRequest connection st = (false, st1)
      ∧ httpLog st1 = httpLog st ++ [Responded r]
      ∧ (statusCode r = StatusCode401 ∨ statusCode r = StatusCode302).
Proof.
  unfold isAuthenticatedRequest.
  destruct (negb (strEmpty (_oauthProviderURL st))
            && (bool_decide (is_Some (adminUsers st))
                || bool_decide (is_Some (adminRoles st)))).
  - destruct (if negb (isNull (cookieUUIDCapture (lib st) (cookieHeader connection)))
              then _cookieSessionHash st
                   !! cookieUUIDCapture (lib st) (cookieHeader connection)
              else None) as [sessionData|].
    + destruct (bool_decide (getUsername sessionData ∈ default [] (adminUsers st)));
        [by left|].
      destruct (negb (bool_decide (default [] (adminRoles st) = []))
                && existsb _ (getRoles sessionData)); [by left|].
      right. eexists _, _. split; [reflexivity|]. split; [reflexivity|]. by left.
    + destruct (bool_decide (requestedWithHeader connection = XML_REQUESTED_WITH)).
      * right. eexists _, _. split; [reflexivity|]. split; [reflexivity|]. by left.
      * right. eexists _, _. split; [reflexivity|]. split; [reflexivity|]. by right.
  - destruct (bool_decide (is_Some (httpUsername st))); [|by left].
    match goal with |- context [if ?c then (true, st) else _] => destruct c end;
      [by left|].
    right. eexists _, _. split; [reflexivity|]. split; [reflexivity|]. by left.
Qed.

(** With neither an OAuth provider with an admin list nor a Basic user
    name configured, every request is accepted. *)
Lemma open_when_nothing_configured connection st :
  (_oauthProviderURL st = "" ∨ (adminUsers st = None ∧ adminRoles st = None)) →
  httpUsername st = None →
  isAuthenticatedRequest connection st = (true, st).
Proof.
  intros Hoauth Hbasic. unfold isAuthenticatedRequest. rewrite Hbasic.
  destruct Hoauth as [-> | [-> ->]]; [reflexivity|].
  by rewrite andb_false_r.
Qed.

(** C6 (as the code has it). A request that is neither GET /id nor a GET
    whose path matches the assignment-script pattern is decided by the
    authentication check alone: refused, the handler has answered with
    exactly one response, a 401 or a 302, and ends without reaching any
    route; accepted, it goes on to the routes with the state unchanged. *)
Theorem request_behind_the_gate (connection : HTTPConnection) (st : HttpState) :
  ¬ isScriptRequest connection st → ¬ isIdRequest connection →
  ((isAuthenticatedRequest connection st).1 = false →
     ∃ r,
       handleHTTPRequest connection st
       = (Handled, (isAuthenticatedRequest connection st).2)
       ∧ httpLog (isAuthenticatedRequest connection st).2
         = httpLog st ++ [Responded r]
       ∧ (statusCode r = StatusCode401 ∨ statusCode r = StatusCode302))
  ∧ ((isAuthenticatedRequest connection st).1 = true →
       handleHTTPRequest connection st = (ReachedRoutes, st)).
Proof.
  intros Hscript Hid.
  assert (handleHTTPRequest connection st =
          let '(authenticated, st1) := isAuthenticatedRequest connection st in
          if negb authenticated then (Handled, st1) else (ReachedRoutes, st1))
    as Hgate.
  { unfold handleHTTPRequest.
    destruct (decide (requestOperation connection = GetOperation)) as [Hget|Hget].
    - destruct (assignmentRegexCapture (lib st) (path connection)) as [u|] eqn:Hu.
      { exfalso. apply Hscript. split; [done|]. rewrite Hu. by eexists. }
      rewrite bool_decide_eq_true_2 by done.
      destruct (bool_decide (path connection = URI_ID)) eqn:Hp; [|reflexivity].
      apply bool_decide_eq_true in Hp. exfalso. by apply Hid.
    - rewrite (bool_decide_eq_false_2 _ Hget). reflexivity. }
  rewrite Hgate.
  destruct (isAuthenticatedRequest_cases connection st)
    as [Heq|(r & st1 & Heq & Hlog & Hcode)]; rewrite Heq; cbn [fst snd negb].
  - split; [discriminate|]. reflexivity.
  - split; [|discriminate]. intros _. exists r. done.
Qed.

Lemma request_behind_the_gate_witness :
  ¬ isScriptRequest nodesGet guardedServer ∧ ¬ isIdRequest nodesGet
  ∧ (isAuthenticatedRequest nodesGet guardedServer).1 = false
  ∧ ∃ r,
      handleHTTPRequest nodesGet guardedServer
      = (Handled, (isAuthenticatedRequest nodesGet guardedServer).2)
      ∧ httpLog (isAuthenticatedRequest nodesGet guardedServer).2
        = httpLog guardedServer ++ [Responded r]
      ∧ (statusCode r = StatusCode401 ∨ statusCode r = StatusCode302).
Proof.
  assert (¬ isScriptRequest nodesGet guardedServer) as Hs.
  { intros [_ [u Hu]]. vm_compute in Hu. discriminate Hu. }
  assert (¬ isIdRequest nodesGet) as Hi.
  { intros [_ Hp]. vm_compute in Hp. discriminate Hp. }
  assert ((isAuthenticatedRequest nodesGet guardedServer).1 = false) as Ha
    by (vm_compute; reflexivity).
  split; [exact Hs|]. split; [exact Hi|]. split; [exact Ha|].
  exact (proj1 (request_behind_the_gate nodesGet guardedServer Hs Hi) Ha).
Defined.

(** C6 as stated fails: on a server with HTTP Basic configured, a GET of
    an assigned agent's script that carries no credentials (so the
    authentication check refuses it) is answered 200 with the script. *)
Lemma script_download_needs_no_authentication :
  ¬ isIdRequest scriptGet
  ∧ path scriptGet ≠ URI_OAUTH
  ∧ (isAuthenticatedRequest scriptGet guardedServer).1 = false
  ∧ ∃ st',
      handleHTTPRequest scriptGet guardedServer = (Handled, st')
      ∧ httpLog st'
        = [Responded (mkResponse StatusCode200 "Script.update.connect();" [])].
Proof.
  split. { intros [_ Hp]. vm_compute in Hp. discriminate Hp. }
  split. { intros Hp. vm_compute in Hp. discriminate Hp. }
  split; [vm_compute; reflexivity|].
  eexists. split; vm_compute; reflexivity.
Qed.

(** The OAuth callback is answered by the HTTPS handler, which does not
    consult the authentication check. *)
Lemma oauth_callback_is_not_gated connection st :
  path connection = URI_OAUTH →
  (handleHTTPSRequest connection st).1 = Handled.
Proof.
  intros Hp. unfold handleHTTPSRequest. rewrite bool_decide_eq_true_2 by done.
  by destruct (negb (strEmpty (codeQueryItem connection))
               && negb (isNull (stateQueryItem connection))
               && bool_decide (stateQueryItem connection
                               ∈ _webAuthenticationStateSet st)).
Qed.

End HttpProofs.

Module EntitiesProofs.
Import Entities.

(** C8 (as the code has it). When the replacement file is missing or does
    not parse, nothing changes.  When it parses but cannot be deleted,
    nothing changes either: the swap is aborted.  When it parses and is
    deleted, the id and version of its data are reset, and the gzipped
    result becomes the content of the authoritative file if that file can
    be opened for writing; if it cannot, the authoritative file keeps its
    content, the replacement file being gone already. *)
Theorem replacement_entities_swap (st : EntitiesState) :
  let st' := maybeHandleReplacementEntityFile st in
  (readOctreeDataInfoFromFile (replacementFile st) st = None → st' = st)
  ∧ (∀ data,
       readOctreeDataInfoFromFile (replacementFile st) st = Some data →
       (replacementRemovable st = false → st' = st)
       ∧ (replacementRemovable st = true →
            replacementFile st' = None
            ∧ (entitiesWritable st = true →
                 entitiesFile st'
                 = Some (toGzippedByteArray st
                           (mkRawEntityData (uuidSource st (uuidsDrawn st))
                              INITIAL_VERSION (octreeData data))))
            ∧ (entitiesWritable st = false →
                 entitiesFile st' = entitiesFile st))).
Proof.
  intros st'. subst st'. unfold maybeHandleReplacementEntityFile. split.
  - intros ->. reflexivity.
  - intros data ->. split.
    + intros ->. reflexivity.
    + intros ->. cbn. split; [reflexivity|]. split; intros ->; reflexivity.
Qed.

Lemma replacement_entities_swap_witness :
  readOctreeDataInfoFromFile (replacementFile writableEntities) writableEntities
  = Some (mkRawEntityData 5 12 "new scene")
  ∧ replacementRemovable writableEntities = true
  ∧ entitiesWritable writableEntities = true
  ∧ replacementFile (maybeHandleReplacementEntityFile writableEntities) = None
  ∧ entitiesFile (maybeHandleReplacementEntityFile writableEntities)
    = Some (toGzippedByteArray writableEntities
              (mkRawEntityData 1 INITIAL_VERSION "new scene")).
Proof.
  assert (readOctreeDataInfoFromFile (replacementFile writableEntities)
            writableEntities
          = Some (mkRawEntityData 5 12 "new scene")) as Hread
    by (vm_compute; reflexivity).
  split; [exact Hread|]. split; [reflexivity|]. split; [reflexivity|].
  destruct (replacement_entities_swap writableEntities) as [_ Hparsed].
  destruct (Hparsed _ Hread) as [_ Hdeleted].
  destruct (Hdeleted eq_refl) as (Hgone & Hwritten & _).
  split; [exact Hgone|]. exact (Hwritten eq_refl).
Defined.

(** C8 as stated fails: the header parses and the replacement file is
    deleted, yet the authoritative file, which cannot be opened for
    writing, keeps the old scene. *)
Lemma parsed_replacement_lost_when_entities_file_unwritable :
  is_Some (readOctreeDataInfoFromFile (replacementFile readOnlyEntities)
             readOnlyEntities)
  ∧ replacementFile (maybeHandleReplacementEntityFile readOnlyEntities) = None
  ∧ entitiesFile (maybeHandleReplacementEntityFile readOnlyEntities)
    = Some "old scene"
  ∧ entitiesFile (maybeHandleReplacementEntityFile writableEntities)
    = Some "new scene!".
Proof.
  split; [vm_compute; by eexists|].
  repeat split; vm_compute; reflexivity.
Qed.

End EntitiesProofs.

(** * Further properties of the registry *)

Module FanoutProofs.
Import Registry RegistryProofs Fanout.

(** ** What the views of a state decide *)

Lemma isInInterestSet_views ds node other n o :
  _nodeHash ds !! node = Some n → _nodeHash ds !! other = Some o →
  isInInterestSet n o
  = match interestOf ds node with
    | Some s => bool_decide (getType o ∈ s)
    | None => false
    end.
Proof.
  intros Hn Ho. unfold isInInterestSet, interestOf, linkedDataOf.
  rewrite Hn. cbn. by destruct (getLinkedData n).
Qed.

Lemma typeOf_lookup ds u : typeOf ds u = getType <$> _nodeHash ds !! u.
Proof. reflexivity. Qed.

Lemma sameViews_lookup ds ds' u :
  sameViews ds ds' →
  match _nodeHash ds !! u, _nodeHash ds' !! u with
  | Some n, Some n' => getType n' = getType n
  | None, None => True
  | _, _ => False
  end.
Proof.
  intros [Ht _]. specialize (Ht u). unfold typeOf in Ht.
  destruct (_nodeHash ds !! u), (_nodeHash ds' !! u); by simplify_eq/=.
Qed.

Lemma inDomainListOf_sameViews ds ds' node u :
  sameViews ds ds' → inDomainListOf ds' node u = inDomainListOf ds node u.
Proof.
  intros Hv. unfold inDomainListOf.
  pose proof (sameViews_lookup _ _ node Hv) as Hnode.
  pose proof (sameViews_lookup _ _ u Hv) as Hu.
  destruct (_nodeHash ds !! node) as [n|] eqn:Hn,
           (_nodeHash ds' !! node) as [n'|] eqn:Hn'; try done.
  destruct (_nodeHash ds !! u) as [o|] eqn:Ho,
           (_nodeHash ds' !! u) as [o'|] eqn:Ho'; try done.
  rewrite (isInInterestSet_views ds' node u n' o' Hn' Ho').
  rewrite (isInInterestSet_views ds node u n o Hn Ho).
  destruct Hv as [_ Hi]. by rewrite Hi, Hu.
Qed.

Lemma linked_sameViews ds ds' u :
  sameViews ds ds' → is_Some (linkedDataOf u ds) → is_Some (linkedDataOf u ds').
Proof.
  intros [_ Hi] [d Hd]. specialize (Hi u). unfold interestOf in Hi.
  rewrite Hd in Hi. destruct (linkedDataOf u ds'); [by eexists|discriminate].
Qed.

Lemma inDomainListOf_linked ds node u :
  inDomainListOf ds node u = true → is_Some (linkedDataOf node ds).
Proof.
  unfold inDomainListOf, linkedDataOf.
  destruct (_nodeHash ds !! node) as [n|]; [|discriminate].
  destruct (_nodeHash ds !! u) as [o|]; [|discriminate].
  unfold isInInterestSet. cbn.
  destruct (getLinkedData n); [by eexists|].
  by rewrite andb_false_r.
Qed.

Lemma sharedSecret_grows ds ds' a b s :
  grows ds ds' → good ds → sharedSecret ds a b s → sharedSecret ds' a b s.
Proof.
  intros Hg Hgood (Hnz & Hab & Hba). destruct (Hg Hgood) as [_ Hk].
  split; [done|]. split; by apply Hk.
Qed.

(** ** The DomainList packet *)

(** One visit: the entry list grows by the visited node exactly when the
    node passes the test, and the secret packed is then held by both. *)
Lemma domainListVisit_exact node entries ds other :
  let r := domainListVisit node (entries, ds) other in
  r.1.*1 = entries.*1 ++ (if inDomainListOf ds node other then [other] else [])
  ∧ (good ds →
     ∀ peer s, (peer, s) ∈ r.1 →
       (peer, s) ∈ entries
       ∨ (is_Some (linkedDataOf peer ds) → sharedSecret r.2 node peer s)).
Proof.
  unfold domainListVisit, inDomainListOf. cbn zeta.
  destruct (_nodeHash ds !! node) as [n|] eqn:Hn;
    [|cbn; rewrite app_nil_r; auto].
  destruct (_nodeHash ds !! other) as [o|] eqn:Ho;
    [|cbn; rewrite app_nil_r; auto].
  destruct (bool_decide (other ≠ node) && isInInterestSet n o) eqn:Hc;
    [|cbn; rewrite app_nil_r; auto].
  assert (is_Some (linkedDataOf node ds)) as Hlinked.
  { apply (inDomainListOf_linked ds node other).
    unfold inDomainListOf. by rewrite Hn, Ho. }
  pose proof (csfn_first node other ds) as Hfirst.
  destruct (connectionSecretForNodes node other ds) as [secret ds'].
  cbn [fst snd] in *. split.
  - by rewrite fmap_app.
  - intros Hgood peer s Hin.
    apply elem_of_app in Hin as [Hin|Hin]; [by left|].
    apply list_elem_of_singleton in Hin as [= -> ->]. right.
    intros Hpeer. by apply Hfirst.
Qed.

Lemma domainList_loop_exact node l :
  ∀ entries ds,
    let r := foldl (domainListVisit node) (entries, ds) l in
    r.1.*1 = entries.*1 ++ filter (λ u, inDomainListOf ds node u = true) l
    ∧ (good ds →
       ∀ peer s, (peer, s) ∈ r.1 →
         (peer, s) ∈ entries
         ∨ (is_Some (linkedDataOf peer ds) → sharedSecret r.2 node peer s)).
Proof.
  induction l as [|x l IH]; intros entries ds; cbn [foldl].
  - cbn. rewrite app_nil_r. auto.
  - destruct (domainListVisit_exact node entries ds x) as [Hx Hsx].
    destruct (domainListVisit_inv node (entries, ds) x) as (Hv & _ & _).
    pose proof (grows_domainListVisit node (entries, ds) x) as Hg.
    destruct (domainListVisit node (entries, ds) x) as [entries1 ds1].
    cbn [fst snd] in *.
    destruct (IH entries1 ds1) as [Hl Hsl]. cbn zeta in *.
    pose proof (grows_domainList_loop node l (entries1, ds1)) as Hgl.
    cbn [snd] in Hgl. split.
    + rewrite Hl, Hx, <- app_assoc. f_equal.
      rewrite (list_filter_iff _ (λ u, inDomainListOf ds node u = true))
        by (intros u; by rewrite (inDomainListOf_sameViews ds ds1)).
      rewrite filter_cons. by destruct (inDomainListOf ds node x); case_decide.
    + intros Hgood peer s Hin.
      destruct (Hg Hgood) as [Hgood1 _].
      destruct (Hsl Hgood1 peer s Hin) as [Hold|Hnew].
      * destruct (Hsx Hgood peer s Hold) as [?|Hnew]; [by left|].
        right. intros Hpeer. eapply sharedSecret_grows; eauto.
      * right. intros Hpeer. apply Hnew. by eapply linked_sameViews.
Qed.

(** X1.  The DomainList sent to a node lists, in the order of the node
    hash, exactly the other live nodes whose type is in the node's stored
    interest set, provided the node is authenticated and its interest set
    is not empty; otherwise the list is empty.  In a consistent registry
    every entry for a peer with linked data carries a non-null secret that
    both nodes hold once the packet is sent. *)
Theorem domain_list_is_exactly_the_interest_view
    (node : QUuid) (nodeData : DomainServerNodeData) (ds : DomainServer) :
  linkedDataOf node ds = Some nodeData →
  let ds' := sendDomainListToNode node ds in
  ∃ entries,
    outbox ds' = outbox ds ++ [DomainList node entries]
    ∧ entries.*1
      = (if bool_decide (0 < size (_nodeInterestSet nodeData))%nat
            && _isAuthenticated nodeData
         then filter (λ u, inDomainListOf ds node u = true) (liveUUIDs ds)
         else [])
    ∧ (good ds →
       ∀ peer s, (peer, s) ∈ entries → is_Some (linkedDataOf peer ds) →
         sharedSecret ds' node peer s).
Proof.
  intros Hd ds'. subst ds'. unfold sendDomainListToNode. rewrite Hd.
  destruct (bool_decide (0 < size (_nodeInterestSet nodeData))%nat
            && _isAuthenticated nodeData).
  - destruct (domainList_loop_exact node (liveUUIDs ds) [] ds) as [Hl Hs].
    destruct (domainList_loop_inv node (liveUUIDs ds) ([], ds)) as (_ & Hout & _).
    destruct (foldl (domainListVisit node) ([], ds) (liveUUIDs ds))
      as [entries ds1].
    cbn [fst snd] in *. exists entries. cbn [outbox emit].
    split; [by rewrite Hout|]. split; [exact Hl|].
    intros Hgood peer s Hin Hpeer.
    destruct (Hs Hgood peer s Hin) as [Hnil|Hnew];
      [by apply elem_of_nil in Hnil|].
    exact (Hnew Hpeer).
  - exists []. split; [done|]. split; [done|].
    intros _ peer s Hin. by apply elem_of_nil in Hin.
Qed.

Lemma domain_list_is_exactly_the_interest_view_witness :
  linkedDataOf 1 agentMeetsMixer
  = Some (mkNodeData {[AvatarMixer]} {[3 := 1]} 0 false true)
  ∧ ∃ entries,
      outbox (sendDomainListToNode 1 agentMeetsMixer)
      = outbox agentMeetsMixer ++ [DomainList 1 entries]
      ∧ entries.*1 = [3].
Proof.
  assert (linkedDataOf 1 agentMeetsMixer
          = Some (mkNodeData {[AvatarMixer]} {[3 := 1]} 0 false true)) as Hd
    by (vm_compute; reflexivity).
  split; [exact Hd|].
  destruct (domain_list_is_exactly_the_interest_view 1 _ agentMeetsMixer Hd)
    as (entries & Hout & Hent & _).
  exists entries. split; [exact Hout|]. rewrite Hent. vm_compute. reflexivity.
Defined.

(** ** The DomainServerAddedNode packets *)

Lemma lookup_alterLinkedData f k ds u :
  _nodeHash (alterLinkedData f k ds) !! u
  = (λ n, if decide (k = u) then setLinkedData (f <$> getLinkedData n) n else n)
    <$> _nodeHash ds !! u.
Proof.
  unfold alterLinkedData. cbn [_nodeHash set_nodeHash]. rewrite lookup_alter.
  case_decide; [by subst|]. by destruct (_nodeHash ds !! u).
Qed.

Lemma hearsOfAddedNode_alter f k ds added u :
  (∀ d, _nodeInterestSet (f d) = _nodeInterestSet d) →
  hearsOfAddedNode (alterLinkedData f k ds) added u = hearsOfAddedNode ds added u.
Proof.
  intros Hf. unfold hearsOfAddedNode. rewrite !lookup_alterLinkedData.
  destruct (_nodeHash ds !! u) as [n|]; [|done].
  destruct (_nodeHash ds !! added) as [a|]; [|done].
  cbn. unfold isInInterestSet.
  repeat case_decide; cbn; destruct (getLinkedData n) as [d|]; cbn;
    rewrite ?Hf; reflexivity.
Qed.

Lemma hearsOfAddedNode_csfn a b ds added u :
  hearsOfAddedNode (connectionSecretForNodes a b ds).2 added u
  = hearsOfAddedNode ds added u.
Proof.
  destruct (generates a b ds) eqn:Hg.
  - rewrite (csfn_generates _ _ _ Hg). cbn [snd].
    by rewrite !hearsOfAddedNode_alter.
  - by rewrite csfn_state_keeps.
Qed.

Lemma hearsOfAddedNode_linked ds added u :
  hearsOfAddedNode ds added u = true → is_Some (linkedDataOf u ds).
Proof.
  unfold hearsOfAddedNode, linkedDataOf.
  destruct (_nodeHash ds !! u) as [n|]; [|discriminate].
  destruct (_nodeHash ds !! added) as [a|]; [|discriminate].
  cbn. intros H. repeat (apply andb_true_iff in H as [H _]).
  by apply bool_decide_eq_true in H.
Qed.

Lemma broadcastVisit_exact added ds node :
  (∀ u, hearsOfAddedNode (broadcastVisit added ds node) added u
        = hearsOfAddedNode ds added u)
  ∧ ∃ packets,
      outbox (broadcastVisit added ds node) = outbox ds ++ packets
      ∧ Forall2
          (λ e u, ∃ s, e = DomainServerAddedNode u added s
                       ∧ (good ds → is_Some (linkedDataOf added ds) →
                          sharedSecret (broadcastVisit added ds node) u added s))
          packets (if hearsOfAddedNode ds added node then [node] else []).
Proof.
  pose proof (hearsOfAddedNode_linked ds added node) as Hlinked.
  assert (hearsOfAddedNode ds added node = false →
          broadcastVisit added ds node = ds) as Hskip.
  { unfold hearsOfAddedNode, broadcastVisit.
    destruct (_nodeHash ds !! node) as [n|]; [|done].
    destruct (_nodeHash ds !! added) as [a|]; [|done].
    by intros ->. }
  destruct (hearsOfAddedNode ds added node) eqn:Hh.
  - assert (broadcastVisit added ds node
            = emit (DomainServerAddedNode node added
                      (connectionSecretForNodes node added ds).1)
                (connectionSecretForNodes node added ds).2) as ->.
    { unfold hearsOfAddedNode in Hh. unfold broadcastVisit.
      destruct (_nodeHash ds !! node) as [n|]; [|done].
      destruct (_nodeHash ds !! added) as [a|]; [|done].
      rewrite Hh. by destruct (connectionSecretForNodes node added ds). }
    split.
    + intros u. apply (hearsOfAddedNode_csfn node added ds added u).
    + exists [DomainServerAddedNode node added
                (connectionSecretForNodes node added ds).1].
      cbn [outbox emit]. split; [by rewrite outbox_csfn|].
      constructor; [|constructor]. eexists. split; [done|].
      intros Hgood Hadded. apply (csfn_first node added ds); auto.
  - rewrite Hskip by done. split; [done|].
    exists []. rewrite app_nil_r. split; [done|constructor].
Qed.

Lemma broadcast_loop_exact added l :
  ∀ ds,
    ∃ packets,
      outbox (foldl (broadcastVisit added) ds l) = outbox ds ++ packets
      ∧ Forall2
          (λ e u, ∃ s, e = DomainServerAddedNode u added s
                       ∧ (good ds → is_Some (linkedDataOf added ds) →
                          sharedSecret (foldl (broadcastVisit added) ds l)
                            u added s))
          packets (filter (λ u, hearsOfAddedNode ds added u = true) l).
Proof.
  induction l as [|x l IH]; intros ds; cbn [foldl].
  - exists []. rewrite app_nil_r. split; [done|constructor].
  - destruct (broadcastVisit_exact added ds x) as (Hh & px & Houtx & Hpx).
    destruct (broadcastVisit_inv added ds x) as [Hv _].
    pose proof (grows_broadcastVisit added ds x) as Hg.
    destruct (IH (broadcastVisit added ds x)) as (pl & Houtl & Hpl).
    pose proof (grows_foldl (broadcastVisit added) l
                  (grows_broadcastVisit added) (broadcastVisit added ds x)) as Hgl.
    exists (px ++ pl). split; [by rewrite Houtl, Houtx, <- app_assoc|].
    rewrite filter_cons.
    replace (filter (λ u, hearsOfAddedNode ds added u = true) l)
      with (filter (λ u, hearsOfAddedNode (broadcastVisit added ds x) added u
                         = true) l)
      by (apply list_filter_iff; intros u; by rewrite Hh).
    assert (Forall2
              (λ e u, ∃ s, e = DomainServerAddedNode u added s
                 ∧ (good ds → is_Some (linkedDataOf added ds) →
                    sharedSecret
                      (foldl (broadcastVisit added) (broadcastVisit added ds x) l)
                      u added s))
              px (if hearsOfAddedNode ds added x then [x] else [])) as Hpx'.
    { eapply Forall2_impl; [exact Hpx|].
      intros e u (s & -> & Hs). exists s. split; [done|].
      intros Hgood Hadded. destruct (Hg Hgood) as [Hgood1 _].
      eapply sharedSecret_grows; eauto. }
    assert (Forall2
              (λ e u, ∃ s, e = DomainServerAddedNode u added s
                 ∧ (good ds → is_Some (linkedDataOf added ds) →
                    sharedSecret
                      (foldl (broadcastVisit added) (broadcastVisit added ds x) l)
                      u added s))
              pl (filter (λ u, hearsOfAddedNode (broadcastVisit added ds x)
                                 added u = true) l)) as Hpl'.
    { eapply Forall2_impl; [exact Hpl|].
      intros e u (s & -> & Hs). exists s. split; [done|].
      intros Hgood Hadded. destruct (Hg Hgood) as [Hgood1 _].
      apply Hs; [done|]. by eapply linked_sameViews. }
    destruct (hearsOfAddedNode ds added x).
    + rewrite decide_True by done. exact (Forall2_app Hpx' Hpl').
    + rewrite decide_False by done. exact (Forall2_app Hpx' Hpl').
Qed.

(** X2.  [broadcastNewNode] sends one DomainServerAddedNode for the added
    node to each live node that has linked data and an active socket, is
    not the added node itself and holds the added node's type in its
    interest set, in the order of the node hash, and to no other node.  In
    a consistent registry, when the added node has linked data, each
    packet carries a non-null secret that the receiver and the added node
    both hold afterwards. *)
Theorem added_node_is_announced_to_exactly_the_interested_peers
    (addedNode : QUuid) (ds : DomainServer) :
  let ds' := broadcastNewNode addedNode ds in
  ∃ packets,
    outbox ds' = outbox ds ++ packets
    ∧ Forall2
        (λ e node, ∃ s, e = DomainServerAddedNode node addedNode s
                        ∧ (good ds → is_Some (linkedDataOf addedNode ds) →
                           sharedSecret ds' node addedNode s))
        packets
        (filter (λ node, hearsOfAddedNode ds addedNode node = true) (liveUUIDs ds)).
Proof. apply broadcast_loop_exact. Qed.

(** ** Requests in a row *)



Lemma deployable_objects req ds :
  assignmentObjects (deployableAssignmentForRequest req ds).2
  = assignmentObjects ds.
Proof.
  unfold deployableAssignmentForRequest.
  by destruct (walkQueue _ _ _ _) as [[i p]|].
Qed.





End FanoutProofs.

(** * Further properties of the ICE engine *)

Module IceLookupProofs.
Import Ice IceProofs IceLookup.

(** ** Address updates to the metaverse *)

Lemma send_while_in_flight st :
  _sendICEServerAddressToMetaverseAPIInProgress st = true →
  sendICEServerAddressToMetaverseAPI st = set_redo true st.
Proof. intros H. unfold sendICEServerAddressToMetaverseAPI. by rewrite H. Qed.

Lemma send_when_idle st :
  _sendICEServerAddressToMetaverseAPIInProgress st = false →
  sendICEServerAddressToMetaverseAPI st
  = record (PutIceServerAddress (addressValue st)) (set_inProgress true st).
Proof. intros H. unfold sendICEServerAddressToMetaverseAPI. by rewrite H. Qed.

Lemma sends_while_in_flight n st :
  _sendICEServerAddressToMetaverseAPIInProgress st = true →
  Nat.iter (S n) sendICEServerAddressToMetaverseAPI st = set_redo true st.
Proof.
  intros H. induction n as [|n IH].
  - by apply send_while_in_flight.
  - change (Nat.iter (S (S n)) sendICEServerAddressToMetaverseAPI st)
      with (sendICEServerAddressToMetaverseAPI
              (Nat.iter (S n) sendICEServerAddressToMetaverseAPI st)).
    rewrite IH. by rewrite send_while_in_flight.
Qed.

(** X4.  At most one ICE-address update is in flight, and updates asked
    for meanwhile are merged into one: while an update is in flight any
    number of further calls send nothing and leave one redo pending; when
    the update in flight completes, with success or with failure, exactly
    one update is sent, carrying the address as it is then (0.0.0.0 when
    not connected or without a socket), and no redo is left; the completion
    of that one, with nothing asked for meanwhile, sends nothing more and
    leaves no update in flight. *)
Theorem ice_address_updates_are_merged
    (n : nat) (c c' : Completion) (st : IceState) :
  _sendICEServerAddressToMetaverseAPIInProgress st = true →
  let asked := Nat.iter (S n) sendICEServerAddressToMetaverseAPI st in
  let completed := complete c asked in
  iceLog asked = iceLog st
  ∧ _sendICEServerAddressToMetaverseAPIRedo asked = true
  ∧ iceLog completed = iceLog st ++ [PutIceServerAddress (addressValue st)]
  ∧ _sendICEServerAddressToMetaverseAPIInProgress completed = true
  ∧ _sendICEServerAddressToMetaverseAPIRedo completed = false
  ∧ updatesOf (iceLog (complete c' completed))
    = updatesOf (iceLog st) ++ [addressValue st]
  ∧ _sendICEServerAddressToMetaverseAPIInProgress (complete c' completed) = false.
Proof.
  intros Hbusy asked completed. subst completed asked.
  rewrite (sends_while_in_flight n st Hbusy).
  split; [reflexivity|]. split; [reflexivity|].
  assert (complete c (set_redo true st)
          = record (PutIceServerAddress (addressValue st))
              (set_inProgress true (set_redo false (set_inProgress false
                 (set_redo true st))))) as ->.
  { destruct c; reflexivity. }
  split; [reflexivity|]. split; [reflexivity|]. split; [reflexivity|].
  destruct c'; cbn [complete];
    unfold handleSuccessfulICEServerAddressUpdate,
      handleFailedICEServerAddressUpdate;
    cbn [_sendICEServerAddressToMetaverseAPIRedo
         _sendICEServerAddressToMetaverseAPIInProgress
         record set_inProgress set_redo iceLog];
    unfold updatesOf; rewrite ?omap_app; cbn; rewrite ?app_nil_r; done.
Qed.

Lemma ice_address_updates_are_merged_witness :
  _sendICEServerAddressToMetaverseAPIInProgress updateInFlight = true
  ∧ iceLog (complete Failed
              (Nat.iter 3 sendICEServerAddressToMetaverseAPI updateInFlight))
    = [PutIceServerAddress ZeroAddress;
       PutIceServerAddress (AddressString (Some 10))].
Proof.
  split; [reflexivity|].
  exact (proj1 (proj2 (proj2
    (ice_address_updates_are_merged 2 Failed Succeeded updateInFlight eq_refl)))).
Defined.

(** ** A server that answers *)

Lemma socket_processReply reply st :
  _iceServerSocket (processReply reply st) = _iceServerSocket st
  ∧ _failedIceServerAddresses (processReply reply st) = _failedIceServerAddresses st
  ∧ _iceServerAddresses (processReply reply st) = _iceServerAddresses st
  ∧ hasPrivateKey (processReply reply st) = hasPrivateKey st
  ∧ _noReplyICEHeartbeats (processReply reply st) = 0
  ∧ heartbeatsOf (iceLog (processReply reply st)) = heartbeatsOf (iceLog st).
Proof.
  destruct reply; cbn [processReply].
  - unfold processICEServerHeartbeatACK.
    cbn [_connectedToICEServer set_noReplyICEHeartbeats].
    destruct (_connectedToICEServer st); cbn [negb]; [done|].
    unfold sendICEServerAddressToMetaverseAPI.
    cbn [_sendICEServerAddressToMetaverseAPIInProgress set_connectedToICEServer
         set_noReplyICEHeartbeats].
    destruct (_sendICEServerAddressToMetaverseAPIInProgress st); [done|].
    cbn [_iceServerSocket _failedIceServerAddresses _iceServerAddresses
         hasPrivateKey _noReplyICEHeartbeats iceLog record set_inProgress
         set_connectedToICEServer set_noReplyICEHeartbeats].
    repeat split. unfold heartbeatsOf. rewrite omap_app. cbn.
    by rewrite app_nil_r.
  - unfold processICEServerHeartbeatDenialPacket.
    cbn [_numHeartbeatDenials set_numHeartbeatDenials].
    destruct (NUM_HEARTBEAT_DENIALS_FOR_KEYPAIR_REGEN <? _); [|done].
    cbn [_iceServerSocket _failedIceServerAddresses _iceServerAddresses
         hasPrivateKey _noReplyICEHeartbeats iceLog record
         set_numHeartbeatDenials set_noReplyICEHeartbeats].
    repeat split. unfold heartbeatsOf. rewrite omap_app. cbn.
    by rewrite app_nil_r.
Qed.

Lemma heartbeat_without_key fuel st a :
  getAddress (_iceServerSocket st) = Some a → hasPrivateKey st = false →
  ∃ st',
    sendHeartbeatToIceServer (S fuel) st = Some st'
    ∧ _iceServerSocket st' = _iceServerSocket st
    ∧ _failedIceServerAddresses st' = _failedIceServerAddresses st
    ∧ _iceServerAddresses st' = _iceServerAddresses st
    ∧ _noReplyICEHeartbeats st' = _noReplyICEHeartbeats st
    ∧ heartbeatsOf (iceLog st') = heartbeatsOf (iceLog st).
Proof.
  intros Ha Hk. cbn [sendHeartbeatToIceServer].
  rewrite Ha, bool_decide_eq_false_2 by done. cbn [negb]. rewrite Hk. cbn [negb].
  eexists. split; [reflexivity|].
  destruct (negb (isNull (sessionUUID st))); [|done].
  cbn [_iceServerSocket _failedIceServerAddresses _iceServerAddresses
       _noReplyICEHeartbeats iceLog record].
  repeat split. unfold heartbeatsOf. rewrite omap_app. cbn. by rewrite app_nil_r.
Qed.

Lemma answeredHeartbeats_keep fuel calls :
  ∀ st a,
    getAddress (_iceServerSocket st) = Some a →
    _noReplyICEHeartbeats st ≤ 2 →
    ∃ st',
      answeredHeartbeats (S fuel) calls st = Some st'
      ∧ _iceServerSocket st' = _iceServerSocket st
      ∧ _failedIceServerAddresses st' = _failedIceServerAddresses st
      ∧ _iceServerAddresses st' = _iceServerAddresses st
      ∧ heartbeatsOf (iceLog st')
        = heartbeatsOf (iceLog st)
          ++ replicate (length (filter (λ c, sends c = true) calls))
               (_iceServerSocket st).
Proof.
  induction calls as [|c calls IH]; intros st a Ha Hn.
  - exists st. cbn. rewrite app_nil_r. done.
  - cbn [answeredHeartbeats].
    set (st0 := set_hasPrivateKey (keyAtHand c) st).
    assert (getAddress (_iceServerSocket st0) = Some a) as Ha0 by exact Ha.
    rewrite Ha0, (bool_decide_eq_false_2 (Some a = None)) by done. cbn [negb andb].
    rewrite filter_cons.
    destruct (sends c) eqn:Hsends.
    + rewrite decide_True by done.
      apply andb_true_iff in Hsends as [Hkey Htrig].
      assert (fire (S fuel) (trigger c) st0
              = Some (record (SentHeartbeat (_iceServerSocket st0))
                        (set_noReplyICEHeartbeats (_noReplyICEHeartbeats st0 + 1) st0)))
        as ->.
      { assert (sendHeartbeatToIceServer (S fuel) st0
                = Some (record (SentHeartbeat (_iceServerSocket st0))
                          (set_noReplyICEHeartbeats
                             (_noReplyICEHeartbeats st0 + 1) st0))) as Hsend.
        { apply (heartbeat_plain fuel st0 a Ha0).
          - subst st0. exact Hkey.
          - unfold FAILOVER_NO_REPLY_ICE_HEARTBEATS. subst st0. cbn. lia. }
        destruct (trigger c) as [|heartbeatPacket]; cbn [fire]; [exact Hsend|].
        unfold handleKeypairChange. by rewrite Htrig. }
      cbn [mbind option_bind].
      set (st1 := record _ _).
      destruct (socket_processReply (reply c) st1) as (Hs & Hf & Hl & _ & Hn1 & Hh).
      destruct (IH (processReply (reply c) st1) a)
        as (st' & Hrun & Hs' & Hf' & Hl' & Hh').
      * by rewrite Hs.
      * rewrite Hn1. lia.
      * exists st'. split; [exact Hrun|].
        rewrite Hs', Hf', Hl', Hh', Hs, Hf, Hl, Hh.
        split; [done|]. split; [done|]. split; [done|].
        subst st1 st0.
        cbn [iceLog record set_noReplyICEHeartbeats set_hasPrivateKey
             _iceServerSocket length replicate].
        unfold heartbeatsOf. rewrite omap_app. cbn. by rewrite <- app_assoc.
    + rewrite decide_False by done.
      assert (∃ st1,
                fire (S fuel) (trigger c) st0 = Some st1
                ∧ _iceServerSocket st1 = _iceServerSocket st
                ∧ _failedIceServerAddresses st1 = _failedIceServerAddresses st
                ∧ _iceServerAddresses st1 = _iceServerAddresses st
                ∧ _noReplyICEHeartbeats st1 = _noReplyICEHeartbeats st
                ∧ heartbeatsOf (iceLog st1) = heartbeatsOf (iceLog st))
        as (st1 & -> & Hs & Hf & Hl & Hn1 & Hh).
      { apply andb_false_iff in Hsends as [Hkey|Htrig].
        - destruct (heartbeat_without_key fuel st0 a Ha0)
            as (st1 & Hsend & Hrest); [subst st0; exact Hkey|].
          destruct (trigger c) as [|[|]]; cbn [fire handleKeypairChange].
          + by exists st1.
          + by exists st1.
          + by exists st0.
        - destruct (trigger c) as [|heartbeatPacket]; [done|].
          cbn [fire]. unfold handleKeypairChange. rewrite Htrig. by exists st0. }
      cbn [mbind option_bind].
      destruct (IH st1 a) as (st' & Hrun & Hs' & Hf' & Hl' & Hh').
      * by rewrite Hs.
      * by rewrite Hn1.
      * exists st'. split; [exact Hrun|].
        by rewrite Hs', Hf', Hl', Hh', Hs, Hf, Hl, Hh.
Qed.

(** X5.  An ICE server that answers every heartbeat before the next call
    is made, be it with an ACK or with a denial, is never given up,
    whether or not the private key is at hand at a call.  With a server
    selected and at most two heartbeats without reply so far, any run of
    heartbeat ticks and new-keypair signals leaves the selected socket,
    the failed set and the resolved addresses as they were; the heartbeats
    sent are one to that socket for each call made with the key at hand
    (and, for a new keypair, with the heartbeat packet created), and none
    for the other calls. *)
Theorem answering_ice_server_is_kept
    (fuel : nat) (calls : list Call) (st : IceState) (a : Z) :
  getAddress (_iceServerSocket st) = Some a →
  _noReplyICEHeartbeats st ≤ 2 →
  ∃ st',
    answeredHeartbeats (S fuel) calls st = Some st'
    ∧ _iceServerSocket st' = _iceServerSocket st
    ∧ _failedIceServerAddresses st' = _failedIceServerAddresses st
    ∧ _iceServerAddresses st' = _iceServerAddresses st
    ∧ heartbeatsOf (iceLog st')
      = heartbeatsOf (iceLog st)
        ++ replicate (length (filter (λ c, sends c = true) calls))
             (_iceServerSocket st).
Proof. intros. by eapply answeredHeartbeats_keep. Qed.

Lemma answering_ice_server_is_kept_witness :
  getAddress (_iceServerSocket undenied) = Some 10
  ∧ _noReplyICEHeartbeats undenied ≤ 2
  ∧ ∃ st',
      answeredHeartbeats 1 deniedThenRekeyed undenied = Some st'
      ∧ _iceServerSocket st' = _iceServerSocket undenied
      ∧ heartbeatsOf (iceLog st')
        = replicate 6 (mkSockAddr (Some 10) ICE_SERVER_DEFAULT_PORT).
Proof.
  assert (_noReplyICEHeartbeats undenied ≤ 2) as Hn by (vm_compute; discriminate).
  split; [reflexivity|]. split; [exact Hn|].
  destruct (answering_ice_server_is_kept 0 deniedThenRekeyed undenied 10 eq_refl Hn)
    as (st' & Hrun & Hs & _ & _ & Hh).
  exists st'. split; [exact Hrun|]. split; [exact Hs|]. exact Hh.
Defined.

(** ** The host lookup *)

Lemma send_frame st :
  _iceServerSocket (sendICEServerAddressToMetaverseAPI st) = _iceServerSocket st
  ∧ _iceServerAddresses (sendICEServerAddressToMetaverseAPI st)
    = _iceServerAddresses st
  ∧ _failedIceServerAddresses (sendICEServerAddressToMetaverseAPI st)
    = _failedIceServerAddresses st
  ∧ _noReplyICEHeartbeats (sendICEServerAddressToMetaverseAPI st)
    = _noReplyICEHeartbeats st
  ∧ hasPrivateKey (sendICEServerAddressToMetaverseAPI st) = hasPrivateKey st
  ∧ distribution (sendICEServerAddressToMetaverseAPI st) = distribution st
  ∧ draws (sendICEServerAddressToMetaverseAPI st) = draws st.
Proof.
  unfold sendICEServerAddressToMetaverseAPI.
  by destruct (_sendICEServerAddressToMetaverseAPIInProgress st).
Qed.

Lemma update_frame st :
  _iceServerSocket (updateICEServerAddresses st) = _iceServerSocket st
  ∧ _iceServerAddresses (updateICEServerAddresses st) = _iceServerAddresses st
  ∧ _failedIceServerAddresses (updateICEServerAddresses st)
    = _failedIceServerAddresses st
  ∧ _noReplyICEHeartbeats (updateICEServerAddresses st) = _noReplyICEHeartbeats st
  ∧ hasPrivateKey (updateICEServerAddresses st) = hasPrivateKey st
  ∧ distribution (updateICEServerAddresses st) = distribution st
  ∧ draws (updateICEServerAddresses st) = draws st.
Proof. unfold updateICEServerAddresses. by destruct (lookupPending st). Qed.

Lemma chosen_selected st : chosen st = selected (updateICEServerAddresses st).
Proof.
  unfold chosen, selected, failoverIndex, updateICEServerAddresses.
  by destruct (lookupPending st).
Qed.

Lemma randomize_quietly hb st :
  randomizeICEServerAddressWith hb false st
  = st3 ← hb (selected st); Some (sendICEServerAddressToMetaverseAPI st3).
Proof.
  unfold randomizeICEServerAddressWith, selected, failoverIndex.
  destruct (candidatesOf (_iceServerAddresses st) (_failedIceServerAddresses st))
    as [|c cs];
    cbn [fst snd _iceServerAddresses set_failedIceServerAddresses distribution
         draws];
    match goal with
    | |- context [0 <? ?m] => destruct (0 <? m)
    end; reflexivity.
Qed.

Lemma selected_frame st :
  _iceServerAddresses (selected st) = _iceServerAddresses st
  ∧ _noReplyICEHeartbeats (selected st) = _noReplyICEHeartbeats st
  ∧ hasPrivateKey (selected st) = hasPrivateKey st
  ∧ distribution (selected st) = distribution st.
Proof. unfold selected. by destruct (0 <? _). Qed.

(** The socket selected is at a resolved address. *)
Lemma selected_socket st :
  _iceServerAddresses st ≠ [] →
  Forall (λ a, a ≠ None) (_iceServerAddresses st) →
  (∀ k m, distribution st k m ≤ m)%nat →
  ∃ b, _iceServerSocket (selected st) = mkSockAddr (Some b) ICE_SERVER_DEFAULT_PORT
       ∧ Some b ∈ _iceServerAddresses st.
Proof.
  intros Hne Hnn Hdist.
  set (cf := match candidatesOf (_iceServerAddresses st)
                     (_failedIceServerAddresses st) with
             | [] => (_iceServerAddresses st, ∅)
             | c => (c, _failedIceServerAddresses st)
             end).
  assert (cf.1 ≠ [] ∧ ∀ a, a ∈ cf.1 → a ∈ _iceServerAddresses st) as [Hcne Hsub].
  { subst cf.
    destruct (candidatesOf (_iceServerAddresses st) (_failedIceServerAddresses st))
      as [|c cs] eqn:Hc; cbn [fst]; [done|]. split; [done|].
    intros a Ha. rewrite <- Hc in Ha. by apply candidatesOf_subset in Ha as [? _]. }
  pose proof (failoverIndex_in_range st cf.1 Hcne Hdist) as Hidx.
  destruct (lookup_lt_is_Some_2 cf.1 _ Hidx) as [x Hx].
  assert (x ∈ _iceServerAddresses st) as Hin
    by (apply Hsub; by eapply list_elem_of_lookup_2).
  rewrite Forall_forall in Hnn. specialize (Hnn x Hin).
  destruct x as [b|]; [|done]. exists b. split; [|done].
  unfold selected. fold cf.
  cbn [_iceServerSocket set_numHeartbeatDenials set_iceServerSocket].
  by rewrite Hx.
Qed.

Lemma heartbeat_failover_unfold_ge (fuel : nat) (st : IceState) (current : Z) :
  getAddress (_iceServerSocket st) = Some current →
  hasPrivateKey st = true →
  3 ≤ _noReplyICEHeartbeats st →
  sendHeartbeatToIceServer (S fuel) st =
    st2 ← randomizeICEServerAddressWith (sendHeartbeatToIceServer fuel) true
        (abandoned st current);
    Some (record (SentHeartbeat (_iceServerSocket st2)) st2).
Proof.
  intros Ha Hk Hn. unfold abandoned. cbn [sendHeartbeatToIceServer].
  rewrite Ha, bool_decide_eq_false_2 by done. cbn [negb]. rewrite Hk. cbn [negb].
  cbn [_noReplyICEHeartbeats set_noReplyICEHeartbeats _iceServerSocket
       _failedIceServerAddresses]. rewrite Ha.
  assert ((FAILOVER_NO_REPLY_ICE_HEARTBEATS <? _noReplyICEHeartbeats st + 1) = true)
    as -> by (apply Z.ltb_lt; unfold FAILOVER_NO_REPLY_ICE_HEARTBEATS; lia).
  reflexivity.
Qed.

Lemma abandoned_frame st current :
  _iceServerAddresses (updateICEServerAddresses (abandoned st current))
  = _iceServerAddresses st
  ∧ _noReplyICEHeartbeats (updateICEServerAddresses (abandoned st current)) = 0
  ∧ hasPrivateKey (updateICEServerAddresses (abandoned st current))
    = hasPrivateKey st
  ∧ distribution (updateICEServerAddresses (abandoned st current))
    = distribution st.
Proof.
  unfold abandoned, updateICEServerAddresses, sendICEServerAddressToMetaverseAPI.
  ice_fields.
  destruct (_sendICEServerAddressToMetaverseAPIInProgress st); ice_fields;
    destruct (lookupPending st); done.
Qed.

(** A heartbeat sent with the key at hand, from a state without failover
    in sight, leaves the socket alone. *)
Lemma heartbeat_then_update fuel st b :
  _iceServerSocket st = mkSockAddr (Some b) ICE_SERVER_DEFAULT_PORT →
  hasPrivateKey st = true → _noReplyICEHeartbeats st = 0 →
  ∃ st2,
    (st3 ← sendHeartbeatToIceServer (S fuel) st;
     Some (sendICEServerAddressToMetaverseAPI st3)) = Some st2
    ∧ _iceServerSocket st2 = mkSockAddr (Some b) ICE_SERVER_DEFAULT_PORT
    ∧ _iceServerAddresses st2 = _iceServerAddresses st.
Proof.
  intros Hs Hk Hn.
  rewrite (heartbeat_plain fuel st b) by (rewrite ?Hs, ?Hn; done).
  cbn [mbind option_bind]. eexists. split; [reflexivity|].
  destruct (send_frame (record (SentHeartbeat (_iceServerSocket st))
              (set_noReplyICEHeartbeats (_noReplyICEHeartbeats st + 1) st)))
    as (Hs2 & Hl2 & _).
  rewrite Hs2, Hl2. by split.
Qed.

(** Whatever the counters, a heartbeat leaves the engine with a socket at
    a resolved address: the one it had, or a newly selected one. *)
Lemma heartbeat_lands_on_resolved fuel st a :
  getAddress (_iceServerSocket st) = Some a →
  Some a ∈ _iceServerAddresses st →
  Forall (λ a, a ≠ None) (_iceServerAddresses st) →
  (∀ k m, distribution st k m ≤ m)%nat →
  ∃ st' b,
    sendHeartbeatToIceServer (S (S fuel)) st = Some st'
    ∧ getAddress (_iceServerSocket st') = Some b
    ∧ Some b ∈ _iceServerAddresses st
    ∧ (getPort (_iceServerSocket st') = getPort (_iceServerSocket st)
       ∨ getPort (_iceServerSocket st') = ICE_SERVER_DEFAULT_PORT)
    ∧ _iceServerAddresses st' = _iceServerAddresses st.
Proof.
  intros Ha Hin Hnn Hdist.
  destruct (hasPrivateKey st) eqn:Hk.
  - destruct (Z.le_gt_cases 3 (_noReplyICEHeartbeats st)) as [Hge|Hlt].
    + rewrite (heartbeat_failover_unfold_ge (S fuel) st a Ha Hk Hge).
      rewrite randomize_unfold, chosen_selected.
      destruct (abandoned_frame st a) as (Hl1 & Hn1 & Hk1 & Hd1).
      generalize dependent (updateICEServerAddresses (abandoned st a)).
      intros st1 Hl1 Hn1 Hk1 Hd1.
      destruct (selected_socket st1) as (b & Hsock & Hb).
      { rewrite Hl1. intros E. rewrite E in Hin. by apply elem_of_nil in Hin. }
      { by rewrite Hl1. }
      { by rewrite Hd1. }
      destruct (selected_frame st1) as (Hl2 & Hn2 & Hk2 & _).
      destruct (heartbeat_then_update fuel (selected st1) b)
        as (st2 & Hrun & Hs2 & Hl3); [done|congruence|congruence|].
      rewrite Hrun. cbn [mbind option_bind].
      eexists. exists b. split; [reflexivity|].
      cbn [_iceServerSocket _iceServerAddresses record].
      rewrite Hs2, Hl3, Hl2, Hl1. cbn [getAddress getPort].
      split; [done|]. split; [by rewrite <- Hl1|]. split; [by right|done].
    + rewrite (heartbeat_plain (S fuel) st a Ha Hk)
        by (unfold FAILOVER_NO_REPLY_ICE_HEARTBEATS; lia).
      eexists. exists a. split; [reflexivity|].
      cbn [_iceServerSocket _iceServerAddresses record set_noReplyICEHeartbeats].
      split; [done|]. split; [done|]. split; [by left|done].
  - cbn [sendHeartbeatToIceServer].
    rewrite Ha, bool_decide_eq_false_2 by done. cbn [negb]. rewrite Hk. cbn [negb].
    eexists. exists a. split; [reflexivity|].
    destruct (negb (isNull (sessionUUID st)));
      cbn [_iceServerSocket _iceServerAddresses record]; auto.
Qed.

Lemma sanitized_valid hostInfo : Forall (λ a, a ≠ None) (sanitized hostInfo).
Proof.
  unfold sanitized. apply Forall_fmap, Forall_forall. intros x Hx.
  apply list_elem_of_filter in Hx as [Hx _]. unfold isValidIPv4 in Hx.
  apply andb_true_iff in Hx as [Hx _]. apply negb_true_iff in Hx.
  by apply bool_decide_eq_false in Hx.
Qed.

(** X6.  [handleICEHostInfo] keeps of a lookup result the addresses that
    are not null and are IPv4, in their order.  When the lookup failed or
    kept nothing, the resolved addresses, the socket and the log stay as
    they were, and the lookup is retried through the timer exactly when no
    socket is selected.  Otherwise the resolved addresses are replaced by
    the ones kept; a socket already selected is left alone and nothing is
    sent, and when none is selected the socket chosen is at one of the
    addresses kept, on the default ICE port. *)
Theorem ice_lookup_keeps_valid_ipv4_addresses
    (fuel : nat) (hostInfo : QHostInfo) (st : IceState) :
  (∀ k m, distribution st k m ≤ m)%nat →
  ∃ st' retry,
    handleICEHostInfo (S (S fuel)) hostInfo st = Some (st', retry)
    ∧ Forall (λ a, a ≠ None) (sanitized hostInfo)
    ∧ (error hostInfo ≠ NoError ∨ sanitized hostInfo = [] →
       _iceServerAddresses st' = _iceServerAddresses st
       ∧ _iceServerSocket st' = _iceServerSocket st
       ∧ iceLog st' = iceLog st
       ∧ retry = sockIsNull (_iceServerSocket st))
    ∧ (error hostInfo = NoError → sanitized hostInfo ≠ [] →
       _iceServerAddresses st' = sanitized hostInfo
       ∧ retry = false
       ∧ (sockIsNull (_iceServerSocket st) = false →
          _iceServerSocket st' = _iceServerSocket st ∧ iceLog st' = iceLog st)
       ∧ (sockIsNull (_iceServerSocket st) = true →
          ∃ b, _iceServerSocket st' = mkSockAddr (Some b) ICE_SERVER_DEFAULT_PORT
               ∧ Some b ∈ sanitized hostInfo)).
Proof.
  intros Hdist. pose proof (sanitized_valid hostInfo) as Hvalid.
  unfold handleICEHostInfo. fold (sanitized hostInfo).
  assert (bool_decide
            (filter (λ a, isValidIPv4 a = true) (addresses hostInfo) = [])
          = bool_decide (sanitized hostInfo = [])) as ->.
  { apply bool_decide_ext. unfold sanitized.
    by destruct (filter _ (addresses hostInfo)). }
  destruct (decide (error hostInfo = NoError)) as [He|He];
    [destruct (decide (sanitized hostInfo = [])) as [Hs|Hs]|].
  - rewrite (bool_decide_eq_true_2 _ Hs), orb_true_r.
    eexists _, _. split; [reflexivity|]. split; [done|]. split; [done|].
    intros _ Hne. done.
  - rewrite (bool_decide_eq_true_2 _ He), (bool_decide_eq_false_2 _ Hs).
    cbn [negb orb].
    cbn [_iceServerSocket set_iceServerAddresses set_lookupPending].
    destruct (sockIsNull (_iceServerSocket st)) eqn:Hnull.
    + unfold randomizeICEServerAddress. rewrite randomize_quietly.
      set (st1 := set_iceServerAddresses _ _).
      destruct (selected_socket st1) as (b & Hsock & Hb); [done|done|done|].
      destruct (selected_frame st1) as (Hl2 & _ & _ & Hd2).
      destruct (heartbeat_lands_on_resolved fuel (selected st1) b)
        as (st2 & b2 & Hrun & Ha2 & Hb2 & Hport & Hl3).
      { by rewrite Hsock. }
      { by rewrite Hl2. }
      { by rewrite Hl2. }
      { by rewrite Hd2. }
      rewrite Hrun. cbn [mbind option_bind].
      eexists _, _. split; [reflexivity|]. split; [done|].
      split; [intros [?|?]; done|]. intros _ _.
      destruct (send_frame st2) as (-> & -> & _).
      rewrite Hl3, Hl2. split; [done|]. split; [done|]. split; [done|].
      intros _. exists b2. split; [|rewrite Hl2 in Hb2; exact Hb2].
      rewrite Hsock in Hport. cbn [getPort] in Hport.
      destruct (_iceServerSocket st2) as [addr port].
      cbn [getAddress getPort] in Ha2, Hport. subst addr.
      by destruct Hport as [->| ->].
    + eexists _, _. split; [reflexivity|]. split; [done|].
      split; [intros [?|?]; done|]. intros _ _.
      split; [done|]. split; [done|]. split; [done|]. done.
  - rewrite (bool_decide_eq_false_2 _ He). cbn [negb orb].
    eexists _, _. split; [reflexivity|]. split; [done|]. split; [done|].
    intros Hno. done.
Qed.

Lemma ice_lookup_keeps_valid_ipv4_addresses_witness :
  (∀ k m, distribution awaitingLookup k m ≤ m)%nat
  ∧ ∃ st' retry,
      handleICEHostInfo 2 mixedLookup awaitingLookup = Some (st', retry)
      ∧ _iceServerAddresses st' = [Some 10; Some 20].
Proof.
  assert (∀ k m, distribution awaitingLookup k m ≤ m)%nat as Hdist
    by (intros k m; change (Nat.min 1 m ≤ m)%nat; apply Nat.le_min_r).
  split; [exact Hdist|].
  destruct (ice_lookup_keeps_valid_ipv4_addresses 0 mixedLookup awaitingLookup Hdist)
    as (st' & retry & Hrun & _ & _ & Hok).
  exists st', retry. split; [exact Hrun|].
  destruct Hok as (Hl & _); [reflexivity|vm_compute; discriminate|].
  rewrite Hl. vm_compute. reflexivity.
Defined.

End IceLookupProofs.

(** * Departures *)

Module DepartureProofs.
Import Registry RegistryProofs Fanout FanoutProofs Departure.

(** ** What a kill leaves of the other nodes *)

Lemma sameViews_same_hash ds ds' : _nodeHash ds' = _nodeHash ds → sameViews ds ds'.
Proof.
  intros H. split; intros u.
  - unfold typeOf. by rewrite H.
  - unfold interestOf, linkedDataOf. by rewrite H.
Qed.

Lemma sameViews_cleanup u l : ∀ ds, sameViews ds (foldl (cleanupVisit u) ds l).
Proof.
  induction l as [|k l IH]; intros ds; cbn [foldl]; [apply sameViews_refl|].
  eapply sameViews_trans; [|apply IH].
  unfold cleanupVisit. destruct (_nodeHash ds !! k); [|apply sameViews_refl].
  by apply sameViews_alter.
Qed.

Lemma outbox_cleanup u l : ∀ ds, outbox (foldl (cleanupVisit u) ds l) = outbox ds.
Proof.
  induction l as [|k l IH]; intros ds; cbn [foldl]; [done|].
  rewrite IH. unfold cleanupVisit. by destruct (_nodeHash ds !! k).
Qed.

Lemma outbox_refresh p ds :
  outbox (refreshStaticAssignmentAndAddToQueue p ds) = outbox ds.
Proof.
  unfold refreshStaticAssignmentAndAddToQueue, resetUUID. cbn.
  by destruct (bool_decide _ && isEmpty _).
Qed.

Lemma isUser_linked node nodeData :
  getLinkedData node = Some nodeData →
  isUser node = bool_decide (getType node = Agent) && negb (_wasAssigned nodeData).
Proof.
  intros Hd. unfold isUser. rewrite Hd.
  case_decide; [by rewrite bool_decide_eq_true_2|by rewrite bool_decide_eq_false_2].
Qed.

Lemma isUser_unlinked node : getLinkedData node = None → isUser node = false.
Proof. intros Hd. unfold isUser. rewrite Hd. by case_decide. Qed.

(** The effects of [nodeKilled] on the views, the log and the users. *)
Lemma nodeKilled_effects u node ds :
  sameViews ds (nodeKilled u node ds)
  ∧ outbox (nodeKilled u node ds)
    = outbox ds ++ (if isUser node then [userDisconnected] else [])
  ∧ ∀ k, isUser <$> _nodeHash (nodeKilled u node ds) !! k
         = isUser <$> _nodeHash ds !! k.
Proof.
  unfold nodeKilled.
  destruct (getLinkedData node) as [nodeData|] eqn:Hd.
  2:{ rewrite (isUser_unlinked _ Hd), app_nil_r.
      split; [apply sameViews_refl|done]. }
  rewrite (isUser_linked _ _ Hd).
  set (ds1 := if negb (isNull (_assignmentUUID nodeData)) then _ else ds).
  assert (_nodeHash ds1 = _nodeHash ds ∧ outbox ds1 = outbox ds) as [Hh Ho].
  { subst ds1. destruct (negb (isNull (_assignmentUUID nodeData))); [|done].
    destruct (_allAssignments ds !! _assignmentUUID nodeData) as [p|]; [|done].
    destruct (a_isStatic _); [|done].
    by rewrite nodeHash_refresh, outbox_refresh. }
  set (keys := (map_to_list (_sessionSecretHash nodeData)).*1).
  assert (∀ l ds0 k, isUser <$> _nodeHash (foldl (cleanupVisit u) ds0 l) !! k
                     = isUser <$> _nodeHash ds0 !! k) as Husers.
  { induction l as [|x l IH]; intros ds0 k; cbn [foldl]; [done|].
    rewrite IH. unfold cleanupVisit.
    destruct (_nodeHash ds0 !! x) as [other|] eqn:Hx; [|done].
    rewrite lookup_alterLinkedData.
    destruct (_nodeHash ds0 !! k) as [n|]; [|done]. cbn.
    case_decide; [|done]. f_equal. unfold isUser. cbn.
    by destruct (getLinkedData n). }
  assert (sameViews ds (foldl (cleanupVisit u) ds1 keys)) as Hv.
  { eapply sameViews_trans; [by apply sameViews_same_hash|].
    apply sameViews_cleanup. }
  destruct (bool_decide (getType node = Agent) && negb (_wasAssigned nodeData)).
  - split; [by apply sameViews_emit|]. cbn [outbox emit _nodeHash].
    rewrite outbox_cleanup, Ho. split; [done|].
    intros k. by rewrite Husers, Hh.
  - rewrite app_nil_r, outbox_cleanup, Ho. split; [done|]. split; [done|].
    intros k. by rewrite Husers, Hh.
Qed.

Lemma kill_views u node ds :
  _nodeHash ds !! u = Some node →
  let ds' := killNodeWithUUID u ds in
  (∀ o, typeOf ds' o = if decide (o = u) then None else typeOf ds o)
  ∧ (∀ o, interestOf ds' o = if decide (o = u) then None else interestOf ds o)
  ∧ outbox ds' = outbox ds ++ (if isUser node then [userDisconnected] else [])
  ∧ ∀ k, isUser <$> _nodeHash ds' !! k
         = isUser <$> delete u (_nodeHash ds) !! k.
Proof.
  intros Hu ds'. subst ds'. unfold killNodeWithUUID. rewrite Hu.
  destruct (nodeKilled_effects u node (set_nodeHash (delete u (_nodeHash ds)) ds))
    as ([Ht Hi] & Ho & Hk).
  split; [|split; [|split; [exact Ho|exact Hk]]].
  - intros o. rewrite Ht. unfold typeOf. cbn [_nodeHash set_nodeHash].
    case_decide as Ho'; [subst o; by rewrite lookup_delete_eq|].
    by rewrite lookup_delete_ne.
  - intros o. rewrite Hi. unfold interestOf, linkedDataOf.
    cbn [_nodeHash set_nodeHash].
    case_decide as Ho'; [subst o; by rewrite lookup_delete_eq|].
    by rewrite lookup_delete_ne.
Qed.

Lemma list_filter_ext_in {A} (P Q : A → Prop)
    `{∀ x, Decision (P x)} `{∀ x, Decision (Q x)} (l : list A) :
  (∀ x, x ∈ l → P x ↔ Q x) → filter P l = filter Q l.
Proof.
  induction l as [|x l IH]; intros HPQ; [done|].
  rewrite !filter_cons, IH by (intros y Hy; apply HPQ; by right).
  destruct (HPQ x) as [H1 H2]; [by left|].
  repeat case_decide; try done; tauto.
Qed.

Lemma hearsOfRemovedNode_views ds node o :
  hearsOfRemovedNode ds node o
  = match interestOf ds o with
    | Some s => bool_decide (getType node ∈ s)
    | None => false
    end.
Proof.
  unfold hearsOfRemovedNode, interestOf, linkedDataOf, isInInterestSet.
  destruct (_nodeHash ds !! o) as [other|]; [|done]. cbn.
  by destruct (getLinkedData other).
Qed.

Lemma removed_loop u node l :
  ∀ ds,
    _nodeHash (foldl (removedNodeVisit u node) ds l) = _nodeHash ds
    ∧ outbox (foldl (removedNodeVisit u node) ds l)
      = outbox ds
        ++ ((λ o, DomainServerRemovedNode o u)
            <$> filter (λ o, hearsOfRemovedNode ds node o = true) l).
Proof.
  induction l as [|x l IH]; intros ds; cbn [foldl].
  - by rewrite app_nil_r.
  - destruct (IH (removedNodeVisit u node ds x)) as [Hh Ho].
    assert (_nodeHash (removedNodeVisit u node ds x) = _nodeHash ds) as Hh1.
    { unfold removedNodeVisit. destruct (_nodeHash ds !! x); [|done].
      by destruct (isInInterestSet _ _). }
    assert (∀ o, hearsOfRemovedNode (removedNodeVisit u node ds x) node o
                 = hearsOfRemovedNode ds node o) as Hsame.
    { intros o. unfold hearsOfRemovedNode. by rewrite Hh1. }
    split; [by rewrite Hh|]. rewrite Ho.
    rewrite (list_filter_iff _ (λ o, hearsOfRemovedNode ds node o = true))
      by (intros o; by rewrite Hsame).
    assert (removedNodeVisit u node ds x
            = if hearsOfRemovedNode ds node x
              then emit (DomainServerRemovedNode x u) ds else ds) as ->.
    { unfold removedNodeVisit, hearsOfRemovedNode.
      by destruct (_nodeHash ds !! x). }
    rewrite filter_cons.
    destruct (hearsOfRemovedNode ds node x).
    + rewrite decide_True by done. cbn [outbox emit].
      by rewrite fmap_cons, <- app_assoc.
    + by rewrite decide_False.
Qed.

(** X7.  [handleKillNode] takes the node out of the hash, lets [nodeKilled]
    signal [userDisconnected] when the node was a user, and then sends one
    DomainServerRemovedNode to each node still in the hash whose linked
    data holds the killed node's type in its interest set, in the order of
    the hash, and to no other node; the killed node is not among them, and
    whether a receiver has an active socket is not looked at. *)
Theorem removed_node_is_announced_to_exactly_the_interested_peers
    (nodeUUID : QUuid) (nodeToKill : Node) (ds : DomainServer) :
  _nodeHash ds !! nodeUUID = Some nodeToKill →
  let ds' := handleKillNode nodeUUID nodeToKill ds in
  _nodeHash ds' !! nodeUUID = None
  ∧ (∀ o, o ∈ liveUUIDs ds' ↔ o ≠ nodeUUID ∧ o ∈ liveUUIDs ds)
  ∧ outbox ds'
    = outbox ds
      ++ (if isUser nodeToKill then [userDisconnected] else [])
      ++ ((λ o, DomainServerRemovedNode o nodeUUID)
          <$> filter (λ o, hearsOfRemovedNode ds nodeToKill o = true)
                (liveUUIDs ds')).
Proof.
  intros Hu ds'. subst ds'. unfold handleKillNode.
  destruct (kill_views nodeUUID nodeToKill ds Hu) as (Ht & Hi & Ho & _).
  destruct (removed_loop nodeUUID nodeToKill
              (liveUUIDs (killNodeWithUUID nodeUUID ds))
              (killNodeWithUUID nodeUUID ds)) as [Hh Hout].
  assert (∀ o, is_Some (_nodeHash (killNodeWithUUID nodeUUID ds) !! o)
               ↔ o ≠ nodeUUID ∧ is_Some (_nodeHash ds !! o)) as Hlive.
  { intros o. specialize (Ht o). unfold typeOf in Ht.
    rewrite <- !fmap_is_Some with (f := getType), Ht.
    case_decide; [|tauto]. split; [by intros [? ?]|tauto]. }
  assert (∀ d o, o ∈ liveUUIDs d ↔ is_Some (_nodeHash d !! o)) as Hkeys.
  { intros d o. unfold liveUUIDs. rewrite list_elem_of_fmap. split.
    - intros [[k v] [-> Hkv]]. apply elem_of_map_to_list in Hkv. by eexists.
    - intros [v Hv]. exists (o, v). split; [done|]. by apply elem_of_map_to_list. }
  split; [|split].
  - rewrite Hh. specialize (Hlive nodeUUID).
    destruct (_nodeHash (killNodeWithUUID nodeUUID ds) !! nodeUUID); [|done].
    exfalso. by apply Hlive.
  - intros o. unfold liveUUIDs at 1. rewrite Hh.
    change ((map_to_list (_nodeHash (killNodeWithUUID nodeUUID ds))).*1)
      with (liveUUIDs (killNodeWithUUID nodeUUID ds)).
    by rewrite !Hkeys.
  - rewrite Hout, Ho, <- app_assoc. do 2 f_equal.
    unfold liveUUIDs at 2. rewrite Hh.
    change ((map_to_list (_nodeHash (killNodeWithUUID nodeUUID ds))).*1)
      with (liveUUIDs (killNodeWithUUID nodeUUID ds)).
    f_equal. apply list_filter_ext_in. intros o Hin.
    rewrite !hearsOfRemovedNode_views, Hi.
    apply Hkeys, Hlive in Hin as [Hne _]. by rewrite decide_False.
Qed.

Lemma removed_node_is_announced_to_exactly_the_interested_peers_witness :
  _nodeHash threeNodes !! 1 = Some (mkNode Agent
      (Some (mkNodeData {[AudioMixer]} {[2 := 1]} 0 false true)) true)
  ∧ outbox (handleKillNode 1
              (mkNode Agent
                 (Some (mkNodeData {[AudioMixer]} {[2 := 1]} 0 false true)) true)
              threeNodes)
    = outbox threeNodes ++ [userDisconnected; DomainServerRemovedNode 2 1].
Proof.
  assert (_nodeHash threeNodes !! 1 = Some (mkNode Agent
      (Some (mkNodeData {[AudioMixer]} {[2 := 1]} 0 false true)) true)) as H
    by (vm_compute; reflexivity).
  split; [exact H|].
  destruct (removed_node_is_announced_to_exactly_the_interested_peers 1 _
              threeNodes H) as (_ & _ & Hout).
  rewrite Hout. vm_compute. reflexivity.
Defined.

(** ** Users *)

Lemma size_users_ext (m m' : gmap Z Node) :
  (∀ k, isUser <$> m !! k = isUser <$> m' !! k) →
  size (filter (λ kv, isUser kv.2 = true) m)
  = size (filter (λ kv, isUser kv.2 = true) m').
Proof.
  intros H. rewrite <- !size_dom. f_equal. apply set_eq. intros k.
  rewrite !elem_of_dom. unfold is_Some.
  setoid_rewrite map_lookup_filter_Some. specialize (H k).
  destruct (m !! k) as [n|], (m' !! k) as [n'|]; simplify_eq/=.
  - split; intros [x [[= <-] Hx]]; eexists; (split; [done|]); cbn in *; congruence.
  - split; intros [x [? _]]; done.
Qed.

Lemma users_bool ds :
  size (filter (λ kv : Z * Node, isUser kv.2) (_nodeHash ds))
  = size (filter (λ kv : Z * Node, isUser kv.2 = true) (_nodeHash ds)).
Proof.
  f_equal. apply map_filter_ext. intros k n _. cbn.
  destruct (isUser n); cbn; split; done.
Qed.

(** X8.  The count of connected users follows the [userDisconnected]
    signal: killing a live node lowers [countConnectedUsers] by one when
    the node was a user (an Agent whose linked data says it was not
    assigned), in which case [userDisconnected] is signalled once, and
    leaves the count as it was otherwise, in which case nothing is
    signalled. *)
Theorem user_count_follows_the_disconnect_signal
    (nodeUUID : QUuid) (nodeToKill : Node) (ds : DomainServer) :
  _nodeHash ds !! nodeUUID = Some nodeToKill →
  Z.of_nat (size (_nodeHash ds)) < UINT_MAX_PLUS_1 →
  let ds' := handleKillNode nodeUUID nodeToKill ds in
  countConnectedUsers ds
  = countConnectedUsers ds' + (if isUser nodeToKill then 1 else 0)
  ∧ ∃ packets,
      outbox ds'
      = outbox ds ++ (if isUser nodeToKill then [userDisconnected] else [])
        ++ packets
      ∧ userDisconnected ∉ packets.
Proof.
  intros Hu Hsize ds'. subst ds'. unfold handleKillNode.
  destruct (kill_views nodeUUID nodeToKill ds Hu) as (_ & _ & Ho & Husers).
  destruct (removed_loop nodeUUID nodeToKill
              (liveUUIDs (killNodeWithUUID nodeUUID ds))
              (killNodeWithUUID nodeUUID ds)) as [Hh Hout].
  split.
  - rewrite !countConnectedUsers_mod, Hh, !users_bool.
    rewrite (size_users_ext _ _ Husers).
    rewrite map_filter_delete.
    pose proof (map_size_filter (λ kv : Z * Node, isUser kv.2 = true)
                  (_nodeHash ds)) as Hle.
    destruct (isUser nodeToKill) eqn:Hn.
    + assert (filter (λ kv : Z * Node, isUser kv.2 = true) (_nodeHash ds)
              !! nodeUUID = Some nodeToKill) as Hin
        by (by apply map_lookup_filter_Some).
      assert (size (filter (λ kv : Z * Node, isUser kv.2 = true) (_nodeHash ds))
              = S (size (delete nodeUUID
                           (filter (λ kv : Z * Node, isUser kv.2 = true)
                              (_nodeHash ds))))) as Hsz.
      { rewrite <- (insert_delete_id _ _ _ Hin) at 1.
        apply map_size_insert_None, lookup_delete_eq. }
      rewrite !Z.mod_small by lia. lia.
    + rewrite delete_id; [lia|].
      apply map_lookup_filter_None. right. intros n. rewrite Hu.
      intros [= <-]. cbn. by rewrite Hn.
  - eexists. rewrite Hout, Ho, <- app_assoc. split; [reflexivity|].
    intros Hin. apply list_elem_of_fmap in Hin as [o [Hin _]]. discriminate.
Qed.

Lemma user_count_follows_the_disconnect_signal_witness :
  _nodeHash threeNodes !! 1 = Some (mkNode Agent
      (Some (mkNodeData {[AudioMixer]} {[2 := 1]} 0 false true)) true)
  ∧ Z.of_nat (size (_nodeHash threeNodes)) < UINT_MAX_PLUS_1
  ∧ countConnectedUsers threeNodes = 1
  ∧ countConnectedUsers
      (handleKillNode 1
         (mkNode Agent
            (Some (mkNodeData {[AudioMixer]} {[2 := 1]} 0 false true)) true)
         threeNodes) = 0.
Proof.
  assert (_nodeHash threeNodes !! 1 = Some (mkNode Agent
      (Some (mkNodeData {[AudioMixer]} {[2 := 1]} 0 false true)) true)) as H
    by (vm_compute; reflexivity).
  assert (Z.of_nat (size (_nodeHash threeNodes)) < UINT_MAX_PLUS_1) as Hs
    by (vm_compute; reflexivity).
  split; [exact H|]. split; [exact Hs|].
  destruct (user_count_follows_the_disconnect_signal 1 _ threeNodes H Hs)
    as [Hcount _].
  assert (countConnectedUsers threeNodes = 1) as H1 by (vm_compute; reflexivity).
  split; [exact H1|]. rewrite H1 in Hcount.
  change (isUser (mkNode Agent
            (Some (mkNodeData {[AudioMixer]} {[2 := 1]} 0 false true)) true))
    with true in Hcount.
  lia.
Defined.

End DepartureProofs.

(** * The assignment queue at start-up and at a worker's connection *)

Module QueueProofs.
Import Registry RegistryProofs Fanout FanoutProofs Queue.

(** ** dequeueMatchingAssignment *)

Lemma findMatchingAssignment_none deref t u l :
  Forall (λ q, isMatchingAssignment t u (deref q) = false) l →
  ∀ pos, findMatchingAssignment deref t u l pos = None.
Proof.
  induction 1 as [|q l Hq _ IH]; intros pos; cbn; [done|].
  rewrite Hq. apply IH.
Qed.

Lemma findMatchingAssignment_found deref t u before p after :
  Forall (λ q, isMatchingAssignment t u (deref q) = false) before →
  isMatchingAssignment t u (deref p) = true →
  ∀ pos, findMatchingAssignment deref t u (before ++ p :: after) pos
         = Some ((pos + length before)%nat, p).
Proof.
  induction 1 as [|q l Hq _ IH]; intros Hp pos; cbn.
  - rewrite Hp. do 2 f_equal. lia.
  - rewrite Hq, (IH Hp). do 2 f_equal. lia.
Qed.

Lemma isMatchingAssignment_spec t u a :
  isMatchingAssignment t u a = true ↔ a_type a = t ∧ a_uuid a = u.
Proof.
  unfold isMatchingAssignment.
  by rewrite andb_true_iff, bool_decide_eq_true, Z.eqb_eq.
Qed.

(** X9.  [dequeueMatchingAssignment] takes out of the queue the first
    entry that bears the given UUID and is of the assignment type of the
    given node type, and returns it; the entries before and behind it keep
    their order and nothing else changes.  When no queued entry is of that
    type under that UUID the result is null and the state is unchanged. *)
Theorem dequeue_takes_the_first_matching_assignment
    (typeForNodeType : NodeType_t → AssignmentType)
    (assignmentUUID : QUuid) (nodeType : NodeType_t) (ds : DomainServer) :
  let deref := assignmentObjects ds in
  let matching p :=
    a_type (deref p) = typeForNodeType nodeType ∧ a_uuid (deref p) = assignmentUUID in
  (Forall (λ p, ¬ matching p) (_unfulfilledAssignments ds) →
   dequeueMatchingAssignment typeForNodeType assignmentUUID nodeType ds = (None, ds))
  ∧ (∀ before p after,
       _unfulfilledAssignments ds = before ++ p :: after →
       Forall (λ q, ¬ matching q) before → matching p →
       dequeueMatchingAssignment typeForNodeType assignmentUUID nodeType ds
       = (Some p, set_unfulfilledAssignments (before ++ after) ds)).
Proof.
  intros deref matching.
  assert (∀ l, Forall (λ q, ¬ matching q) l →
               Forall (λ q, isMatchingAssignment (typeForNodeType nodeType)
                              assignmentUUID (deref q) = false) l) as Hno.
  { intros l Hl. eapply Forall_impl; [exact Hl|]. intros q Hq.
    destruct (isMatchingAssignment _ _ _) eqn:E; [|done].
    by apply isMatchingAssignment_spec in E. }
  split.
  - intros Hnone. unfold dequeueMatchingAssignment.
    by rewrite (findMatchingAssignment_none _ _ _ _ (Hno _ Hnone)).
  - intros before p after Hq Hb Hp. unfold dequeueMatchingAssignment.
    rewrite Hq, (findMatchingAssignment_found _ _ _ _ _ _ (Hno _ Hb)
                   (proj2 (isMatchingAssignment_spec _ _ _) Hp)).
    cbn [Nat.add]. by rewrite delete_middle.
Qed.

Lemma dequeue_takes_the_first_matching_assignment_witness :
  dequeueMatchingAssignment exampleTypeForNodeType 101 AudioMixer respawnState
  = (Some 1%nat, set_unfulfilledAssignments ([] ++ []) respawnState).
Proof.
  apply (proj2 (dequeue_takes_the_first_matching_assignment
                  exampleTypeForNodeType 101 AudioMixer respawnState) [] 1%nat []).
  - reflexivity.
  - constructor.
  - split; reflexivity.
Defined.

(** X10.  The assignment a request was answered with is the one the
    worker's connection takes off the queue.  Let the queued assignments
    bear different UUIDs and let [p] be the first entry a request is
    eligible for: the request is answered with [p], and a worker that then
    connects under [p]'s UUID with the node type of [p]'s assignment type
    dequeues [p], which leaves the other entries in the order they had
    before the request; a worker of another type dequeues nothing. *)
Theorem deployed_assignment_is_dequeued_by_its_worker
    (typeForNodeType : NodeType_t → AssignmentType)
    (requestAssignment : Assignment) (nodeType : NodeType_t)
    (before : list AssignmentPtr) (p : AssignmentPtr)
    (after : list AssignmentPtr) (ds : DomainServer) :
  _unfulfilledAssignments ds = before ++ p :: after →
  Forall (noMatch (assignmentObjects ds) requestAssignment) before →
  matchesRequest requestAssignment (assignmentObjects ds p) = true →
  distinctUUIDs ds →
  let '(deployed, ds1) := deployableAssignmentForRequest requestAssignment ds in
  let u := a_uuid (assignmentObjects ds p) in
  deployed = Some p
  ∧ (typeForNodeType nodeType = a_type (assignmentObjects ds p) →
     dequeueMatchingAssignment typeForNodeType u nodeType ds1
     = (Some p, set_unfulfilledAssignments (before ++ after) ds))
  ∧ (typeForNodeType nodeType ≠ a_type (assignmentObjects ds p) →
     dequeueMatchingAssignment typeForNodeType u nodeType ds1 = (None, ds1)).
Proof.
  intros Hq Hb Hp Hdistinct.
  rewrite (deployable_found _ _ _ _ _ Hq Hb Hp).
  set (deref := assignmentObjects ds).
  assert (Forall (λ q, a_uuid (deref q) ≠ a_uuid (deref p)) (before ++ after))
    as Hothers.
  { unfold distinctUUIDs in Hdistinct. rewrite Hq, fmap_app, fmap_cons in Hdistinct.
    fold deref in Hdistinct.
    apply NoDup_app in Hdistinct as (_ & Hcross & Hrest).
    apply NoDup_cons in Hrest as [Hnotin _].
    apply Forall_app. split; apply Forall_forall; intros q Hin Heq.
    - apply (Hcross (a_uuid (deref q))).
      + apply list_elem_of_fmap. by exists q.
      + rewrite Heq. apply elem_of_cons. by left.
    - apply Hnotin. apply list_elem_of_fmap. by exists q. }
  split; [done|].
  split.
  - intros Ht. unfold dequeueMatchingAssignment.
    cbn [assignmentObjects _unfulfilledAssignments set_unfulfilledAssignments].
    fold deref. rewrite app_assoc.
    rewrite (findMatchingAssignment_found deref _ _ (before ++ after) p []).
    + cbn [Nat.add]. rewrite delete_middle, app_nil_r. reflexivity.
    + eapply Forall_impl; [exact Hothers|]. intros q Hne.
      unfold isMatchingAssignment. apply andb_false_iff. right.
      by apply Z.eqb_neq.
    + apply isMatchingAssignment_spec. by rewrite Ht.
  - intros Ht. unfold dequeueMatchingAssignment.
    cbn [assignmentObjects _unfulfilledAssignments set_unfulfilledAssignments].
    fold deref. rewrite app_assoc.
    rewrite findMatchingAssignment_none; [done|].
    apply Forall_app. split.
    + eapply Forall_impl; [exact Hothers|]. intros q Hne.
      unfold isMatchingAssignment. apply andb_false_iff. right.
      by apply Z.eqb_neq.
    + constructor; [|constructor].
      unfold isMatchingAssignment. apply andb_false_iff. left.
      apply bool_decide_eq_false. congruence.
Qed.

Lemma deployed_assignment_is_dequeued_by_its_worker_witness :
  distinctUUIDs threeQueued
  ∧ (deployableAssignmentForRequest mixerRequest threeQueued).1 = Some 0%nat
  ∧ dequeueMatchingAssignment exampleTypeForNodeType 100 AudioMixer
      (deployableAssignmentForRequest mixerRequest threeQueued).2
    = (Some 0%nat, set_unfulfilledAssignments ([] ++ [1%nat; 2%nat]) threeQueued).
Proof.
  assert (distinctUUIDs threeQueued) as Hd.
  { unfold distinctUUIDs. apply (bool_decide_unpack _). vm_compute. exact I. }
  split; [exact Hd|].
  pose proof (deployed_assignment_is_dequeued_by_its_worker
                exampleTypeForNodeType mixerRequest AudioMixer
                [] 0%nat [1%nat; 2%nat] threeQueued eq_refl
                (Forall_nil_2 _) eq_refl Hd) as H.
  destruct (deployableAssignmentForRequest mixerRequest threeQueued)
    as [deployed ds1].
  destruct H as (H1 & H2 & _). split; [exact H1|]. exact (H2 eq_refl).
Defined.

(** ** addStaticAssignmentsToQueue *)

Lemma uuidsDrawn_refresh p ds :
  uuidsDrawn (refreshStaticAssignmentAndAddToQueue p ds) = S (uuidsDrawn ds).
Proof.
  unfold refreshStaticAssignmentAndAddToQueue, resetUUID. cbn.
  by destruct (bool_decide _ && isEmpty _).
Qed.

Lemma unmatched_ext ds ds' l :
  _nodeHash ds' = _nodeHash ds →
  (∀ p, p ∈ l → assignmentObjects ds' p = assignmentObjects ds p) →
  unmatched ds' l = unmatched ds l.
Proof.
  intros Hh Hobj. unfold unmatched. apply DepartureProofs.list_filter_ext_in.
  intros p Hp. by rewrite Hh, Hobj.
Qed.

Lemma addStatic_loop l :
  NoDup l →
  ∀ ds,
    let ds' := foldl addStaticVisit ds l in
    _unfulfilledAssignments ds' = _unfulfilledAssignments ds ++ unmatched ds l
    ∧ uuidsDrawn ds' = (uuidsDrawn ds + length (unmatched ds l))%nat
    ∧ (∀ i p, unmatched ds l !! i = Some p →
         a_uuid (assignmentObjects ds' p)
         = uuidSource ds (uuidsDrawn ds + i)%nat)
    ∧ (∀ p, p ∉ unmatched ds l →
         assignmentObjects ds' p = assignmentObjects ds p)
    ∧ _nodeHash ds' = _nodeHash ds
    ∧ uuidSource ds' = uuidSource ds
    ∧ (∀ u, is_Some (_allAssignments ds !! u) →
            is_Some (_allAssignments ds' !! u))
    ∧ (∀ p, p ∈ unmatched ds l →
            is_Some (_allAssignments ds' !! a_uuid (assignmentObjects ds' p))).
Proof.
  induction 1 as [|x l Hx Hnd IH]; intros ds; cbn [foldl].
  - cbn. rewrite app_nil_r, Nat.add_0_r.
    split; [done|]. split; [done|].
    split; [intros i p Hi; by rewrite lookup_nil in Hi|].
    split; [done|]. split; [done|]. split; [done|]. split; [done|].
    intros p Hp. by apply elem_of_nil in Hp.
  - assert (unmatched ds (x :: l)
            = if decide (_nodeHash ds !! a_uuid (assignmentObjects ds x) = None)
              then x :: unmatched ds l else unmatched ds l) as ->
      by (unfold unmatched; rewrite filter_cons; reflexivity).
    assert (addStaticVisit ds x
            = if decide (_nodeHash ds !! a_uuid (assignmentObjects ds x) = None)
              then refreshStaticAssignmentAndAddToQueue x ds else ds) as ->.
    { unfold addStaticVisit.
      destruct (_nodeHash ds !! a_uuid (assignmentObjects ds x));
        [by rewrite decide_False|by rewrite decide_True]. }
    case_decide as Hnode; [|apply IH].
    + cbn zeta.
      destruct (refresh_fields x ds) as (Hobj & Hidx & Hq & _).
      pose proof (nodeHash_refresh x ds) as Hh.
      pose proof (uuidSource_refresh x ds) as Hsrc.
      pose proof (uuidsDrawn_refresh x ds) as Hdrawn.
      set (ds1 := refreshStaticAssignmentAndAddToQueue x ds) in *.
      assert (∀ p, p ≠ x → assignmentObjects ds1 p = assignmentObjects ds p)
        as Hother.
      { intros p Hp. rewrite Hobj. unfold store. by rewrite decide_False. }
      assert (a_uuid (assignmentObjects ds1 x) = uuidSource ds (uuidsDrawn ds))
        as Hnew.
      { rewrite Hobj. unfold store. by rewrite decide_True. }
      assert (unmatched ds1 l = unmatched ds l) as Hun.
      { apply unmatched_ext; [done|]. intros p Hp. apply Hother.
        intros ->. done. }
      assert (x ∉ unmatched ds l) as Hxout.
      { intros Hin. apply list_elem_of_filter in Hin as [_ Hin]. done. }
      destruct (IH ds1) as (Hq' & Hd' & Hu' & Ho' & Hh' & Hs' & Hi' & Hn').
      rewrite Hun in Hq', Hd', Hu', Ho', Hn'.
      split; [by rewrite Hq', Hq, <- app_assoc|].
      split; [rewrite Hd', Hdrawn; cbn [length]; lia|].
      split; [|split; [|split; [congruence|split; [congruence|split]]]].
      * intros [|i] p Hi; cbn in Hi.
        -- injection Hi as <-. rewrite Ho' by done. rewrite Hnew.
           by rewrite Nat.add_0_r.
        -- rewrite (Hu' i p Hi), Hsrc, Hdrawn. f_equal. lia.
      * intros p Hp. apply not_elem_of_cons in Hp as [Hne Hp].
        rewrite Ho' by done. by apply Hother.
      * intros u Hu. apply Hi'. rewrite Hidx.
        destruct (decide (uuidSource ds (uuidsDrawn ds) = u)) as [->|Hne].
        -- rewrite lookup_insert_eq. by eexists.
        -- by rewrite lookup_insert_ne.
      * intros p Hp. apply elem_of_cons in Hp as [->|Hp]; [|by apply Hn'].
        rewrite Ho' by done. apply Hi'. rewrite Hnew, Hidx, lookup_insert_eq.
        by eexists.
Qed.

(** X11.  At start-up [addStaticAssignmentsToQueue] goes through the
    indexed assignments in the order the sort leaves them in and queues,
    in that order and each once, those under whose UUID no node is live;
    each of them gets the next UUID of the generator as it is queued and is
    indexed under it, while the index keeps the keys it had; an assignment
    under whose UUID a node is live is neither queued nor changed.  (Each
    assignment object is taken to be indexed once, and the sort to permute
    its input.) *)
Theorem unmatched_assignments_are_queued_at_startup
    (qSort : (AssignmentPtr → AssignmentPtr → bool) →
             list AssignmentPtr → list AssignmentPtr)
    (typeLess : AssignmentType → AssignmentType → bool) (ds : DomainServer) :
  (∀ lessThan l, qSort lessThan l ≡ₚ l) →
  NoDup (map_to_list (_allAssignments ds)).*2 →
  let sharedAssignments :=
    qSort (sortsBefore typeLess (assignmentObjects ds))
      (map_to_list (_allAssignments ds)).*2 in
  let queued := unmatched ds sharedAssignments in
  let ds' := addStaticAssignmentsToQueue qSort typeLess ds in
  _unfulfilledAssignments ds' = _unfulfilledAssignments ds ++ queued
  ∧ NoDup queued
  ∧ (∀ p, p ∈ queued ↔
          (∃ u, _allAssignments ds !! u = Some p)
          ∧ _nodeHash ds !! a_uuid (assignmentObjects ds p) = None)
  ∧ uuidsDrawn ds' = (uuidsDrawn ds + length queued)%nat
  ∧ (∀ i p, queued !! i = Some p →
       a_uuid (assignmentObjects ds' p) = uuidSource ds (uuidsDrawn ds + i)%nat
       ∧ is_Some (_allAssignments ds' !! a_uuid (assignmentObjects ds' p)))
  ∧ (∀ p, p ∉ queued → assignmentObjects ds' p = assignmentObjects ds p)
  ∧ (∀ u, is_Some (_allAssignments ds !! u) → is_Some (_allAssignments ds' !! u)).
Proof.
  intros Hperm Hnd sharedAssignments queued ds'.
  assert (NoDup sharedAssignments) as Hnd'.
  { unfold sharedAssignments. by rewrite Hperm. }
  destruct (addStatic_loop sharedAssignments Hnd' ds)
    as (Hq & Hd & Hu & Ho & _ & _ & Hi & Hn).
  fold queued in Hq, Hd, Hu, Ho, Hn.
  split; [exact Hq|]. split; [by apply NoDup_filter|]. split.
  { intros p. unfold queued, unmatched. rewrite list_elem_of_filter.
    unfold sharedAssignments. rewrite Hperm, list_elem_of_fmap.
    split.
    - intros [Hnone [[u q] [-> Hin]]]. apply elem_of_map_to_list in Hin.
      split; [by exists u|done].
    - intros [[u Hu'] Hnone]. split; [done|]. exists (u, p).
      split; [done|]. by apply elem_of_map_to_list. }
  split; [exact Hd|]. split; [|split; [exact Ho|exact Hi]].
  intros i p Hip. split; [by apply Hu|].
  apply Hn. by eapply list_elem_of_lookup_2.
Qed.

Lemma unmatched_assignments_are_queued_at_startup_witness :
  (∀ (lessThan : nat → nat → bool) (l : list nat), l ≡ₚ l)
  ∧ NoDup (map_to_list (_allAssignments restarted)).*2
  ∧ _unfulfilledAssignments (addStaticAssignmentsToQueue (λ _ l, l) (λ _ _, false)
                               restarted)
    = [0%nat].
Proof.
  assert (NoDup (map_to_list (_allAssignments restarted)).*2) as Hnd.
  { apply (bool_decide_unpack _). vm_compute. exact I. }
  split; [done|]. split; [exact Hnd|].
  destruct (unmatched_assignments_are_queued_at_startup (λ _ l, l) (λ _ _, false)
              restarted (λ _ l, reflexivity l) Hnd) as (Hq & _).
  rewrite Hq. vm_compute. reflexivity.
Defined.

End QueueProofs.

(** * Path queries *)

Module PathQueryProofs.
Import PathQuery.

Lemma left_app query rest :
  left (String.length query) (query ++ rest) = query.
Proof.
  induction query as [|c query IH]; cbn [left String.length String.append].
  - by destruct rest.
  - f_equal. exact IH.
Qed.

Lemma size_nonneg a : 0 ≤ size a.
Proof. unfold size. lia. Qed.

Lemma size_slashed query :
  size (slashed query) = if startsWithSlash query then size query else size query + 1.
Proof.
  unfold slashed. destruct (startsWithSlash query); [done|].
  unfold size.
  change (String.length ("/" ++ query)) with (S (String.length query)). lia.
Qed.

Lemma normalised lib bytes :
  (if negb (startsWithSlash (fromUtf8 lib bytes))
   then ("/" ++ fromUtf8 lib bytes)%string else fromUtf8 lib bytes)
  = slashed (fromUtf8 lib bytes).
Proof. unfold slashed. by destruct (startsWithSlash _). Qed.

(** X12.  A path query whose length field exceeds the bytes that follow it
    is not answered.  A response echoes the length field as it was
    received, while the path it carries is the queried path with a slash
    put in front when it had none: for a well-formed query without the
    leading slash the path written is one byte longer than the length
    written before it.  The length field of the viewpoint is the number of
    its bytes modulo 2^16, and it is that field the room test looks at:
    when the viewpoint is shorter than 2^16 bytes, and the room of the
    packet is a number from 0 to 2^64 - 1, the two length fields, the path
    and the viewpoint written fit the room. *)
Theorem path_response_echoes_the_received_length
    (lib : Library) (query rest : string) (bytesAvailableForWrite senderSockAddr : Z) :
  transparentTo lib query →
  (∀ numPathBytes,
     size (query ++ rest) < numPathBytes →
     processPathQueryPacket lib numPathBytes (query ++ rest)
       bytesAvailableForWrite senderSockAddr = None)
  ∧ ∀ response,
      processPathQueryPacket lib (size query) (query ++ rest)
        bytesAvailableForWrite senderSockAddr = Some response →
      writtenPathBytes response = size query
      ∧ writtenPath response = slashed query
      ∧ (startsWithSlash query = false →
         size (writtenPath response) = writtenPathBytes response + 1)
      ∧ writtenViewpointBytes response
        = size (writtenViewpoint response) mod 2 ^ 16
      ∧ (size (writtenViewpoint response) < 2 ^ 16 →
         0 ≤ bytesAvailableForWrite < 2 ^ 64 →
         2 + size (writtenPath response) + 2 + size (writtenViewpoint response)
         ≤ bytesAvailableForWrite).
Proof.
  intros [Hfrom Hto]. split.
  - intros numPathBytes Hlt. unfold processPathQueryPacket.
    by rewrite (proj2 (Z.leb_gt _ _) Hlt).
  - intros response. unfold processPathQueryPacket.
    assert (Z.to_nat (size query) = String.length query) as ->
      by (unfold size; lia).
    rewrite left_app, normalised, Hfrom, Hto.
    destruct (size query <=? size (query ++ rest)); [|done].
    destruct (bool_decide _ || bool_decide _); [|done].
    destruct (negb _); [|done].
    destruct (_ <? _) eqn:Hfits; [|done].
    apply Z.ltb_lt in Hfits. intros [= <-].
    cbn [writtenPathBytes writtenPath writtenViewpointBytes writtenViewpoint].
    rewrite size_slashed.
    split; [done|]. split; [done|]. split; [by intros ->|]. split; [done|].
    intros Hshort Hroom.
    rewrite (Z.mod_small bytesAvailableForWrite) in Hfits by done.
    rewrite Z.mod_small in Hfits by (split; [apply size_nonneg|done]).
    destruct (startsWithSlash query); lia.
Qed.

Lemma path_response_echoes_the_received_length_witness :
  transparentTo gardenLibrary "garden"
  ∧ processPathQueryPacket gardenLibrary 6 "garden" 1400 9
    = Some (mkPathResponse 9 6 "/garden" 14 "/1,2,3/0,0,0,1")
  ∧ 2 + size "/garden" + 2 + size "/1,2,3/0,0,0,1" ≤ 1400.
Proof.
  assert (transparentTo gardenLibrary "garden") as H by (split; reflexivity).
  assert (processPathQueryPacket gardenLibrary 6 "garden" 1400 9
          = Some (mkPathResponse 9 6 "/garden" 14 "/1,2,3/0,0,0,1")) as Hrun
    by (vm_compute; reflexivity).
  split; [exact H|]. split; [exact Hrun|].
  destruct (proj2 (path_response_echoes_the_received_length gardenLibrary
                     "garden" "" 1400 9 H) _ Hrun) as (_ & _ & _ & _ & Hfit).
  apply Hfit; [vm_compute; reflexivity|lia].
Defined.

(** X13.  An empty path query is answered as a query for the index path.
    With a codec that turns no bytes into the empty string, a query of
    length zero, whatever bytes follow the length field, is looked up as
    "/": its viewpoint is the one the settings hold for "/", or the default
    viewpoint /0,0,0/0,0,0,1 when they hold none.  When that viewpoint is
    not empty and its length field plus four is below the room of the
    packet, the response carries a length field of zero, the path "/", and
    the viewpoint after its length field; when the viewpoint is empty, or
    does not pass the room test, nothing is sent. *)
Theorem empty_path_query_is_answered_as_index
    (lib : Library) (payload : string) (bytesAvailableForWrite senderSockAddr : Z) :
  fromUtf8 lib "" = ""%string →
  let keypath := (SETTINGS_PATHS_KEY lib ++ "./")%string in
  let responseViewpoint :=
    default DEFAULT_INDEX_PATH (viewpointForKeyPath lib keypath) in
  let numViewpointBytes := size (toUtf8 lib responseViewpoint) mod 2 ^ 16 in
  let sent :=
    processPathQueryPacket lib 0 payload bytesAvailableForWrite senderSockAddr in
  (responseViewpoint ≠ ""%string →
   numViewpointBytes + 4 < bytesAvailableForWrite mod 2 ^ 64 →
   sent = Some (mkPathResponse senderSockAddr 0 (toUtf8 lib "/") numViewpointBytes
                  (toUtf8 lib responseViewpoint)))
  ∧ (responseViewpoint = ""%string → sent = None)
  ∧ (bytesAvailableForWrite mod 2 ^ 64 ≤ numViewpointBytes + 4 → sent = None)
  ∧ (viewpointForKeyPath lib keypath = None →
     responseViewpoint = "/0,0,0/0,0,0,1"%string).
Proof.
  intros Hfrom keypath responseViewpoint numViewpointBytes sent.
  assert (sent
          = if negb (bool_decide (responseViewpoint = ""%string)) then
              if 0 + numViewpointBytes + 2 + 2 <? bytesAvailableForWrite mod 2 ^ 64
              then Some (mkPathResponse senderSockAddr 0 (toUtf8 lib "/")
                           numViewpointBytes (toUtf8 lib responseViewpoint))
              else None
            else None) as ->.
  { subst sent. unfold processPathQueryPacket.
    rewrite (proj2 (Z.leb_le 0 (size payload)) (size_nonneg payload)).
    change (left (Z.to_nat 0) payload) with ""%string. rewrite Hfrom.
    change (startsWithSlash "") with false. cbn [negb].
    change ("/" ++ "")%string with "/"%string.
    change (SETTINGS_PATHS_KEY lib ++ "." ++ "/")%string with keypath.
    rewrite (bool_decide_eq_true_2 ("/"%string = INDEX_PATH)) by done.
    by rewrite orb_true_r. }
  split; [|split; [|split]].
  - intros Hne Hfits. rewrite (bool_decide_eq_false_2 _ Hne). cbn [negb].
    by rewrite (proj2 (Z.ltb_lt _ _)) by lia.
  - intros Hempty. by rewrite (bool_decide_eq_true_2 _ Hempty).
  - intros Hsmall. destruct (negb _); [|done].
    by rewrite (proj2 (Z.ltb_ge _ _)) by lia.
  - intros Hnone. unfold responseViewpoint. by rewrite Hnone.
Qed.

Lemma empty_path_query_is_answered_as_index_witness :
  fromUtf8 gardenLibrary "" = ""%string
  ∧ processPathQueryPacket gardenLibrary 0 "trailing" 1400 9
    = Some (mkPathResponse 9 0 "/" 14 "/0,0,0/0,0,0,1")
  ∧ processPathQueryPacket gardenLibrary 0 "trailing" 18 9 = None.
Proof.
  split; [reflexivity|]. split.
  - refine (proj1 (empty_path_query_is_answered_as_index gardenLibrary "trailing"
                     1400 9 eq_refl) _ _).
    + discriminate.
    + vm_compute. reflexivity.
  - refine (proj1 (proj2 (proj2 (empty_path_query_is_answered_as_index
                                   gardenLibrary "trailing" 18 9 eq_refl))) _).
    vm_compute. discriminate.
Defined.

End PathQueryProofs.

(** * The entities file on the wire *)

Module OctreeProofs.
Import Entities Octree.

Lemma no_replacement_no_swap st :
  readOctreeDataInfoFromFile (replacementFile st) st = None →
  maybeHandleReplacementEntityFile st = st.
Proof. intros H. unfold maybeHandleReplacementEntityFile. by rewrite H. Qed.

(** X14.  An entity server that has just persisted its data is told it is
    up to date, and any other is sent the file.  With no replacement file
    waiting and the entities file writable, a persist message leaves the
    received bytes in the entities file; if they parse, a request that
    names their id at their version or a later one is answered without
    data, and a request that names another id or an earlier version, or
    none at all while the id is not null, is answered with those bytes,
    provided the file opens for reading. *)
Theorem persisted_entities_are_served_until_matched
    (data : string) (info : RawEntityData) (st : EntitiesState) :
  readOctreeDataInfoFromFile (replacementFile st) st = None →
  entitiesWritable st = true →
  readOctreeDataInfo st data = Some info →
  let st1 := processOctreeDataPersistMessage data st in
  entitiesFile st1 = Some data
  ∧ (∀ v i r, version info ≤ v →
       processOctreeDataRequestMessage true (id info) v i r st1 = (NoData, st1))
  ∧ (∀ u v i, u ≠ id info ∨ v < version info →
       processOctreeDataRequestMessage true u v i true st1 = (FileData data, st1))
  ∧ (∀ u v i, id info ≠ 0 →
       processOctreeDataRequestMessage false u v i true st1 = (FileData data, st1)).
Proof.
  intros Hnone Hw Hparse st1. subst st1.
  unfold processOctreeDataPersistMessage. rewrite Hw.
  assert (maybeHandleReplacementEntityFile (set_entitiesFile (Some data) st)
          = set_entitiesFile (Some data) st) as Hswap
    by (by apply no_replacement_no_swap).
  split; [done|].
  unfold processOctreeDataRequestMessage. rewrite Hswap.
  unfold readOctreeDataInfoFromFile.
  cbn [entitiesFile set_entitiesFile readOctreeDataInfo mbind option_bind default].
  rewrite Hparse.
  split; [|split].
  - intros v i r Hv. rewrite Z.eqb_refl, (proj2 (Z.leb_le _ _) Hv). done.
  - intros u v i [Hu|Hv].
    + by rewrite (proj2 (Z.eqb_neq _ _)) by done.
    + rewrite (proj2 (Z.leb_gt _ _) Hv). by rewrite andb_false_r.
  - intros u v i Hnz. by rewrite (proj2 (Z.eqb_neq _ _) Hnz).
Qed.

Lemma persisted_entities_are_served_until_matched_witness :
  readOctreeDataInfoFromFile (replacementFile settled) settled = None
  ∧ entitiesWritable settled = true
  ∧ readOctreeDataInfo settled "84new scene" = Some (mkRawEntityData 8 4 "new scene")
  ∧ processOctreeDataRequestMessage true 8 4 0 true
      (processOctreeDataPersistMessage "84new scene" settled)
    = (NoData, processOctreeDataPersistMessage "84new scene" settled)
  ∧ processOctreeDataRequestMessage true 8 3 0 true
      (processOctreeDataPersistMessage "84new scene" settled)
    = (FileData "84new scene", processOctreeDataPersistMessage "84new scene" settled).
Proof.
  split; [reflexivity|]. split; [reflexivity|]. split; [reflexivity|].
  destruct (persisted_entities_are_served_until_matched "84new scene"
              (mkRawEntityData 8 4 "new scene") settled eq_refl eq_refl eq_refl)
    as (_ & Hsame & Hother & _).
  split.
  - apply (Hsame 4 0 true). cbn. lia.
  - apply (Hother 8 3 0). right. cbn. lia.
Defined.

Lemma pending_replacement_is_served
    (remoteHasExistingData : bool) (idData : QUuid) (versionData indeterminate : Z)
    (info : RawEntityData) (st : EntitiesState) :
  readOctreeDataInfoFromFile (replacementFile st) st = Some info →
  replacementRemovable st = true →
  entitiesWritable st = true →
  let fresh := uuidSource st (uuidsDrawn st) in
  let installed := mkRawEntityData fresh INITIAL_VERSION (octreeData info) in
  readOctreeDataInfo st (toGzippedByteArray st installed) = Some installed →
  fresh ≠ (if remoteHasExistingData then idData else 0) →
  let '(reply, st') :=
    processOctreeDataRequestMessage remoteHasExistingData idData versionData
      indeterminate true st in
  reply = FileData (toGzippedByteArray st installed)
  ∧ entitiesFile st' = Some (toGzippedByteArray st installed)
  ∧ replacementFile st' = None.
Proof.
  intros Hrep Hrm Hw fresh installed Hround Hfresh.
  unfold processOctreeDataRequestMessage, maybeHandleReplacementEntityFile.
  rewrite Hrep, Hrm, Hw. cbn [negb].
  unfold readOctreeDataInfoFromFile, resetIdAndVersion.
  cbn [entitiesFile readOctreeDataInfo toGzippedByteArray mbind option_bind
       replacementFile default octreeData].
  fold fresh. fold installed. rewrite Hround.
  cbn [id version installed].
  by rewrite (proj2 (Z.eqb_neq _ _) Hfresh).
Qed.

(** X15.  A replacement is delivered whatever the entity server holds.
    When a replacement file that parses is waiting and can be removed, and
    the entities file can be written and read, the next data request
    installs the replacement under a newly generated id at the initial
    version and answers with the installed bytes, however high the version
    the entity server reports, as long as the new id is not the one it
    reports (or the null id, when it reports none).  (The bytes written are
    taken to parse back to what was written.) *)
Theorem replacement_is_delivered_whatever_the_version
    (remoteHasExistingData : bool) (idData : QUuid) (versionData indeterminate : Z)
    (info : RawEntityData) (st : EntitiesState) :
  readOctreeDataInfoFromFile (replacementFile st) st = Some info →
  replacementRemovable st = true →
  entitiesWritable st = true →
  let fresh := uuidSource st (uuidsDrawn st) in
  let installed := mkRawEntityData fresh INITIAL_VERSION (octreeData info) in
  readOctreeDataInfo st (toGzippedByteArray st installed) = Some installed →
  fresh ≠ (if remoteHasExistingData then idData else 0) →
  let '(reply, st') :=
    processOctreeDataRequestMessage remoteHasExistingData idData versionData
      indeterminate true st in
  reply = FileData (toGzippedByteArray st installed)
  ∧ entitiesFile st' = Some (toGzippedByteArray st installed)
  ∧ replacementFile st' = None.
Proof.
  intros Hrep Hrm Hw fresh installed Hround Hfresh.
  exact (pending_replacement_is_served remoteHasExistingData
           idData versionData indeterminate info st Hrep Hrm Hw Hround Hfresh).
Qed.

Lemma replacement_is_delivered_whatever_the_version_witness :
  readOctreeDataInfoFromFile (replacementFile replacementWaiting) replacementWaiting
  = Some (mkRawEntityData 5 2 "new scene")
  ∧ (processOctreeDataRequestMessage true 5 1000 0 true replacementWaiting).1
    = FileData "10new scene".
Proof.
  split; [reflexivity|].
  pose proof (replacement_is_delivered_whatever_the_version true 5 1000 0
                (mkRawEntityData 5 2 "new scene") replacementWaiting
                eq_refl eq_refl eq_refl eq_refl) as H.
  cbn zeta in H.
  destruct (processOctreeDataRequestMessage true 5 1000 0 true replacementWaiting)
    as [reply st'].
  apply H. vm_compute. discriminate.
Defined.

Lemma settled_file_is_served
    (remoteHasExistingData : bool) (idData : QUuid) (versionData indeterminate : Z)
    (file : string) (info : RawEntityData) (st : EntitiesState) :
  replacementFile st = None →
  entitiesFile st = Some file →
  readOctreeDataInfo st file = Some info →
  id info ≠ (if remoteHasExistingData then idData else 0) →
  processOctreeDataRequestMessage remoteHasExistingData idData versionData
    indeterminate true st = (FileData file, st).
Proof.
  intros Hrep Hfile Hparse Hid.
  unfold processOctreeDataRequestMessage.
  rewrite no_replacement_no_swap by (by rewrite Hrep).
  unfold readOctreeDataInfoFromFile. rewrite Hfile. cbn [mbind option_bind default].
  rewrite Hparse. by rewrite (proj2 (Z.eqb_neq _ _) Hid).
Qed.

(** X16.  An uploaded entities file reaches the entity server, provided
    the replacement file can be written and later removed and the entities
    file can be written and opened for reading.  Under these conditions,
    when the upload parses, the server is asked to restart, and the data
    request that follows is answered with the uploaded data, installed
    under a second newly generated id at the initial version, whether the
    request finds the replacement still waiting or the server has
    installed it on starting; this as long as the second id is not the one
    the entity server reports (or the null id, when it reports none).  An
    upload that does not parse changes nothing and asks for no restart.
    (The replacement file is taken to parse back to what the upload wrote,
    and the entities file to what the installation wrote.) *)
Theorem uploaded_entities_file_reaches_the_entity_server
    (codec : UploadCodec) (octreeFile : string)
    (remoteHasExistingData : bool) (idData : QUuid) (versionData indeterminate : Z)
    (st : EntitiesState) :
  replacementRemovable st = true →
  entitiesWritable st = true →
  let jsonOctree := default octreeFile (gunzip codec octreeFile) in
  let first := uuidSource st (uuidsDrawn st) in
  let second := uuidSource st (S (uuidsDrawn st)) in
  (readOctreeDataInfoFromData codec jsonOctree = None →
     handleOctreeFileReplacement codec true true octreeFile st = (false, st))
  ∧ (∀ info,
       readOctreeDataInfoFromData codec jsonOctree = Some info →
       let written := mkRawEntityData first INITIAL_VERSION (octreeData info) in
       let installed := mkRawEntityData second INITIAL_VERSION (octreeData info) in
       readOctreeDataInfo st (gzip codec (toByteArray codec written)) = Some written →
       readOctreeDataInfo st (toGzippedByteArray st installed) = Some installed →
       second ≠ (if remoteHasExistingData then idData else 0) →
       let '(restart, st1) :=
         handleOctreeFileReplacement codec true true octreeFile st in
       restart = true
       ∧ ∀ st', st' = st1 ∨ st' = maybeHandleReplacementEntityFile st1 →
           let '(reply, st2) :=
             processOctreeDataRequestMessage remoteHasExistingData idData
               versionData indeterminate true st' in
           reply = FileData (toGzippedByteArray st installed)
           ∧ entitiesFile st2 = Some (toGzippedByteArray st installed)
           ∧ replacementFile st2 = None).
Proof.
  intros Hrm Hw jsonOctree first second. split.
  - intros Hbad. unfold handleOctreeFileReplacement. fold jsonOctree.
    by rewrite Hbad.
  - intros info Hgood written installed Hback Hround Hfresh.
    unfold handleOctreeFileReplacement. fold jsonOctree. rewrite Hgood.
    unfold resetIdAndVersion at 1. fold first. fold written.
    set (st1 := set_replacementFile _ _).
    split; [done|].
    assert (readOctreeDataInfoFromFile (replacementFile st1) st1 = Some written)
      as Hwaiting by (subst st1; exact Hback).
    intros st' [->| ->].
    + pose proof (pending_replacement_is_served
                    remoteHasExistingData idData versionData indeterminate
                    written st1) as H.
      cbn zeta in H.
      destruct (processOctreeDataRequestMessage remoteHasExistingData idData
                  versionData indeterminate true st1) as [reply st2].
      apply H; subst st1; done.
    + rewrite (settled_file_is_served remoteHasExistingData idData versionData
                 indeterminate (toGzippedByteArray st installed) installed).
      * unfold maybeHandleReplacementEntityFile. rewrite Hwaiting.
        subst st1. cbn. rewrite Hrm, Hw. done.
      * unfold maybeHandleReplacementEntityFile. rewrite Hwaiting.
        subst st1. cbn. rewrite Hrm. done.
      * unfold maybeHandleReplacementEntityFile. rewrite Hwaiting.
        subst st1. cbn. rewrite Hrm, Hw. done.
      * unfold maybeHandleReplacementEntityFile. rewrite Hwaiting.
        subst st1. cbn. rewrite Hrm. cbn. exact Hround.
      * exact Hfresh.
Qed.

Lemma uploaded_entities_file_reaches_the_entity_server_witness :
  replacementRemovable settled = true
  ∧ entitiesWritable settled = true
  ∧ readOctreeDataInfoFromData headedUpload "52new scene"
    = Some (mkRawEntityData 5 2 "new scene")
  ∧ (handleOctreeFileReplacement headedUpload true true "52new scene" settled).1 = true
  ∧ (processOctreeDataRequestMessage true 7 3 0 true
       (maybeHandleReplacementEntityFile
          (handleOctreeFileReplacement headedUpload true true "52new scene"
             settled).2)).1
    = FileData "20new scene".
Proof.
  split; [reflexivity|]. split; [reflexivity|]. split; [reflexivity|].
  destruct (uploaded_entities_file_reaches_the_entity_server headedUpload
              "52new scene" true 7 3 0 settled eq_refl eq_refl) as [_ H].
  specialize (H (mkRawEntityData 5 2 "new scene") eq_refl eq_refl eq_refl).
  cbn zeta in H.
  destruct (handleOctreeFileReplacement headedUpload true true "52new scene" settled)
    as [restart st1].
  cbn [fst snd].
  destruct H as [Hr Hreq]; [vm_compute; discriminate|].
  split; [exact Hr|].
  specialize (Hreq (maybeHandleReplacementEntityFile st1) (or_intror eq_refl)).
  destruct (processOctreeDataRequestMessage true 7 3 0 true
              (maybeHandleReplacementEntityFile st1)) as [reply st2].
  exact (proj1 Hreq).
Defined.

End OctreeProofs.

(** * The OAuth state across requests *)

Module OAuthProofs.
Import Http OAuth.

Lemma tokensOf_app l1 l2 : tokensOf (l1 ++ l2) = tokensOf l1 ++ tokensOf l2.
Proof. unfold tokensOf. apply omap_app. Qed.

Lemma respond_quiet r st :
  tokensOf (httpLog (respond r st)) = tokensOf (httpLog st).
Proof. cbn. rewrite tokensOf_app. cbn. by rewrite app_nil_r. Qed.

Lemma stepOf_quiet st st' :
  uuidSource st' = uuidSource st →
  _webAuthenticationStateSet st' = _webAuthenticationStateSet st →
  uuidsDrawn st' = uuidsDrawn st →
  tokensOf (httpLog st') = tokensOf (httpLog st) →
  stepOf st st'.
Proof. intros. split; [done|]. by left. Qed.

Lemma stepOf_respond r st : stepOf st (respond r st).
Proof. apply stepOf_quiet; try done. apply respond_quiet. Qed.

Lemma stepOf_refl st : stepOf st st.
Proof. by apply stepOf_quiet. Qed.

Lemma isAuthenticatedRequest_step connection st :
  stepOf st (isAuthenticatedRequest connection st).2.
Proof.
  unfold isAuthenticatedRequest.
  unfold createUuid.
  repeat case_match; simplify_eq/=;
    try apply stepOf_refl; try apply stepOf_respond.
  all: split; [done|]; right; left; cbn.
  all: split; [done|]; split; [done|].
  all: rewrite tokensOf_app; cbn; by rewrite app_nil_r.
Qed.

Lemma handleHTTPRequest_step connection st :
  stepOf st (handleHTTPRequest connection st).2.
Proof.
  unfold handleHTTPRequest.
  pose proof (isAuthenticatedRequest_step connection st) as Hauth.
  destruct (isAuthenticatedRequest connection st) as [authenticated st1].
  repeat case_match; simplify_eq/=;
    try exact Hauth; try apply stepOf_refl; try apply stepOf_respond.
Qed.

Lemma handleHTTPSRequest_step connection st :
  stepOf st (handleHTTPSRequest connection st).2.
Proof.
  unfold handleHTTPSRequest, stepOf.
  repeat case_match; simplify_eq/=; (split; [done|]).
  - right; right. exists (stateQueryItem connection).
    match goal with H : _ && _ && _ = true |- _ =>
      apply andb_true_iff in H as [H Hin]; apply andb_true_iff in H as [_ Hnull] end.
    apply bool_decide_eq_true in Hin. apply negb_true_iff in Hnull.
    unfold isNull in Hnull. apply Z.eqb_neq in Hnull.
    rewrite tokensOf_app. done.
  - left. rewrite tokensOf_app. cbn. by rewrite app_nil_r.
  - by left.
Qed.

Lemma issuedOnce_step k0 src st st' :
  Inj (=) (=) src → issuedOnce k0 src st → stepOf st st' → issuedOnce k0 src st'.
Proof.
  intros Hinj (Hsrc & Hk & Hset & Htok & Hnd & Hdis) [Hsrc' Hcases].
  destruct Hcases as [(Hs & Hd & Ht)|[(Hs & Hd & Ht)|(s & Hnz & Hin & Hs & Hd & Ht)]];
    unfold issuedOnce; rewrite Hs, Hd, Ht, Hsrc', Hsrc.
  - done.
  - split; [done|]. split; [lia|]. split; [|split; [|split; [done|]]].
    + intros s [Hin| ->%elem_of_singleton]%elem_of_union.
      * destruct (Hset s Hin) as (k & ? & ?). exists k. split; [lia|done].
      * exists (uuidsDrawn st). split; [lia|done].
    + intros s Hin. destruct (Htok s Hin) as (? & k & ? & ?).
      split; [done|]. exists k. split; [lia|done].
    + intros s [Hin| ->%elem_of_singleton]%elem_of_union; [by apply Hdis|].
      intros Hin. destruct (Htok _ Hin) as (_ & k & Hlt & Heq).
      apply Hinj in Heq. lia.
  - split; [done|]. split; [done|]. split; [|split; [|split]].
    + intros s' [Hin' _]%elem_of_difference. by apply Hset.
    + intros s' [Hin'| ->%list_elem_of_singleton]%elem_of_app; [by apply Htok|].
      split; [done|]. by apply Hset.
    + apply NoDup_app. split; [done|]. split; [|apply NoDup_singleton].
      intros s' Hin' ->%list_elem_of_singleton. by apply (Hdis s).
    + intros s' [Hin' Hne]%elem_of_difference
        [Hin''| ->%list_elem_of_singleton]%elem_of_app.
      * by apply (Hdis s').
      * apply Hne. by apply elem_of_singleton.
Qed.

Lemma serve_step st request : stepOf st (serve st request).
Proof.
  destruct request; [apply handleHTTPRequest_step|apply handleHTTPSRequest_step].
Qed.

Lemma issuedOnce_foldl k0 src requests st :
  Inj (=) (=) src → issuedOnce k0 src st → issuedOnce k0 src (foldl serve st requests).
Proof.
  intros Hinj. revert st. induction requests as [|r requests IH]; intros st Hinv.
  - done.
  - cbn. apply IH. eapply issuedOnce_step; [done|done|apply serve_step].
Qed.

(** X17.  An OAuth state is exchanged for a token at most once, and only
    if the server issued it.  Whatever requests reach a server that starts
    with no state outstanding and no token requested, on either port and in
    any order, the states for which it asks the provider for a token are
    pairwise different, none is null, and each is a UUID the server
    generated since it started, provided the UUIDs it generates do not
    repeat. *)
Theorem oauth_state_is_exchanged_at_most_once
    (requests : list Request) (st : HttpState) :
  Inj (=) (=) (uuidSource st) →
  _webAuthenticationStateSet st = ∅ →
  tokensOf (httpLog st) = [] →
  let st' := foldl serve st requests in
  NoDup (tokensOf (httpLog st'))
  ∧ ∀ s, s ∈ tokensOf (httpLog st') →
      s ≠ 0 ∧ ∃ k, (uuidsDrawn st ≤ k < uuidsDrawn st')%nat ∧ s = uuidSource st k.
Proof.
  intros Hinj Hset Htok st'.
  assert (issuedOnce (uuidsDrawn st) (uuidSource st) st) as Hinit.
  { unfold issuedOnce. rewrite Hset, Htok.
    split; [done|]. split; [done|]. split; [set_solver|].
    split; [by intros s ?%elem_of_nil|]. split; [apply NoDup_nil_2|set_solver]. }
  destruct (issuedOnce_foldl _ _ requests st Hinj Hinit)
    as (_ & _ & _ & Hall & Hnd & _).
  split; [exact Hnd|exact Hall].
Qed.

Lemma oauth_state_is_exchanged_at_most_once_witness :
  tokensOf (httpLog (foldl serve oauthServer
                       [Plain nodesGet; Secure callback; Secure callback]))
  = [1]
  ∧ NoDup (tokensOf (httpLog (foldl serve oauthServer
                                [Plain nodesGet; Secure callback; Secure callback]))).
Proof.
  split; [vm_compute; reflexivity|].
  apply (oauth_state_is_exchanged_at_most_once
           [Plain nodesGet; Secure callback; Secure callback] oauthServer).
  - intros x y H. cbn in H. lia.
  - reflexivity.
  - reflexivity.
Defined.

End OAuthProofs.

(** * Replication peers *)

Module ReplicationProofs.
Import Ice Replication.

Lemma kill_loop keys : ∀ nl,
  uuidSource (foldl handleKillNode nl keys) = uuidSource nl
  ∧ uuidsDrawn (foldl handleKillNode nl keys) = uuidsDrawn nl
  ∧ killed (foldl handleKillNode nl keys) = killed nl ++ keys
  ∧ ∀ u, _nodeHash (foldl handleKillNode nl keys) !! u
         = if decide (u ∈ keys) then None else _nodeHash nl !! u.
Proof.
  induction keys as [|k keys IH]; intros nl.
  - cbn. rewrite app_nil_r. done.
  - cbn [foldl]. destruct (IH (handleKillNode nl k)) as (Hs & Hd & Hk & Hh).
    rewrite Hs, Hd, Hk. cbn. rewrite <- app_assoc. repeat split.
    intros u. rewrite Hh. cbn.
    destruct (decide (u = k)) as [->|Hne].
    + rewrite (decide_True (P := k ∈ k :: keys)) by (apply elem_of_cons; by left).
      case_decide; [done|]. apply lookup_delete_eq.
    + rewrite lookup_delete_ne by done.
      destruct (decide (u ∈ keys)) as [Hin|Hout].
      * rewrite decide_True; [done|]. apply elem_of_cons. by right.
      * rewrite decide_False; [done|]. by intros [?|?]%elem_of_cons.
Qed.

Lemma elem_of_nodesToKill lib direction inSettings nl u :
  u ∈ nodesToKill lib direction inSettings nl
  ↔ ∃ n, _nodeHash nl !! u = Some n
         ∧ inDirection lib direction (getType n) = true
         ∧ getPublicSocket n ∉ inSettings.
Proof.
  unfold nodesToKill. rewrite list_elem_of_fmap. split.
  - intros ([u' n] & -> & Hin). apply list_elem_of_filter in Hin as [[H1 H2] Hin].
    apply elem_of_map_to_list in Hin. by exists n.
  - intros (n & Hl & H1 & H2). exists (u, n). split; [done|].
    apply list_elem_of_filter. split; [done|]. by apply elem_of_map_to_list.
Qed.

Lemma elem_of_known lib direction nl sock :
  sock ∈ knownReplicationNodes lib direction nl
  ↔ ∃ u n, _nodeHash nl !! u = Some n
           ∧ inDirection lib direction (getType n) = true
           ∧ getPublicSocket n = sock.
Proof.
  unfold knownReplicationNodes. rewrite list_elem_of_fmap. split.
  - intros (n & -> & Hin). apply list_elem_of_filter in Hin as [Hd Hin].
    apply list_elem_of_fmap in Hin as ([u n'] & -> & Hin).
    apply elem_of_map_to_list in Hin. by exists u, n'.
  - intros (u & n & Hl & Hd & <-). exists n. split; [done|].
    apply list_elem_of_filter. split; [done|].
    apply list_elem_of_fmap. exists (u, n). split; [done|].
    by apply elem_of_map_to_list.
Qed.

Lemma configured_app lib direction l1 l2 :
  configured lib direction (l1 ++ l2)
  = configured lib direction l1 ++ configured lib direction l2.
Proof. apply omap_app. Qed.

Lemma serverVisit_cases lib direction known inSettings nl server :
  (configured lib direction [server] = []
   ∧ serverVisit lib direction known (inSettings, nl) server = (inSettings, nl))
  ∨ ∃ t sock,
      serverInformationFromSettings lib server direction = mkInfo t sock
      ∧ t ≠ Unassigned
      ∧ configured lib direction [server] = [sock]
      ∧ ((sock ∈ known
          ∧ serverVisit lib direction known (inSettings, nl) server
            = (inSettings ++ [sock], nl))
         ∨ ((sock ∉ known)
            ∧ serverVisit lib direction known (inSettings, nl) server
              = (inSettings ++ [sock],
                 addOrUpdateNode (uuidSource nl (uuidsDrawn nl)) t sock
                   (createUuid nl).2))).
Proof.
  unfold serverVisit, configured. cbn [omap list_omap].
  destruct (serverInformationFromSettings lib server direction) as [t sock] eqn:Hinfo.
  cbn [sockAddr nodeType].
  destruct (negb (sockIsNull sock) && negb (bool_decide (t = Unassigned))) eqn:Htest.
  - right. exists t, sock. split; [done|].
    apply andb_true_iff in Htest as [_ Ht].
    apply negb_true_iff, bool_decide_eq_false in Ht.
    split; [done|]. split; [done|].
    destruct (decide (sock ∈ known)) as [Hin|Hout].
    + left. split; [done|]. by rewrite bool_decide_eq_true_2.
    + right. split; [done|]. by rewrite bool_decide_eq_false_2.
  - left. done.
Qed.

Lemma directionType_info lib direction server t sock :
  serverInformationFromSettings lib server direction = mkInfo t sock →
  t ≠ Unassigned → ∃ t0, t = directionType lib direction t0.
Proof.
  unfold serverInformationFromSettings, directionType.
  repeat case_match; intros; simplify_eq; eauto.
Qed.

Lemma visited_step lib direction nl0 known done acc server :
  (∀ t, directionType lib direction t ≠ Unassigned →
        inDirection lib direction (directionType lib direction t) = true) →
  Inj (=) (=) (uuidSource nl0) →
  visited lib direction nl0 known done acc →
  visited lib direction nl0 known (done ++ [server])
    (serverVisit lib direction known acc server).
Proof.
  intros Hlib Hinj [Hset Hsrc Hkill Hold Hnew Hall Hfresh].
  destruct acc as [inSettings nl]. cbn [fst snd] in *.
  destruct (serverVisit_cases lib direction known inSettings nl server)
    as [[Hc ->]|(t & sock & Hinfo & Ht & Hc & [[Hk ->]|[Hk ->]])];
    constructor; cbn [fst snd]; rewrite ?configured_app, ?Hc, ?app_nil_r; try done.
  - by rewrite Hset.
  - intros u n Hl. destruct (Hnew u n Hl) as [?|[? ?]]; [by left|right].
    split; [done|]. apply elem_of_app. by left.
  - intros s [Hs| ->%list_elem_of_singleton]%elem_of_app; [by apply Hall|by left].
  - by rewrite Hset.
  - cbn. intros u n Hl. rewrite lookup_insert_ne; [by apply Hold|].
    intros <-. rewrite Hsrc in Hl.
    apply Hold in Hl. rewrite (Hfresh (uuidsDrawn nl)) in Hl by done. done.
  - cbn. intros u n Hl. rewrite Hsrc in Hl.
    destruct (decide (u = uuidSource nl0 (uuidsDrawn nl))) as [->|Hne].
    + rewrite lookup_insert_eq in Hl. simplify_eq. right. cbn.
      destruct (directionType_info _ _ _ _ _ Hinfo Ht) as [t0 ->].
      split; [by apply Hlib|]. apply elem_of_app. right. by apply list_elem_of_singleton.
    + rewrite lookup_insert_ne in Hl by done.
      destruct (Hnew u n Hl) as [?|[? ?]]; [by left|right].
      split; [done|]. apply elem_of_app. by left.
  - cbn. intros s [Hs| ->%list_elem_of_singleton]%elem_of_app.
    + destruct (Hall s Hs) as [?|(u & n & Hl & Hd & Hp)]; [by left|right].
      exists u, n. split; [|done].
      rewrite lookup_insert_ne; [done|].
      intros <-. rewrite Hsrc, (Hfresh (uuidsDrawn nl)) in Hl by done. done.
    + right. exists (uuidSource nl (uuidsDrawn nl)), (mkNode t sock).
      rewrite lookup_insert_eq. split; [done|]. split; [|done]. cbn.
      destruct (directionType_info _ _ _ _ _ Hinfo Ht) as [t0 ->]. by apply Hlib.
  - cbn. intros k Hk'. rewrite Hsrc. rewrite lookup_insert_ne.
    + apply Hfresh. lia.
    + intros Heq. apply Hinj in Heq. lia.
Qed.

Lemma visited_loop lib direction nl0 known servers : ∀ done acc,
  (∀ t, directionType lib direction t ≠ Unassigned →
        inDirection lib direction (directionType lib direction t) = true) →
  Inj (=) (=) (uuidSource nl0) →
  visited lib direction nl0 known done acc →
  visited lib direction nl0 known (done ++ servers)
    (foldl (serverVisit lib direction known) acc servers).
Proof.
  induction servers as [|server servers IH]; intros done acc Hlib Hinj Hv.
  - by rewrite app_nil_r.
  - cbn [foldl]. replace (done ++ server :: servers) with ((done ++ [server]) ++ servers)
      by (by rewrite <- app_assoc).
    apply IH; [done|done|]. by apply visited_step.
Qed.

Lemma visited_known lib direction known servers : ∀ inSettings nl,
  (∀ sock, sock ∈ configured lib direction servers → sock ∈ known) →
  foldl (serverVisit lib direction known) (inSettings, nl) servers
  = (inSettings ++ configured lib direction servers, nl).
Proof.
  induction servers as [|server servers IH]; intros inSettings nl Hk.
  - cbn. by rewrite app_nil_r.
  - cbn [foldl].
    change (server :: servers) with ([server] ++ servers) in Hk |- *.
    rewrite configured_app in Hk |- *.
    destruct (serverVisit_cases lib direction known inSettings nl server)
      as [[Hc ->]|(t & sock & Hinfo & Ht & Hc & [[Hin ->]|[Hout _]])].
    + rewrite Hc. cbn [app]. apply IH. intros s Hs. apply Hk.
      apply elem_of_app. by right.
    + rewrite Hc, IH; [by rewrite <- app_assoc|].
      intros s Hs. apply Hk. apply elem_of_app. by right.
    + exfalso. apply Hout, Hk. rewrite Hc. apply elem_of_app. left.
      by apply list_elem_of_singleton.
Qed.

(** The loop started by [updateReplicationNodes], written over the servers
    the settings hold for the direction. *)
Lemma updateReplicationNodes_unfold lib direction settings nl :
  updateReplicationNodes lib direction (Some settings) nl
  = let acc :=
      foldl (serverVisit lib direction (knownReplicationNodes lib direction nl))
        ([], nl) (default [] (serversOf direction settings)) in
    foldl handleKillNode acc.2 (nodesToKill lib direction acc.1 acc.2).
Proof.
  unfold updateReplicationNodes.
  destruct (serversOf direction settings) as [servers|]; cbn [default foldl].
  - by destruct (foldl _ _ servers).
  - done.
Qed.

(** X18.  After an update the replication peers of a direction are the
    servers of the settings.  With the broadcasting settings present, the
    public sockets of the nodes of the direction are, after
    [updateReplicationNodes], exactly the sockets of the configured servers
    that have an address, a port and a type, a socket that is not null and a
    type the direction knows; nodes of other types are neither added nor
    removed; and a second update with the same settings changes nothing.
    (Assumed of the library: a type the direction gives a server is a type
    of that direction, and new UUIDs repeat neither each other nor the UUID
    of a node.) *)
Theorem replication_nodes_follow_the_settings
    (lib : Library) (direction : ReplicationServerDirection)
    (settings : BroadcastSettings) (nl : NodeList) :
  (∀ t, directionType lib direction t ≠ Unassigned →
        inDirection lib direction (directionType lib direction t) = true) →
  Inj (=) (=) (uuidSource nl) →
  (∀ k, (uuidsDrawn nl ≤ k)%nat → _nodeHash nl !! uuidSource nl k = None) →
  let servers := default [] (serversOf direction settings) in
  let nl' := updateReplicationNodes lib direction (Some settings) nl in
  (∀ sock, sock ∈ knownReplicationNodes lib direction nl'
           ↔ sock ∈ configured lib direction servers)
  ∧ (∀ u n, inDirection lib direction (getType n) = false →
       _nodeHash nl' !! u = Some n ↔ _nodeHash nl !! u = Some n)
  ∧ updateReplicationNodes lib direction (Some settings) nl' = nl'.
Proof.
  intros Hlib Hinj Hfresh servers nl'.
  assert (visited lib direction nl (knownReplicationNodes lib direction nl) servers
            (foldl (serverVisit lib direction (knownReplicationNodes lib direction nl))
               ([], nl) servers)) as Hv.
  { apply (visited_loop lib direction nl _ servers [] ([], nl)); [done|done|].
    constructor; cbn; try done.
    - intros u n Hl. by left.
    - by intros sock ?%elem_of_nil. }
  assert (nl' = foldl handleKillNode
                  (foldl (serverVisit lib direction
                            (knownReplicationNodes lib direction nl))
                     ([], nl) servers).2
                  (nodesToKill lib direction
                     (foldl (serverVisit lib direction
                               (knownReplicationNodes lib direction nl))
                        ([], nl) servers).1
                     (foldl (serverVisit lib direction
                               (knownReplicationNodes lib direction nl))
                        ([], nl) servers).2)) as Hnl'
    by (subst nl'; apply updateReplicationNodes_unfold).
  destruct (foldl (serverVisit lib direction (knownReplicationNodes lib direction nl))
              ([], nl) servers) as [inSettings nl1].
  destruct Hv as [Hset Hsrc Hkill Hold Hnew Hall _]. cbn [fst snd] in *.
  destruct (kill_loop (nodesToKill lib direction inSettings nl1) nl1)
    as (Hs2 & Hd2 & Hk2 & Hh2).
  rewrite <- Hnl' in Hs2, Hd2, Hk2, Hh2.
  assert (∀ u n, _nodeHash nl' !! u = Some n
                 ↔ _nodeHash nl1 !! u = Some n
                   ∧ (inDirection lib direction (getType n) = true →
                      getPublicSocket n ∈ inSettings)) as Hkept.
  { intros u n. rewrite Hh2. case_decide as Hin.
    - apply elem_of_nodesToKill in Hin as (n' & Hl & Hd & Hout).
      split; [done|]. intros [Hl' Himp]. simplify_eq. exfalso. by apply Hout, Himp.
    - split.
      + intros Hl. split; [done|]. intros Hd.
        destruct (decide (getPublicSocket n ∈ inSettings)) as [|Hout]; [done|].
        exfalso. apply Hin. apply elem_of_nodesToKill. by exists n.
      + by intros [? _]. }
  assert (∀ sock, sock ∈ knownReplicationNodes lib direction nl'
                  ↔ sock ∈ configured lib direction servers) as Hexact.
  { intros sock. rewrite elem_of_known. split.
    - intros (u & n & Hl & Hd & <-). apply Hkept in Hl as [_ Himp].
      rewrite <- Hset. by apply Himp.
    - intros Hin. destruct (Hall sock Hin) as [Hk|(u & n & Hl & Hd & <-)].
      + apply elem_of_known in Hk as (u & n & Hl & Hd & <-).
        exists u, n. split; [|done]. apply Hkept. split; [by apply Hold|].
        intros _. by rewrite Hset.
      + exists u, n. split; [|done]. apply Hkept. split; [done|].
        intros _. by rewrite Hset. }
  split; [exact Hexact|]. split.
  - intros u n Hd. rewrite Hkept. split.
    + intros [Hl _]. destruct (Hnew u n Hl) as [?|[Hd' _]]; [done|congruence].
    + intros Hl. split; [by apply Hold|]. congruence.
  - rewrite updateReplicationNodes_unfold. fold servers. cbn zeta.
    rewrite visited_known by (intros sock; apply Hexact).
    cbn [fst snd app].
    assert (nodesToKill lib direction (configured lib direction servers) nl' = [])
      as ->; [|done].
    apply elem_of_nil_inv. intros u (n & Hl & Hd & Hout)%elem_of_nodesToKill.
    apply Hout, Hexact, elem_of_known. by exists u, n.
Qed.

Lemma replication_nodes_follow_the_settings_witness :
  knownReplicationNodes exampleLibrary Downstream staleDownstream
  = [mkSockAddr (Some 5) 7000]
  ∧ configured exampleLibrary Downstream
      (default [] (serversOf Downstream oneDownstream))
    = [mkSockAddr (Some 3) 7000]
  ∧ ∀ sock,
      sock ∈ knownReplicationNodes exampleLibrary Downstream
               (updateReplicationNodes exampleLibrary Downstream
                  (Some oneDownstream) staleDownstream)
      ↔ sock ∈ [mkSockAddr (Some 3) 7000].
Proof.
  split; [vm_compute; reflexivity|]. split; [vm_compute; reflexivity|].
  apply (replication_nodes_follow_the_settings exampleLibrary Downstream
           oneDownstream staleDownstream).
  - intros t Ht. destruct t; cbn in Ht |- *; done.
  - intros x y H. cbn in H. lia.
  - intros k _. cbn.
    apply lookup_insert_None. split.
    + apply lookup_insert_None. split; [done|lia].
    + lia.
Defined.

End ReplicationProofs.
